(** * Routing core of omim: road graph, index graph builder, cross-mwm builder

    A shallow embedding of [routing/road_graph.hpp] and of
    [generator/routing_index_generator.cpp], with the properties the
    specification states about them.

    Conventions of the embedding:
    - a C++ [double] is a binary64 float ([PrimFloat.float]);
    - [uint32_t] and [uint64_t] values are [N], [size_t] loop counters are
      [nat] (they are bounded by a container's size), narrowing casts are
      written out;
    - [std::map] and [std::unordered_map] are [gmap]s, [std::vector] and
      [buffer_vector] are lists, indexed with [!!];
    - code that can fail returns an [Outcome]; code that reads or writes
      files or logs runs in the monad [M] over a [World] that records the
      log and the file operations in order;
    - classes and functions the two files use but do not define are the
      fields of the interfaces [Geometry], [Features], [Masks],
      [VehicleModels], [Routing] and [Platform]. *)

From Stdlib Require Import Floats.
From stdpp Require Import gmap strings list fin_maps.

#[global] Set Warnings "-clear-no-such-hyp".

(** ** Failures and the two monads *)

(** What a [throw] carries: a [RootException] (or an object of a class
    derived from it), or any other object, such as a [std::bad_alloc]. *)
Inductive Exception : Type :=
| RootException (what : string)
| OtherException (what : string).

(** How a computation ends when it does not return: a C++ exception on its
    way up the stack, a [CHECK] whose condition is false, an index outside
    its container, or [->] on an empty [shared_ptr]. *)
Inductive Failure : Type :=
| Thrown (e : Exception)
| CheckFailed
| OutOfRange
| NullDereference.

Inductive Outcome (A : Type) : Type :=
| Ok (a : A)
| Fail (f : Failure).
Arguments Ok {A} a.
Arguments Fail {A} f.

#[export] Instance Outcome_ret : MRet Outcome := λ A a, Ok a.
#[export] Instance Outcome_bind : MBind Outcome := λ A B k m,
  match m with
  | Ok a => k a
  | Fail f => Fail f
  end.

(** [v[i]] on a vector. *)
Definition at_index {A} (v : list A) (i : nat) : Outcome A :=
  match v !! i with
  | Some a => Ok a
  | None => Fail OutOfRange
  end.

(** [for (size_t i = lo; i < lo + n; ++i) body(i)], threading the state the
    body updates. *)
Fixpoint for_loop {State} (n : nat) (i : nat) (body : nat → State → Outcome State)
    (s : State) : Outcome State :=
  match n with
  | O => Ok s
  | S n' => s' ← body i s; for_loop n' (S i) body s'
  end.

(** [for (auto const & a : v) body(a)]. *)
Fixpoint for_each {A State} (v : list A) (body : A → State → State) (s : State)
  : State :=
  match v with
  | [] => s
  | a :: v' => for_each v' body (body a s)
  end.

(** ** Geometry and the road graph ([routing/road_graph.hpp]) *)

Definition double : Type := float.

#[warnings="-inexact-float"] Definition kPointsEqualEpsilon : double := 1e-6%float.

(** [m2::PointD]. *)
Record PointD : Type := MkPointD { x : double; y : double }.

(** [feature::TAltitude]. *)
Definition TAltitude : Type := Z.

(** What the two files use of [geometry/] and [indexer/point_to_int64.hpp]. *)
Class Geometry : Type := {
  (** [my::AlmostEqualAbs(a, b, eps)] on points *)
  my_AlmostEqualAbs : PointD → PointD → double → bool;
  (** [m2::RegionD] and [RegionD::Contains] *)
  RegionD : Type;
  Contains : RegionD → PointD → bool;
  (** [PointToInt64(point, coordBits)], a [uint64_t] *)
  PointToInt64 : PointD → N → N;
  POINT_COORD_BITS : N;
}.

Record Junction : Type := MkJunction {
  m_point : PointD;
  m_altitude : TAltitude;
}.

Definition GetPoint (j : Junction) : PointD := m_point j.
Definition GetAltitude (j : Junction) : TAltitude := m_altitude j.

(** [IRoadGraph::RoadInfo]. *)
Record RoadInfo : Type := MkRoadInfo {
  m_junctions : list Junction;
  m_speedKMPH : double;
  m_bidirectional : bool;
}.

(** One invocation [fn(segId, junction, forward)] of [ForEachEdge]'s callback. *)
Record EdgeCall : Type := MkEdgeCall {
  call_segId : nat;
  call_junction : Junction;
  call_forward : bool;
}.

Section RoadGraph.
Context `{!Geometry}.

(** Modelled from the spec: [m2::PointD::operator==] ([geometry/point2d.hpp]
    is not among the sources).  The data model says of a Point that
    "equality uses an absolute epsilon (POINTS_EQUAL_EPSILON = 1e-6)". *)
Definition PointD_eq (a b : PointD) : bool :=
  my_AlmostEqualAbs a b kPointsEqualEpsilon.

(** [Junction::operator==] and [operator!=]. *)
Definition Junction_eq (l r : Junction) : bool :=
  PointD_eq (m_point l) (m_point r).
Definition Junction_ne (l r : Junction) : bool :=
  negb (Junction_eq l r).

(** [routing::AlmostEqualAbs(Junction, Junction)]. *)
Definition AlmostEqualAbs (lhs rhs : Junction) : bool :=
  my_AlmostEqualAbs (GetPoint lhs) (GetPoint rhs) kPointsEqualEpsilon.

(** [ICrossEdgesLoader::ForEachEdge]; [fn] updates whatever the callback
    captures, here a state [State]. *)
Definition ForEachEdge {State} (m_cross : Junction) (roadInfo : RoadInfo)
    (fn : nat → Junction → bool → State → State) (s : State) : Outcome State :=
  let junctions := m_junctions roadInfo in
  for_loop (length junctions) 0 (λ i s,
    ji ← at_index junctions i;
    if negb (my_AlmostEqualAbs (GetPoint m_cross) (GetPoint ji) kPointsEqualEpsilon)
    then Ok s
    else
      s ← (if bool_decide (i + 1 < length junctions)
           then jn ← at_index junctions (i + 1); Ok (fn i jn true s)
           else Ok s);
      if bool_decide (0 < i)
      then jp ← at_index junctions (i - 1); Ok (fn (i - 1) jp false s)
      else Ok s) s.

(** The calls the specification asks for at vertex [i]: none unless the
    vertex is epsilon-equal to the cross; then the successor with
    [forward = true] when [i + 1] is an index, and the predecessor with
    [forward = false] when [i > 0]. *)
Definition calls_at_vertex (m_cross : Junction) (junctions : list Junction)
    (i : nat) : list EdgeCall :=
  match junctions !! i with
  | Some ji =>
      if my_AlmostEqualAbs (GetPoint m_cross) (GetPoint ji) kPointsEqualEpsilon
      then
        match junctions !! (i + 1) with
        | Some jn => [MkEdgeCall i jn true]
        | None => []
        end ++
        match bool_decide (0 < i), junctions !! (i - 1) with
        | true, Some jp => [MkEdgeCall (i - 1) jp false]
        | _, _ => []
        end
      else []
  | None => []
  end.

Definition expected_calls (m_cross : Junction) (roadInfo : RoadInfo)
  : list EdgeCall :=
  flat_map (calls_at_vertex m_cross (m_junctions roadInfo))
           (seq 0 (length (m_junctions roadInfo))).

Definition apply_call {State} (fn : nat → Junction → bool → State → State)
    (s : State) (c : EdgeCall) : State :=
  fn (call_segId c) (call_junction c) (call_forward c) s.
End RoadGraph.

(** ** Vehicle types, masks and models ([routing/vehicle_mask.hpp],
    [routing_common/]) *)

(** [VehicleMask] is a [uint32_t] bit set. *)
Definition VehicleMask : Type := N.

(** Modelled from the spec: [enum class VehicleType]
    ([routing/vehicle_mask.hpp] is not among the sources).  "A bitset over
    the vehicle types {Pedestrian, Bicycle, Car}": the three enumerators in
    that order; [VehicleType::Count] is the number of them. *)
Inductive VehicleType : Type := Pedestrian | Bicycle | Car.

(** [static_cast<VehicleType>(j)] for [j = 0, 1, 2]. *)
Definition all_vehicle_types : list VehicleType := [Pedestrian; Bicycle; Car].

(** The fixed bit of each vehicle type. *)
Class Masks : Type := {
  kPedestrianMask : VehicleMask;
  kBicycleMask : VehicleMask;
  kCarMask : VehicleMask;
  GetVehicleMask : VehicleType → VehicleMask;
}.

(** The feature reader ([indexer/feature.hpp], [feature_processor.hpp]). *)
Class Features : Type := {
  FeatureType : Type;
  (** the points of the feature once [ParseGeometry(BEST_GEOMETRY)] has run *)
  BestGeometry : FeatureType → list PointD;
}.

(** [f.GetPointsCount()] and [f.GetPoint(i)]. *)
Definition GetPointsCount `{!Features} (f : FeatureType) : nat :=
  length (BestGeometry f).
Definition GetPointAt `{!Features} (f : FeatureType) (i : nat) : Outcome PointD :=
  at_index (BestGeometry f) i.

(** [IVehicleModel]. *)
Record IVehicleModel `{!Features} : Type := MkVehicleModel {
  IsRoad : FeatureType → bool;
  IsOneWay : FeatureType → bool;
  GetMaxSpeed : double;
}.

(** The three model factories; [None] is the empty [shared_ptr]. *)
Class VehicleModels `{!Features} : Type := {
  PedestrianModelFactory : string → option IVehicleModel;
  BicycleModelFactory : string → option IVehicleModel;
  CarModelFactory : string → option IVehicleModel;
}.

(** Modelled from the spec: the [CHECK] macro ([base/assert.hpp] is not
    among the sources).  "Construction of the bridge requires all three
    and fails if any is missing": a [CHECK] whose condition is false ends
    the computation, and it is no exception a [catch] clause sees.
    [CHECK_ptr] is [CHECK(ptr, ())] on a [shared_ptr]; it hands back what
    the pointer holds. *)
Definition CHECK (condition : bool) : Outcome unit :=
  if condition then Ok () else Fail CheckFailed.
Definition CHECK_ptr {A} (ptr : option A) : Outcome A :=
  match ptr with
  | Some a => Ok a
  | None => Fail CheckFailed
  end.

(** Modelled from the spec: [base::checked_cast<uint32_t>] and
    [base::asserted_cast<uint32_t>] ([base/checked_cast.hpp] is not among
    the sources).  The specification has a segment index and a vertex
    index as plain ordinals.  Both casts narrow a [size_t] to 32 bits and
    keep an ordinal that fits; for one that does not, the checked cast is
    a [CHECK] that fails, and the asserted cast (an assertion of debug
    builds only) is the conversion of C++, modulo [2 ^ 32]. *)
Definition checked_cast_uint32 (v : nat) : Outcome N :=
  CHECK (bool_decide (N.of_nat v < 2 ^ 32)%N);; Ok (N.of_nat v).
Definition asserted_cast_uint32 (v : nat) : N :=
  (N.of_nat v mod 2 ^ 32)%N.

(** ** The index graph builder ([generator/routing_index_generator.cpp]) *)

(** [RoadPoint(featureId, pointId)]. *)
Record RoadPoint : Type := MkRoadPoint {
  rp_featureId : N;
  rp_pointId : N;
}.

(** Modelled from the spec: [routing::Joint] ([routing/joint.hpp] is not
    among the sources): "an equivalence class of RoadPoints", here the
    road points in the order [AddPoint] received them. *)
Definition Joint : Type := list RoadPoint.
Definition Joint_empty : Joint := [].
Definition AddPoint (j : Joint) (rp : RoadPoint) : Joint := j ++ [rp].
Definition GetSize (j : Joint) : nat := length j.

(** Modelled from the spec: [routing::Segment] ([routing/segment.hpp] is
    not among the sources).  "Each a Segment: feature_id + segment_index +
    direction"; as the key of a [std::map] it has an order, here a
    decidable equality and an enumeration. *)
Record Segment : Type := MkSegment {
  seg_featureId : N;
  seg_segmentIdx : N;
  seg_forward : bool;
}.

#[export] Instance Segment_eq_dec : EqDecision Segment.
Proof. solve_decision. Defined.

#[export] Instance Segment_countable : Countable Segment.
Proof.
  refine (inj_countable' (λ s, (seg_featureId s, seg_segmentIdx s, seg_forward s))
                         (λ t, MkSegment t.1.1 t.1.2 t.2) _).
  by intros [].
Defined.

(** [CrossMwmConnectorSerializer::Transition], its fields in the order of
    the constructor's arguments. *)
Record Transition : Type := MkTransition {
  t_featureId : N;
  t_segmentIdx : N;
  t_roadMask : VehicleMask;
  t_oneWayMask : VehicleMask;
  t_forwardIsEnter : bool;
  t_backPoint : PointD;
  t_frontPoint : PointD;
}.

(** [DijkstraWrapper], the graph as [AStarAlgorithm] sees it: an object
    with three methods over its vertex and edge types. *)
Record DijkstraWrapper (TVertexType TEdgeType : Type) : Type := MkDijkstraWrapper {
  GetOutgoingEdgesList : TVertexType → list TEdgeType;
  GetIngoingEdgesList : TVertexType → list TEdgeType;
  HeuristicCostEstimate : TVertexType → TVertexType → double;
}.
Arguments MkDijkstraWrapper {TVertexType TEdgeType} _ _ _.
Arguments GetOutgoingEdgesList {TVertexType TEdgeType} _ _.
Arguments GetIngoingEdgesList {TVertexType TEdgeType} _ _.
Arguments HeuristicCostEstimate {TVertexType TEdgeType} _ _ _.

(** What the generator uses of [routing/]: the index graph, the wave of
    [AStarAlgorithm] and the cross-mwm connector. *)
Class Routing : Type := {
  IndexGraph : Type;
  (** [IndexGraph graph;] *)
  IndexGraph_new : IndexGraph;
  (** the graph after [graph.Import(joints)] *)
  Import : IndexGraph → list Joint → Outcome IndexGraph;
  (** [routing::SegmentEdge] and [edge.GetWeight()] *)
  SegmentEdge : Type;
  GetWeight : SegmentEdge → double;
  (** the edges [graph.GetEdgeList(vertex, isOutgoing, edges)] appends *)
  GetEdgeList : IndexGraph → Segment → bool → list SegmentEdge;
  GetNumRoads : IndexGraph → N;
  GetNumJoints : IndexGraph → N;
  GetNumPoints : IndexGraph → N;
  (** [astar.PropagateWave(graph, startVertex, checkForStop,
      adjustEdgeWeight, putToParents, bestDistance)]; the last argument is
      the map the wave receives, the result the map it leaves *)
  PropagateWave : DijkstraWrapper Segment SegmentEdge → Segment → (Segment → bool) →
                  (Segment → SegmentEdge → double) → (Segment → Segment → unit) →
                  gmap Segment double → gmap Segment double;
  CrossMwmConnector : Type;
  (** [CrossMwmConnector connector;] *)
  CrossMwmConnector_new : CrossMwmConnector;
  (** [CrossMwmConnectorSerializer::AddTransition(transition, mask, connector)] *)
  AddTransition : Transition → VehicleMask → CrossMwmConnector → CrossMwmConnector;
  GetEnters : CrossMwmConnector → list Segment;
  GetExits : CrossMwmConnector → list Segment;
  (** [connector.FillWeights(calcWeight)] *)
  Connector_FillWeights : (Segment → Segment → double) →
                          CrossMwmConnector → CrossMwmConnector;
  (** [CrossMwmConnector::kNoRoute] *)
  kNoRoute : double;
}.

(** [connector.GetEnter(i)]. *)
Definition GetEnter `{!Routing} (connector : CrossMwmConnector) (i : nat)
  : Outcome Segment :=
  at_index (GetEnters connector) i.

(** [CrossMwmConnectorPerVehicleType], an array with one connector per
    vehicle type. *)
Record CrossMwmConnectorPerVehicleType `{!Routing} : Type := MkConnectors {
  forPedestrian : CrossMwmConnector;
  forBicycle : CrossMwmConnector;
  forCar : CrossMwmConnector;
}.

(** [connectors[static_cast<size_t>(vehicleType)]], read and updated. *)
Definition connector_of `{!Routing} (connectors : CrossMwmConnectorPerVehicleType)
    (vehicleType : VehicleType) : CrossMwmConnector :=
  match vehicleType with
  | Pedestrian => forPedestrian connectors
  | Bicycle => forBicycle connectors
  | Car => forCar connectors
  end.
Definition connector_set `{!Routing} (connectors : CrossMwmConnectorPerVehicleType)
    (vehicleType : VehicleType) (c : CrossMwmConnector)
  : CrossMwmConnectorPerVehicleType :=
  match vehicleType with
  | Pedestrian => MkConnectors _ c (forBicycle connectors) (forCar connectors)
  | Bicycle => MkConnectors _ (forPedestrian connectors) c (forCar connectors)
  | Car => MkConnectors _ (forPedestrian connectors) (forBicycle connectors) c
  end.
Definition connectors_new `{!Routing} : CrossMwmConnectorPerVehicleType :=
  MkConnectors _ CrossMwmConnector_new CrossMwmConnector_new CrossMwmConnector_new.

(** ** The world of the generator: log and file operations *)

Inductive LogLevel : Type := LINFO | LERROR.

Inductive LogItem : Type :=
| LogText (s : string)
| LogNumber (n : N)
| LogVehicleType (v : VehicleType)
| LogElapsedSeconds.

Definition LogLine : Type := LogLevel * list LogItem.

(** The file operations of the two build entry points, with what they read
    or write. *)
Inductive IoEvent `{!Routing} : Type :=
| IoLoadBorders (polyFile : string)
| IoForEachFromDat (datFile : string)
| IoLoadIndexGraph (path mwmFile country : string)
| IoLoadCodingParams (mwmFile : string)
| IoOpenWriter (file tag : string)
| IoSerializeIndexGraph (graph : IndexGraph) (masks : gmap N VehicleMask)
| IoSerializeCrossMwm (transitions : list Transition)
    (connectors : CrossMwmConnectorPerVehicleType).

Record World `{!Routing} : Type := MkWorld {
  w_log : list LogLine;
  w_io : list IoEvent;
}.

Definition M `{!Routing} (A : Type) : Type := World → World * Outcome A.

#[export] Instance M_ret `{!Routing} : MRet M := λ A a w, (w, Ok a).
#[export] Instance M_bind `{!Routing} : MBind M := λ A B k m w,
  match m w with
  | (w', Ok a) => k a w'
  | (w', Fail f) => (w', Fail f)
  end.

Definition lift `{!Routing} {A} (o : Outcome A) : M A := λ w, (w, o).
Definition throw `{!Routing} {A} (e : Exception) : M A := lift (Fail (Thrown e)).
Definition io `{!Routing} (e : IoEvent) : M unit :=
  λ w, (MkWorld _ (w_log w) (w_io w ++ [e]), Ok ()).
Definition LOG `{!Routing} (level : LogLevel) (items : list LogItem) : M unit :=
  λ w, (MkWorld _ (w_log w ++ [(level, items)]) (w_io w), Ok ()).
Definition LOG_lines `{!Routing} (lines : list LogLine) : M unit :=
  λ w, (MkWorld _ (w_log w ++ lines) (w_io w), Ok ()).

(** [for (size_t i = 0; i < v.size(); ++i) body(v[i])] for a body that
    logs or touches files. *)
Fixpoint for_each_M `{!Routing} {A} (v : list A) (body : A → M unit) : M unit :=
  match v with
  | [] => mret ()
  | a :: v' => body a;; for_each_M v' body
  end.

(** [try { body } catch (RootException const & e) { handler(e.what()) }]. *)
Definition try_catch_RootException `{!Routing} {A} (body : M A)
    (handler : string → M A) : M A :=
  λ w,
    match body w with
    | (w', Fail (Thrown (RootException what))) => handler what w'
    | r => r
    end.

(** The files as the generator finds them, and the writers of
    [coding/file_container.hpp]. *)
Class Platform `{!Geometry, !Features, !Routing} : Type := {
  (** [osm::LoadBorders(polyFile, borders)]: the regions it leaves in [borders] *)
  LoadBorders : string → Outcome (list RegionD);
  (** the features [feature::ForEachFromDat(file, toDo)] hands to [toDo],
      each with its id, and the exception that ends the iteration, if any *)
  DatFeatures : string → list (FeatureType * N) * option Exception;
  (** the graph [FillWeights] builds before its loop: the geometry loader
      of the mwm with the car model, the car estimator, and the routing
      section of the mwm read into it *)
  DeserializedIndexGraph : string → string → string → IVehicleModel → Outcome IndexGraph;
  CodingParams : Type;
  (** [DataHeader(mwmFile).GetDefCodingParams()] *)
  DefCodingParams : string → Outcome CodingParams;
  FileWriter : Type;
  (** [FilesContainerW(file, OP_WRITE_EXISTING).GetWriter(tag)] *)
  OpenWriter : string → string → Outcome FileWriter;
  Pos : FileWriter → N;
  (** the writers after [IndexGraphSerializer::Serialize] and
      [CrossMwmConnectorSerializer::Serialize] *)
  SerializeIndexGraph : IndexGraph → gmap N VehicleMask → FileWriter → Outcome FileWriter;
  SerializeCrossMwm : list Transition → CrossMwmConnectorPerVehicleType →
                      CodingParams → FileWriter → Outcome FileWriter;
}.

(** [writer.Pos() - startPos] on [uint64_t]. *)
Definition uint64_sub (a b : N) : N := ((a + 2 ^ 64 - b) mod 2 ^ 64)%N.

(** Modelled from the spec: [my::JoinPath], [BORDERS_DIR],
    [BORDERS_EXTENSION] and the section tags (their headers are not among
    the sources).  "Border file: <path>/borders/<country>.poly"; the
    archive sections are "routing" and "cross_mwm". *)
Definition BORDERS_DIR : string := "borders".
Definition BORDERS_EXTENSION : string := ".poly".
Definition JoinPath (a b c : string) : string := a +:+ "/" +:+ b +:+ "/" +:+ c.
Definition ROUTING_FILE_TAG : string := "routing".
Definition CROSS_MWM_FILE_TAG : string := "cross_mwm".

Section Generator.
Context `{!Geometry, !Features, !Masks, !VehicleModels, !Routing, !Platform}.

(** *** [VehicleMaskBuilder] *)

Record VehicleMaskBuilder : Type := MkVehicleMaskBuilder {
  m_pedestrianModel : IVehicleModel;
  m_bicycleModel : IVehicleModel;
  m_carModel : IVehicleModel;
}.

(** The constructor: the three factories are asked first, then the three
    [CHECK]s run in order. *)
Definition VehicleMaskBuilder_new (country : string) : Outcome VehicleMaskBuilder :=
  let pedestrianModel := PedestrianModelFactory country in
  let bicycleModel := BicycleModelFactory country in
  let carModel := CarModelFactory country in
  p ← CHECK_ptr pedestrianModel;
  b ← CHECK_ptr bicycleModel;
  c ← CHECK_ptr carModel;
  Ok (MkVehicleMaskBuilder p b c).

Definition CalcMask (this : VehicleMaskBuilder) (f : FeatureType)
    (fn : IVehicleModel → FeatureType → bool) : VehicleMask :=
  let mask := 0%N in
  let mask := if fn (m_pedestrianModel this) f then N.lor mask kPedestrianMask else mask in
  let mask := if fn (m_bicycleModel this) f then N.lor mask kBicycleMask else mask in
  let mask := if fn (m_carModel this) f then N.lor mask kCarMask else mask in
  mask.

Definition CalcRoadMask (this : VehicleMaskBuilder) (f : FeatureType) : VehicleMask :=
  CalcMask this f (λ model f, IsRoad model f).

Definition CalcOneWayMask (this : VehicleMaskBuilder) (f : FeatureType) : VehicleMask :=
  CalcMask this f (λ model f, IsOneWay model f).

(** *** [Processor] *)

Record Processor : Type := MkProcessor {
  m_maskBuilder : VehicleMaskBuilder;
  m_posToJoint : gmap N Joint;
  m_masks : gmap N VehicleMask;
}.

Definition Processor_new (country : string) : Outcome Processor :=
  maskBuilder ← VehicleMaskBuilder_new country;
  Ok (MkProcessor maskBuilder ∅ ∅).

(** [m_posToJoint[locationKey].AddPoint(roadPoint)]: [operator[]] makes an
    empty joint for a key that has none. *)
Definition AddPointAt (locationKey : N) (roadPoint : RoadPoint)
    (posToJoint : gmap N Joint) : gmap N Joint :=
  <[locationKey := AddPoint (default Joint_empty (posToJoint !! locationKey)) roadPoint]>
    posToJoint.

Definition ProcessFeature (f : FeatureType) (id : N) (this : Processor)
  : Outcome Processor :=
  let mask := CalcRoadMask (m_maskBuilder this) f in
  if bool_decide (mask = 0%N) then Ok this
  else
    let this := MkProcessor (m_maskBuilder this) (m_posToJoint this)
                            (<[id := mask]> (m_masks this)) in
    for_loop (GetPointsCount f) 0 (λ i this,
      point ← GetPointAt f i;
      let locationKey := PointToInt64 point POINT_COORD_BITS in
      pointId ← checked_cast_uint32 i;
      Ok (MkProcessor (m_maskBuilder this)
                      (AddPointAt locationKey (MkRoadPoint id pointId) (m_posToJoint this))
                      (m_masks this))) this.

(** The calls [toDo(f, id)] of [feature::ForEachFromDat], one feature after
    the other. *)
Fixpoint for_each_feature {State} (features : list (FeatureType * N))
    (toDo : FeatureType → N → State → Outcome State) (s : State) : Outcome State :=
  match features with
  | [] => Ok s
  | (f, id) :: rest => s' ← toDo f id s; for_each_feature rest toDo s'
  end.

(** [feature::ForEachFromDat(file, toDo)]: the file is read, [toDo] sees
    the features it yields, and the reader's exception, if there is one,
    comes after the features read before it. *)
Definition ForEachFromDat {State} (file : string)
    (toDo : FeatureType → N → State → Outcome State) (s : State) : M State :=
  io (IoForEachFromDat file);;
  s' ← lift (for_each_feature (DatFeatures file).1 toDo s);
  match (DatFeatures file).2 with
  | Some e => throw e
  | None => mret s'
  end.

Definition ProcessAllFeatures (filename : string) (this : Processor) : M Processor :=
  ForEachFromDat filename ProcessFeature this.

(** The vector [joints] of [BuildGraph] when the loop over [m_posToJoint]
    is done. *)
Definition BuildGraph_joints (this : Processor) : list Joint :=
  for_each (map_to_list (m_posToJoint this)) (λ it joints,
    if bool_decide (2 ≤ GetSize it.2) then joints ++ [it.2] else joints) [].

Definition BuildGraph (this : Processor) (graph : IndexGraph) : Outcome IndexGraph :=
  Import graph (BuildGraph_joints this).

Definition GetMasks (this : Processor) : gmap N VehicleMask := m_masks this.

(** Two road points are in the same joint of the builder. *)
Definition same_joint (this : Processor) (a b : RoadPoint) : Prop :=
  ∃ locationKey joint,
    m_posToJoint this !! locationKey = Some joint ∧ a ∈ joint ∧ b ∈ joint.

(** A road point is in the joint the builder keeps for a location key. *)
Definition in_joint_at (posToJoint : gmap N Joint) (locationKey : N) (rp : RoadPoint)
  : Prop :=
  ∃ joint, posToJoint !! locationKey = Some joint ∧ rp ∈ joint.

(** The location key of vertex [i] of a feature, when it has one. *)
Definition location_key (f : FeatureType) (i : nat) : option N :=
  (λ point, PointToInt64 point POINT_COORD_BITS) <$> BestGeometry f !! i.

(** *** Cross-mwm transitions *)

Fixpoint RegionsContain (regions : list RegionD) (point : PointD) : bool :=
  match regions with
  | [] => false
  | region :: rest => if Contains region point then true else RegionsContain rest point
  end.

(** What the loop over the vertices of one feature updates. *)
Record ScanState : Type := MkScanState {
  prevPointIn : bool;
  scan_transitions : list Transition;
  scan_connectors : CrossMwmConnectorPerVehicleType;
}.

(** The loop over [j]: the transition goes to the connector of every
    vehicle type, with the mask of the type. *)
Definition AddTransitionToAll (transition : Transition)
    (connectors : CrossMwmConnectorPerVehicleType) : CrossMwmConnectorPerVehicleType :=
  for_each all_vehicle_types (λ vehicleType connectors,
    let mask := GetVehicleMask vehicleType in
    connector_set connectors vehicleType
      (AddTransition transition mask (connector_of connectors vehicleType))) connectors.

(** The body of the loop [for (size_t i = 1; i < pointsCount; ++i)]. *)
Definition scan_vertex (borders : list RegionD) (maskMaker : VehicleMaskBuilder)
    (f : FeatureType) (featureId : N) (roadMask : VehicleMask)
    (i : nat) (st : ScanState) : Outcome ScanState :=
  point ← GetPointAt f i;
  let currPointIn := RegionsContain borders point in
  if bool_decide (currPointIn = prevPointIn st) then Ok st
  else
    let segmentIdx := asserted_cast_uint32 (i - 1) in
    let oneWayMask := CalcOneWayMask maskMaker f in
    backPoint ← GetPointAt f (i - 1);
    let transition := MkTransition featureId segmentIdx roadMask oneWayMask
                                   currPointIn backPoint point in
    let transitions := scan_transitions st ++ [transition] in
    let connectors := AddTransitionToAll transition (scan_connectors st) in
    Ok (MkScanState currPointIn transitions connectors).

(** The lambda [CalcCrossMwmTransitions] gives to [ForEachFromDat]; the
    state is what it captures by reference and changes. *)
Definition CalcCrossMwmTransitions_feature (borders : list RegionD)
    (maskMaker : VehicleMaskBuilder) (f : FeatureType) (featureId : N)
    (st : list Transition * CrossMwmConnectorPerVehicleType)
  : Outcome (list Transition * CrossMwmConnectorPerVehicleType) :=
  let roadMask := CalcRoadMask maskMaker f in
  if bool_decide (roadMask = 0%N) then Ok st
  else
    let pointsCount := GetPointsCount f in
    if bool_decide (pointsCount = 0) then Ok st
    else
      point0 ← GetPointAt f 0;
      let prevPointIn := RegionsContain borders point0 in
      st' ← for_loop (pointsCount - 1) 1
              (scan_vertex borders maskMaker f featureId roadMask)
              (MkScanState prevPointIn st.1 st.2);
      Ok (scan_transitions st', scan_connectors st').

(** The transition the specification asks for at vertex [i]: none unless
    the containment of [p[i]] differs from that of [p[i-1]]; then one, with
    the segment index of [i - 1] (as [segmentIdx] writes it in 32 bits),
    the masks of the feature, the containment of [p[i]] as the enter side,
    and the two points. *)
Definition transition_at (segmentIdx : nat → N) (borders : list RegionD)
    (maskMaker : VehicleMaskBuilder) (f : FeatureType) (featureId : N) (i : nat)
  : list Transition :=
  match BestGeometry f !! (i - 1), BestGeometry f !! i with
  | Some back, Some front =>
      if bool_decide (RegionsContain borders front = RegionsContain borders back)
      then []
      else [MkTransition featureId (segmentIdx (i - 1))
                         (CalcRoadMask maskMaker f) (CalcOneWayMask maskMaker f)
                         (RegionsContain borders front) back front]
  | _, _ => []
  end.

(** The transitions of a whole feature: none when its road mask is zero,
    else those of the vertices [1 ≤ i < pointsCount], in order. *)
Definition transitions_of (segmentIdx : nat → N) (borders : list RegionD)
    (maskMaker : VehicleMaskBuilder) (f : FeatureType) (featureId : N)
  : list Transition :=
  if bool_decide (CalcRoadMask maskMaker f = 0%N) then []
  else flat_map (transition_at segmentIdx borders maskMaker f featureId)
                (seq 1 (GetPointsCount f - 1)).

Definition expected_transitions := transitions_of N.of_nat.

(** The connectors once every transition of a list has been added. *)
Definition AddTransitions (transitions : list Transition)
    (connectors : CrossMwmConnectorPerVehicleType) : CrossMwmConnectorPerVehicleType :=
  fold_left (λ connectors transition, AddTransitionToAll transition connectors)
            transitions connectors.

(** Whether vertex [i] of a feature lies within the borders. *)
Definition vertex_inside (borders : list RegionD) (f : FeatureType) (i : nat) : bool :=
  match BestGeometry f !! i with
  | Some point => RegionsContain borders point
  | None => false
  end.

Definition CalcCrossMwmTransitions (path mwmFile country : string)
    (transitions : list Transition) (connectors : CrossMwmConnectorPerVehicleType)
  : M (list Transition * CrossMwmConnectorPerVehicleType) :=
  let polyFile := JoinPath path BORDERS_DIR (country +:+ BORDERS_EXTENSION) in
  io (IoLoadBorders polyFile);;
  borders ← lift (LoadBorders polyFile);
  maskMaker ← lift (VehicleMaskBuilder_new country);
  ForEachFromDat mwmFile (CalcCrossMwmTransitions_feature borders maskMaker)
                 (transitions, connectors).

(** *** Leap weights *)

(** [DijkstraWrapper wrapper(graph)] and its methods; each edge list is
    cleared and then filled by the graph. *)
Definition DijkstraWrapper_new (graph : IndexGraph)
  : DijkstraWrapper Segment SegmentEdge := {|
  GetOutgoingEdgesList vertex := [] ++ GetEdgeList graph vertex true;
  GetIngoingEdgesList vertex := [] ++ GetEdgeList graph vertex false;
  HeuristicCostEstimate _ _ := 0%float;
|}.

(** The wave [FillWeights] sends from an enter: it never stops early,
    takes every edge at its own weight and keeps no parents. *)
Definition wave (graph : IndexGraph) (enter : Segment)
    (distanceMap : gmap Segment double) : gmap Segment double :=
  PropagateWave (DijkstraWrapper_new graph) enter
    (λ _, false) (λ _ edge, GetWeight edge) (λ _ _, ()) distanceMap.

(** The distances a wave from [enter] leaves in a map that was empty. *)
Definition wave_distances (graph : IndexGraph) (enter : Segment) : gmap Segment double :=
  wave graph enter ∅.

(** The wave as the specification has it: "Run a Dijkstra wave from [e]
    over outgoing edges until exhaustion, recording finalised distances in
    [distance_map]"; "the heuristic is zero", the termination predicate is
    "a constant-false", the weight of an edge is the edge's own.  The
    outgoing edges of a vertex are those [GetEdgeList] gives for
    [isOutgoing = true], and [distance_map] is the map the wave is handed
    and hands back. *)
Definition expected_wave (graph : IndexGraph) (e : Segment)
    (distance_map : gmap Segment double) : gmap Segment double :=
  PropagateWave
    {| GetOutgoingEdgesList vertex := GetEdgeList graph vertex true;
       GetIngoingEdgesList vertex := GetEdgeList graph vertex false;
       HeuristicCostEstimate _ _ := 0%float |}
    e (λ _, false) (λ _ edge, GetWeight edge) (λ _ _, ()) distance_map.

(** [distance_map] when the waves from the first [k] enters have run, each
    on the map the one before it left; the first on an empty map. *)
Fixpoint expected_distance_map (graph : IndexGraph) (enters : list Segment) (k : nat)
  : gmap Segment double :=
  match k with
  | O => ∅
  | S k' =>
      match enters !! k' with
      | Some e => expected_wave graph e (expected_distance_map graph enters k')
      | None => expected_distance_map graph enters k'
      end
  end.

(** [weights[enter][exit] = weight]. *)
Definition SetWeight (enter exit : Segment) (weight : double)
    (weights : gmap Segment (gmap Segment double)) : gmap Segment (gmap Segment double) :=
  <[enter := <[exit := weight]> (default ∅ (weights !! enter))]> weights.

(** What the loop over the enters updates: the two maps declared before
    it, and the lines it logs. *)
Record WaveState : Type := MkWaveState {
  ws_weights : gmap Segment (gmap Segment double);
  ws_distanceMap : gmap Segment double;
  ws_log : list LogLine;
}.

(** The loop over [connector.GetExits()] after a wave from [enter]. *)
Definition RecordExits (enter : Segment) (exits : list Segment)
    (distanceMap : gmap Segment double)
    (weights : gmap Segment (gmap Segment double)) : gmap Segment (gmap Segment double) :=
  for_each exits (λ exit weights,
    match distanceMap !! exit with
    | Some weight => SetWeight enter exit weight weights
    | None => weights
    end) weights.

(** The body of the loop [for (size_t i = 0; i < numEnters; ++i)]. *)
Definition wave_from_enter (graph : IndexGraph) (connector : CrossMwmConnector)
    (numEnters : nat) (i : nat) (st : WaveState) : Outcome WaveState :=
  let log :=
    if bool_decide (i mod 10 = 0) && bool_decide (i ≠ 0)
    then ws_log st ++ [(LINFO, [LogText "Building leaps:"; LogNumber (N.of_nat i);
                                LogText "/"; LogNumber (N.of_nat numEnters);
                                LogText "waves passed"])]
    else ws_log st in
  enter ← GetEnter connector i;
  let distanceMap := wave graph enter (ws_distanceMap st) in
  let weights := RecordExits enter (GetExits connector) distanceMap (ws_weights st) in
  Ok (MkWaveState weights distanceMap log).

Definition FillWeights_waves (graph : IndexGraph) (connector : CrossMwmConnector)
  : Outcome WaveState :=
  let numEnters := length (GetEnters connector) in
  for_loop numEnters 0 (wave_from_enter graph connector numEnters)
           (MkWaveState ∅ ∅ []).

(** The closure [FillWeights] gives to [connector.FillWeights]. *)
Definition FillWeights_lookup (weights : gmap Segment (gmap Segment double))
    (enter exit : Segment) : double :=
  match weights !! enter with
  | None => kNoRoute
  | Some row =>
      match row !! exit with
      | None => kNoRoute
      | Some weight => weight
      end
  end.

(** The weight the table holds for a pair, if it holds one. *)
Definition weight_of (weights : gmap Segment (gmap Segment double))
    (enter exit : Segment) : option double :=
  row ← weights !! enter; row !! exit.

(** [vehicleModel->GetMaxSpeed()] needs the model; the graph is then read
    from the files. *)
Definition FillWeights (path mwmFile country : string) (connector : CrossMwmConnector)
  : M CrossMwmConnector :=
  vehicleModel ← lift (match CarModelFactory country with
                       | Some model => Ok model
                       | None => Fail NullDereference
                       end);
  io (IoLoadIndexGraph path mwmFile country);;
  graph ← lift (DeserializedIndexGraph path mwmFile country vehicleModel);
  st ← lift (FillWeights_waves graph connector);
  LOG_lines (ws_log st);;
  mret (Connector_FillWeights (FillWeights_lookup (ws_weights st)) connector).

Definition LoadCodingParams (mwmFile : string) : M CodingParams :=
  io (IoLoadCodingParams mwmFile);;
  lift (DefCodingParams mwmFile).

(** *** The two entry points *)

(** The statements between [try {] and [}] of [BuildRoutingIndex]. *)
Definition BuildRoutingIndex_body (filename country : string) : M bool :=
  processor ← lift (Processor_new country);
  processor ← ProcessAllFeatures filename processor;
  graph ← lift (BuildGraph processor IndexGraph_new);
  io (IoOpenWriter filename ROUTING_FILE_TAG);;
  writer ← lift (OpenWriter filename ROUTING_FILE_TAG);
  let startPos := Pos writer in
  io (IoSerializeIndexGraph graph (GetMasks processor));;
  writer ← lift (SerializeIndexGraph graph (GetMasks processor) writer);
  let sectionSize := uint64_sub (Pos writer) startPos in
  LOG LINFO [LogText "Routing section created:"; LogNumber sectionSize;
             LogText "bytes,"; LogNumber (GetNumRoads graph); LogText "roads,";
             LogNumber (GetNumJoints graph); LogText "joints,";
             LogNumber (GetNumPoints graph); LogText "points"];;
  mret true.

Definition BuildRoutingIndex (filename country : string) : M bool :=
  LOG LINFO [LogText "Building routing index for"; LogText filename];;
  try_catch_RootException
    (BuildRoutingIndex_body filename country)
    (λ what,
       LOG LERROR [LogText "An exception happened while creating";
                   LogText ROUTING_FILE_TAG; LogText "section:"; LogText what];;
       mret false).

(** The body of the loop over the connectors: a log line for one vehicle
    type. *)
Definition LogConnector (connectors : CrossMwmConnectorPerVehicleType)
    (vehicleType : VehicleType) : M unit :=
  let connector := connector_of connectors vehicleType in
  LOG LINFO [LogVehicleType vehicleType; LogText "model: enters:";
             LogNumber (N.of_nat (length (GetEnters connector)));
             LogText ", exits:";
             LogNumber (N.of_nat (length (GetExits connector)))].

Definition BuildCrossMwmSection (path mwmFile country : string) : M unit :=
  LOG LINFO [LogText "Building cross mwm section for"; LogText country];;
  let connectors := connectors_new in
  let transitions := [] in
  '(transitions, connectors) ←
     CalcCrossMwmTransitions path mwmFile country transitions connectors;
  LOG LINFO [LogText "Transitions finished, transitions:";
             LogNumber (N.of_nat (length transitions)); LogText ", elapsed:";
             LogElapsedSeconds; LogText "seconds"];;
  for_each_M all_vehicle_types (LogConnector connectors);;
  car ← FillWeights path mwmFile country (connector_of connectors Car);
  let connectors := connector_set connectors Car car in
  LOG LINFO [LogText "Leaps finished, elapsed:"; LogElapsedSeconds; LogText "seconds"];;
  codingParams ← LoadCodingParams mwmFile;
  io (IoOpenWriter mwmFile CROSS_MWM_FILE_TAG);;
  writer ← lift (OpenWriter mwmFile CROSS_MWM_FILE_TAG);
  let startPos := Pos writer in
  io (IoSerializeCrossMwm transitions connectors);;
  writer ← lift (SerializeCrossMwm transitions connectors codingParams writer);
  let sectionSize := uint64_sub (Pos writer) startPos in
  LOG LINFO [LogText "Cross mwm section generated, size:"; LogNumber sectionSize;
             LogText "bytes"].

End Generator.

From stdpp Require Import sorting.

(** ** More of [routing/road_graph.hpp] *)

(** [JunctionsToPoints(junctions, points)]: [points] is resized to the
    number of the junctions, [filler] being the value [resize] gives to an
    element it adds, and then written index by index. *)
Definition JunctionsToPoints (filler : PointD) (junctions : list Junction)
    (points : list PointD) : Outcome (list PointD) :=
  let points := resize (length junctions) filler points in
  for_loop (length junctions) 0 (λ i points,
    junction ← at_index junctions i;
    if bool_decide (i < length points)
    then Ok (<[i := GetPoint junction]> points)
    else Fail OutOfRange) points.

(** [JunctionsToAltitudes(junctions, altitudes)]; a new altitude is zero. *)
Definition JunctionsToAltitudes (junctions : list Junction)
    (altitudes : list TAltitude) : Outcome (list TAltitude) :=
  let altitudes := resize (length junctions) 0%Z altitudes in
  for_loop (length junctions) 0 (λ i altitudes,
    junction ← at_index junctions i;
    if bool_decide (i < length altitudes)
    then Ok (<[i := GetAltitude junction]> altitudes)
    else Fail OutOfRange) altitudes.

(** [IRoadGraph::ForEachFakeEdge]; each of the two maps from a junction to
    its edges is the list of its entries in the order of the keys. *)
Definition ForEachFakeEdge {Edge State}
    (m_fakeIngoingEdges m_fakeOutgoingEdges : list (Junction * list Edge))
    (fn : Edge → State → State) (s : State) : State :=
  let s := for_each m_fakeIngoingEdges (λ m s, for_each m.2 fn s) s in
  for_each m_fakeOutgoingEdges (λ m s, for_each m.2 fn s) s.

(** ** More of [generator/routing_index_generator.cpp] *)

#[export] Instance VehicleType_eq_dec : EqDecision VehicleType.
Proof. solve_decision. Defined.

(** The sides a list of transitions passes through, from the side before
    the first of them: each transition leads to the other side. *)
Fixpoint alternating (side : bool) (transitions : list Transition) : Prop :=
  match transitions with
  | [] => True
  | t :: rest => t_forwardIsEnter t = negb side ∧ alternating (t_forwardIsEnter t) rest
  end.

(** The side reached after a list of transitions. *)
Definition side_after (side : bool) (transitions : list Transition) : bool :=
  fold_left (λ _ t, t_forwardIsEnter t) transitions side.

(** The number of road points in all joints of the builder. *)
Definition joints_total (posToJoint : gmap N Joint) : nat :=
  sum_list_with (λ it, GetSize it.2) (map_to_list posToJoint).

(** The joints of the builder are non-empty and hold no road point twice. *)
Definition joints_wf (posToJoint : gmap N Joint) : Prop :=
  ∀ key joint, posToJoint !! key = Some joint → joint ≠ [] ∧ NoDup joint.

(** What the joints of the builder hold: every road point with the
    location key of the joint it is in, as often as it is in it. *)
Definition joint_entries (posToJoint : gmap N Joint) : list (N * RoadPoint) :=
  map_to_list posToJoint ≫= λ it, (λ roadPoint, (it.1, roadPoint)) <$> it.2.

Section GeneratorMore.
Context `{!Geometry, !Features, !Masks, !VehicleModels, !Routing, !Platform}.

(** The number of vertices of the road features among the features of a
    tile. *)
Definition road_vertices (maskBuilder : VehicleMaskBuilder)
    (features : list (FeatureType * N)) : nat :=
  sum_list_with (λ it,
    if bool_decide (CalcRoadMask maskBuilder it.1 = 0%N) then 0
    else GetPointsCount it.1) features.

(** The transitions of all features of a tile, in the order of the
    features. *)
Definition transitions_of_features (borders : list RegionD)
    (maskMaker : VehicleMaskBuilder) (features : list (FeatureType * N))
  : list Transition :=
  flat_map (λ it, transitions_of asserted_cast_uint32 borders maskMaker it.1 it.2)
           features.

(** The vertices of a feature, each as the road point of its index under
    the location key of its point. *)
Definition feature_entries (f : FeatureType) (id : N) : list (N * RoadPoint) :=
  imap (λ i point, (PointToInt64 point POINT_COORD_BITS, MkRoadPoint id (N.of_nat i)))
       (BestGeometry f).

(** The vertices of the features of a tile that are roads for some
    vehicle. *)
Definition road_entries (maskBuilder : VehicleMaskBuilder)
    (features : list (FeatureType * N)) : list (N * RoadPoint) :=
  features ≫= λ it,
    if bool_decide (CalcRoadMask maskBuilder it.1 = 0%N) then []
    else feature_entries it.1 it.2.

(** The map [distanceMap] of [FillWeights] holds after the waves from the
    first [k] enters: each wave receives the map the wave before it left. *)
Fixpoint distance_after (graph : IndexGraph) (enters : list Segment) (k : nat)
  : gmap Segment double :=
  match k with
  | O => ∅
  | S k' =>
      match enters !! k' with
      | Some enter => wave graph enter (distance_after graph enters k')
      | None => distance_after graph enters k'
      end
  end.

(** The line [FillWeights] logs before the wave of index [i]. *)
Definition leaps_line (numEnters i : nat) : LogLine :=
  (LINFO, [LogText "Building leaps:"; LogNumber (N.of_nat i); LogText "/";
           LogNumber (N.of_nat numEnters); LogText "waves passed"]).

End GeneratorMore.

(** ** A small concrete tile

    One instance of every interface, small enough to run: rectangles for
    regions, a grid for the location keys, a relaxation over an edge list
    for the wave, and connectors that keep their enters and exits in
    lists.  The statements below are evaluated on it. *)

Module Demo.
#[local] Open Scope float_scope.

Definition almost_equal_abs (a b eps : double) : bool :=
  PrimFloat.ltb (PrimFloat.abs (PrimFloat.sub a b)) eps.

(** An axis-parallel rectangle, borders included. *)
Record Rect : Type := MkRect { x_min : double; y_min : double; x_max : double; y_max : double }.

Definition Rect_contains (r : Rect) (p : PointD) : bool :=
  PrimFloat.leb (x_min r) (x p) && PrimFloat.leb (x p) (x_max r) &&
  PrimFloat.leb (y_min r) (y p) && PrimFloat.leb (y p) (y_max r).

(** The integral part of a float that is not negative. *)
Definition cell (v : double) : N :=
  match Prim2SF v with
  | S754_finite false m e =>
      match e with
      | Z0 => Npos m
      | Zpos k => N.shiftl (Npos m) (Npos k)
      | Zneg k => N.shiftr (Npos m) (Npos k)
      end
  | _ => 0%N
  end.

#[export] Instance geometry : Geometry := {|
  my_AlmostEqualAbs a b eps :=
    almost_equal_abs (x a) (x b) eps && almost_equal_abs (y a) (y b) eps;
  RegionD := Rect;
  Contains := Rect_contains;
  PointToInt64 p coordBits := N.lor (N.shiftl (cell (x p)) coordBits) (cell (y p));
  POINT_COORD_BITS := 30%N;
|}.

Record Feature : Type := MkFeature {
  is_road : bool;
  is_one_way : bool;
  points : list PointD;
}.

#[export] Instance features : Features := {|
  FeatureType := Feature;
  BestGeometry := points;
|}.

#[export] Instance masks : Masks := {|
  kPedestrianMask := 1%N;
  kBicycleMask := 2%N;
  kCarMask := 4%N;
  GetVehicleMask v := match v with Pedestrian => 1%N | Bicycle => 2%N | Car => 4%N end;
|}.

Definition model (maxSpeed : double) : IVehicleModel :=
  MkVehicleModel _ is_road is_one_way maxSpeed.

(** Every country has the three models, except that "Nocarland" has no car
    model. *)
#[export] Instance models : VehicleModels := {|
  PedestrianModelFactory _ := Some (model 5%float);
  BicycleModelFactory _ := Some (model 15%float);
  CarModelFactory country :=
    if bool_decide (country = "Nocarland") then None else Some (model 90%float);
|}.

Record Graph : Type := MkGraph {
  g_joints : list Joint;
  g_edges : list (Segment * Segment * double);
}.

(** One vertex passes its distance on along its outgoing edges. *)
Record Edge : Type := MkEdge { target : Segment; weight : double }.

Definition relax (wrapper : DijkstraWrapper Segment Edge) (adjust : Segment → Edge → double)
    (item : Segment * double) (dist : gmap Segment double) : gmap Segment double :=
  for_each (GetOutgoingEdgesList wrapper item.1) (λ edge dist,
    let c := PrimFloat.add item.2 (adjust item.1 edge) in
    match dist !! target edge with
    | Some old => if PrimFloat.ltb c old then <[target edge := c]> dist else dist
    | None => <[target edge := c]> dist
    end) dist.

Fixpoint relax_rounds (n : nat) (wrapper : DijkstraWrapper Segment Edge)
    (adjust : Segment → Edge → double) (dist : gmap Segment double)
  : gmap Segment double :=
  match n with
  | O => dist
  | S n' => relax_rounds n' wrapper adjust
              (for_each (map_to_list dist) (relax wrapper adjust) dist)
  end.

Record Connector : Type := MkConnector {
  c_enters : list Segment;
  c_exits : list Segment;
  c_weights : list (list double);
}.

Definition add_transition (t : Transition) (mask : VehicleMask) (c : Connector) : Connector :=
  if bool_decide (N.land (t_roadMask t) mask = 0%N) then c
  else
    let segment := MkSegment (t_featureId t) (t_segmentIdx t) true in
    if t_forwardIsEnter t
    then MkConnector (c_enters c ++ [segment]) (c_exits c) (c_weights c)
    else MkConnector (c_enters c) (c_exits c ++ [segment]) (c_weights c).

#[export] Instance routing : Routing := {|
  IndexGraph := Graph;
  IndexGraph_new := MkGraph [] [];
  Import graph joints := Ok (MkGraph joints (g_edges graph));
  GetNumRoads graph := 0%N;
  GetNumJoints graph := N.of_nat (length (g_joints graph));
  GetNumPoints graph := 0%N;
  SegmentEdge := Edge;
  GetWeight := weight;
  GetEdgeList graph vertex isOutgoing :=
    if isOutgoing
    then (λ e, MkEdge e.1.2 e.2) <$> filter (λ e, e.1.1 = vertex) (g_edges graph)
    else (λ e, MkEdge e.1.1 e.2) <$> filter (λ e, e.1.2 = vertex) (g_edges graph);
  PropagateWave wrapper start _ adjust _ _ :=
    relax_rounds 8 wrapper adjust {[start := 0%float]};
  CrossMwmConnector := Connector;
  CrossMwmConnector_new := MkConnector [] [] [];
  AddTransition := add_transition;
  GetEnters := c_enters;
  GetExits := c_exits;
  Connector_FillWeights calcWeight c :=
    MkConnector (c_enters c) (c_exits c)
                ((λ enter, calcWeight enter <$> c_exits c) <$> c_enters c);
  kNoRoute := 0%float;
|}.

Definition pt (px py : double) : PointD := MkPointD px py.

(** The unit square of scenario S4 and the feature that leaves it. *)
Definition unit_square : Rect := MkRect 0 0 1 1.
#[warnings="-inexact-float"] Definition leaving : Feature :=
  MkFeature true false [pt 0.5 0.9; pt 0.5 1.1].

(** The features A and B of scenario S1. *)
Definition feature_A : Feature := MkFeature true false [pt 0 0; pt 1 0].
Definition feature_B : Feature := MkFeature true false [pt 1 0; pt 1 1].

(** A road through the unit square: in at segment 0, out at segment 2. *)
Definition through : Feature :=
  MkFeature true false [pt (-0.5) 0.5; pt 0.25 0.5; pt 0.75 0.5; pt 1.5 0.5].
(** A road that enters the square from below and ends in it. *)
Definition entering : Feature :=
  MkFeature true false [pt 0.5 (-0.5); pt 0.5 0.25].
Definition through_graph : Graph :=
  MkGraph [] [(MkSegment 0 0 true, MkSegment 0 1 true, 2%float);
              (MkSegment 0 1 true, MkSegment 0 2 true, 1.5%float)].

(** The files: three tiles that read well, one whose reader throws a
    [RootException], one where memory runs out. *)
#[export] Instance platform : Platform := {|
  LoadBorders _ := Ok ([unit_square] : list RegionD);
  DatFeatures file :=
    if bool_decide (file = "S4.mwm") then ([(leaving, 0%N)], None)
    else if bool_decide (file = "S1.mwm") then ([(feature_A, 0%N); (feature_B, 1%N)], None)
    else if bool_decide (file = "through.mwm") then ([(through, 0%N)], None)
    else if bool_decide (file = "two_enters.mwm")
         then ([(through, 0%N); (entering, 1%N)], None)
    else if bool_decide (file = "corrupt.mwm")
         then ([(feature_A, 0%N)], Some (RootException "Reader::OpenException"))
    else ([], Some (OtherException "std::bad_alloc"));
  DeserializedIndexGraph _ _ _ _ := Ok through_graph;
  CodingParams := unit;
  DefCodingParams _ := Ok ();
  FileWriter := N;
  OpenWriter _ _ := Ok 100%N;
  Pos writer := writer;
  SerializeIndexGraph graph _ writer := Ok (writer + 8 * N.of_nat (length (g_joints graph)))%N;
  SerializeCrossMwm transitions _ _ writer :=
    Ok (writer + 16 * N.of_nat (length transitions))%N;
|}.

Definition world0 : World := MkWorld _ [] [].

(** The transition scenario S4 expects. *)
#[warnings="-inexact-float"] Definition leaving_transition : Transition :=
  MkTransition 0 0 7%N 0%N false (pt 0.5 0.9) (pt 0.5 1.1).

(** The enter and the exit of the road through the square. *)
Definition through_enter : Segment := MkSegment 0 0 true.
Definition through_exit : Segment := MkSegment 0 2 true.

(** What the scan finds on the road through the square. *)
Definition through_transitions : list Transition :=
  [MkTransition 0 0 7%N 0%N true (pt (-0.5) 0.5) (pt 0.25 0.5);
   MkTransition 0 2 7%N 0%N false (pt 0.75 0.5) (pt 1.5 0.5)].
Definition through_connector : Connector :=
  MkConnector [through_enter] [through_exit] [].

(** The tile with the two roads: the second enter, what the scan finds and
    the connector every vehicle gets. *)
Definition second_enter : Segment := MkSegment 1 0 true.
Definition two_enters_transitions : list Transition :=
  through_transitions
  ++ [MkTransition 1 0 7%N 0%N true (pt 0.5 (-0.5)) (pt 0.5 0.25)].
Definition two_enters_connector : Connector :=
  MkConnector [through_enter; second_enter] [through_exit] [].

(** The borders of the tile: the unit square. *)
Definition borders : list RegionD := [unit_square].

(** The mask builder of a country with the three models. *)
Definition maskMaker : VehicleMaskBuilder :=
  MkVehicleMaskBuilder (model 5) (model 15) (model 90).

(** The builder when it has processed the tile of scenario S1. *)
Definition S1_processor : Processor :=
  match (ProcessAllFeatures "S1.mwm" (MkProcessor maskMaker ∅ ∅) world0).2 with
  | Ok this => this
  | Fail _ => MkProcessor maskMaker ∅ ∅
  end.

End Demo.

(** ** A wave that keeps the map it is given

    [AStarAlgorithm::PropagateWave] ([routing/base/astar_algorithm.hpp]) is
    not among the sources, and [FillWeights] hands every wave the map the
    wave before it has left.  Here is a routing library as the one above,
    but for its wave, which starts from the distances the map holds and
    relaxes from there; and a tile with two enters, of which only the
    first leads to the exit. *)

Module SharedMap.
Import Demo.
#[local] Open Scope float_scope.

Definition routing : Routing := {|
  IndexGraph := Graph;
  IndexGraph_new := MkGraph [] [];
  Import graph joints := Ok (MkGraph joints (g_edges graph));
  GetNumRoads graph := 0%N;
  GetNumJoints graph := N.of_nat (length (g_joints graph));
  GetNumPoints graph := 0%N;
  SegmentEdge := Edge;
  GetWeight := weight;
  GetEdgeList graph vertex isOutgoing :=
    if isOutgoing
    then (λ e, MkEdge e.1.2 e.2) <$> filter (λ e, e.1.1 = vertex) (g_edges graph)
    else (λ e, MkEdge e.1.1 e.2) <$> filter (λ e, e.1.2 = vertex) (g_edges graph);
  PropagateWave wrapper start _ adjust _ distanceMap :=
    relax_rounds 8 wrapper adjust (<[start := 0]> distanceMap);
  CrossMwmConnector := Connector;
  CrossMwmConnector_new := MkConnector [] [] [];
  AddTransition := add_transition;
  GetEnters := c_enters;
  GetExits := c_exits;
  Connector_FillWeights calcWeight c :=
    MkConnector (c_enters c) (c_exits c)
                ((λ enter, calcWeight enter <$> c_exits c) <$> c_enters c);
  kNoRoute := 0;
|}.

(** Two enters and one exit; the only edge leads from the first enter to
    the exit. *)
Definition first_enter : Segment := MkSegment 0 0 true.
Definition second_enter : Segment := MkSegment 1 0 true.
Definition only_exit : Segment := MkSegment 0 1 true.
Definition graph : Graph := MkGraph [] [(first_enter, only_exit, 2)].
Definition connector : Connector := MkConnector [first_enter; second_enter] [only_exit] [].

End SharedMap.

(** * Properties *)

(** ** The monads and the loops *)

Lemma Outcome_bind_Ok {A B} (m : Outcome A) (k : A → Outcome B) (b : B) :
  m ≫= k = Ok b ↔ ∃ a, m = Ok a ∧ k a = Ok b.
Proof.
  destruct m as [a|f]; simpl; split.
  - intros Hk. by exists a.
  - by intros (a' & [= <-] & Hk).
  - intros [=].
  - by intros (a' & [=] & _).
Qed.

Lemma Outcome_bind_ret_l {A B} (a : A) (k : A → Outcome B) : Ok a ≫= k = k a.
Proof. reflexivity. Qed.

Lemma at_index_Ok {A} (v : list A) (i : nat) (a : A) :
  at_index v i = Ok a ↔ v !! i = Some a.
Proof. unfold at_index. destruct (v !! i); naive_solver. Qed.

Lemma at_index_lt {A} (v : list A) (i : nat) :
  i < length v → ∃ a, v !! i = Some a ∧ at_index v i = Ok a.
Proof.
  intros Hi. destruct (lookup_lt_is_Some_2 v i Hi) as [a Ha].
  exists a. split; [done|]. by apply at_index_Ok.
Qed.

(** A loop whose body never fails on the states an invariant describes
    runs to its end and keeps the invariant. *)
Lemma for_loop_total {State} (Inv : nat → State → Prop)
    (body : nat → State → Outcome State) (n i : nat) (s : State) :
  Inv i s →
  (∀ k t, i ≤ k < i + n → Inv k t → ∃ t', body k t = Ok t' ∧ Inv (S k) t') →
  ∃ s', for_loop n i body s = Ok s' ∧ Inv (i + n) s'.
Proof.
  revert i s. induction n as [|n IH]; intros i s Hs Hbody; simpl.
  - exists s. by rewrite Nat.add_0_r.
  - destruct (Hbody i s) as (t & -> & Ht); [lia|done|]. simpl.
    destruct (IH (S i) t Ht) as (s' & -> & Hs').
    + intros k u Hk. apply Hbody. lia.
    + exists s'. split; [done|]. by replace (i + S n) with (S i + n) by lia.
Qed.

(** A loop that ends well has kept every invariant its body keeps. *)
Lemma for_loop_invariant {State} (Inv : nat → State → Prop)
    (body : nat → State → Outcome State) (n i : nat) (s s' : State) :
  Inv i s →
  (∀ k t t', i ≤ k < i + n → Inv k t → body k t = Ok t' → Inv (S k) t') →
  for_loop n i body s = Ok s' → Inv (i + n) s'.
Proof.
  revert i s. induction n as [|n IH]; intros i s Hs Hbody; simpl.
  - intros [= <-]. by rewrite Nat.add_0_r.
  - intros (t & Ht & Hrest)%Outcome_bind_Ok.
    replace (i + S n) with (S i + n) by lia.
    apply (IH (S i) t); [|intros k u u' Hk; apply Hbody; lia|done].
    apply (Hbody i s t); [lia|done|done].
Qed.

Lemma for_each_feature_invariant `{!Features} {State} (Inv : State → Prop)
    (toDo : FeatureType → N → State → Outcome State)
    (features : list (FeatureType * N)) (s s' : State) :
  Inv s →
  (∀ f id t t', (f, id) ∈ features → Inv t → toDo f id t = Ok t' → Inv t') →
  for_each_feature features toDo s = Ok s' → Inv s'.
Proof.
  revert s. induction features as [|[f id] rest IH]; intros s Hs Hstep; simpl.
  - by intros [= <-].
  - intros (t & Ht & Hrest)%Outcome_bind_Ok.
    apply (IH t); [|intros g gid u u' Hin; apply Hstep; by right|done].
    apply (Hstep f id s t); [by left|done|done].
Qed.

(** ** Junctions *)

Section RoadGraphFacts.
Context `{!Geometry}.

(** C4.  Two junctions are equal exactly when their points are equal under
    the absolute epsilon [kPointsEqualEpsilon] (1e-6), the comparison
    [AlmostEqualAbs] makes: [operator==] of junctions is [operator==] of
    their points.  Replacing the altitude of either junction leaves the
    result of the comparison as it was. *)
#[warnings="-inexact-float"] Theorem Junction_eq_by_point_epsilon (l r : Junction) :
  kPointsEqualEpsilon = 1e-6%float ∧
  Junction_eq l r = PointD_eq (GetPoint l) (GetPoint r) ∧
  (Junction_eq l r = true ↔
     my_AlmostEqualAbs (GetPoint l) (GetPoint r) kPointsEqualEpsilon = true) ∧
  Junction_eq l r = AlmostEqualAbs l r ∧
  Junction_ne l r = negb (Junction_eq l r) ∧
  ∀ altitudeL altitudeR : TAltitude,
    Junction_eq (MkJunction (GetPoint l) altitudeL) (MkJunction (GetPoint r) altitudeR)
    = Junction_eq l r.
Proof.
  repeat split; try done.
Qed.

(** ** The edge loader's helper *)

Lemma ForEachEdge_vertex {State} (m_cross : Junction) (junctions : list Junction)
    (fn : nat → Junction → bool → State → State) (i : nat) (s : State) :
  i < length junctions →
  (ji ← at_index junctions i;
   if negb (my_AlmostEqualAbs (GetPoint m_cross) (GetPoint ji) kPointsEqualEpsilon)
   then Ok s
   else
     s ← (if bool_decide (i + 1 < length junctions)
          then jn ← at_index junctions (i + 1); Ok (fn i jn true s)
          else Ok s);
     if bool_decide (0 < i)
     then jp ← at_index junctions (i - 1); Ok (fn (i - 1) jp false s)
     else Ok s)
  = Ok (fold_left (apply_call fn) (calls_at_vertex m_cross junctions i) s).
Proof.
  intros Hi. unfold calls_at_vertex.
  destruct (at_index_lt junctions i Hi) as (ji & -> & ->).
  rewrite Outcome_bind_ret_l. cbv beta.
  destruct (my_AlmostEqualAbs _ _ _); cbn [negb]; [|done].
  assert (∀ t : State,
    (if bool_decide (0 < i)
     then jp ← at_index junctions (i - 1); Ok (fn (i - 1) jp false t)
     else Ok t)
    = Ok (fold_left (apply_call fn)
            match bool_decide (0 < i), junctions !! (i - 1) with
            | true, Some jp => [MkEdgeCall (i - 1) jp false]
            | _, _ => []
            end t)) as Htail.
  { intros t. case_bool_decide as Hpos; [|done].
    by destruct (at_index_lt junctions (i - 1) ltac:(lia)) as (jp & -> & ->). }
  rewrite fold_left_app.
  destruct (decide (i + 1 < length junctions)) as [Hnext|Hnext].
  - rewrite (bool_decide_eq_true_2 _ Hnext).
    destruct (at_index_lt junctions (i + 1) Hnext) as (jn & -> & ->).
    rewrite !Outcome_bind_ret_l. cbv beta. rewrite Htail. reflexivity.
  - rewrite (bool_decide_eq_false_2 _ Hnext).
    rewrite (lookup_ge_None_2 junctions (i + 1)) by lia.
    rewrite !Outcome_bind_ret_l. cbv beta. rewrite Htail. reflexivity.
Qed.

Lemma elem_of_calls_at_vertex (m_cross : Junction) (junctions : list Junction)
    (i : nat) (c : EdgeCall) :
  c ∈ calls_at_vertex m_cross junctions i ↔
  ∃ ji, junctions !! i = Some ji ∧
        my_AlmostEqualAbs (GetPoint m_cross) (GetPoint ji) kPointsEqualEpsilon = true ∧
        ((call_forward c = true ∧ call_segId c = i ∧
          junctions !! (i + 1) = Some (call_junction c)) ∨
         (call_forward c = false ∧ 0 < i ∧ call_segId c = i - 1 ∧
          junctions !! (i - 1) = Some (call_junction c))).
Proof.
  unfold calls_at_vertex. split.
  - destruct (junctions !! i) as [ji|]; [|by intros ?%elem_of_nil].
    destruct (my_AlmostEqualAbs _ _ _) eqn:Heq; [|by intros ?%elem_of_nil].
    intros [Hc|Hc]%elem_of_app; exists ji; (split; [done|split; [done|]]).
    + left. destruct (junctions !! (i + 1)); [|by apply elem_of_nil in Hc].
      apply list_elem_of_singleton in Hc as ->. done.
    + right. case_bool_decide as Hpos; [|by apply elem_of_nil in Hc].
      destruct (junctions !! (i - 1)) eqn:Hp; [|by apply elem_of_nil in Hc].
      apply list_elem_of_singleton in Hc as ->. done.
  - intros (ji & -> & -> & [(Hf & Hs & Hj)|(Hf & Hpos & Hs & Hj)]);
      destruct c as [segId jc fwd]; simpl in *; subst; apply elem_of_app.
    + left. rewrite Hj. by apply list_elem_of_singleton.
    + right. rewrite bool_decide_eq_true_2 by done. rewrite Hj.
      by apply list_elem_of_singleton.
Qed.

(** C5.  On every polyline and cross, [ForEachEdge] makes the calls of
    [expected_calls], in that order, and nothing else: for each vertex [i]
    that is epsilon-equal to the cross, the call [(i, successor, true)]
    exactly when [i + 1] is an index and the call [(i - 1, predecessor,
    false)] exactly when [i > 0]; a vertex that is not epsilon-equal to the
    cross brings no call.  No index leaves the polyline. *)
Theorem ForEachEdge_calls (m_cross : Junction) (roadInfo : RoadInfo)
    {State} (fn : nat → Junction → bool → State → State) (s : State) :
  ForEachEdge m_cross roadInfo fn s
    = Ok (fold_left (apply_call fn) (expected_calls m_cross roadInfo) s) ∧
  ∀ c : EdgeCall,
    c ∈ expected_calls m_cross roadInfo ↔
    ∃ i ji, m_junctions roadInfo !! i = Some ji ∧
      my_AlmostEqualAbs (GetPoint m_cross) (GetPoint ji) kPointsEqualEpsilon = true ∧
      ((call_forward c = true ∧ call_segId c = i ∧
        m_junctions roadInfo !! (i + 1) = Some (call_junction c)) ∨
       (call_forward c = false ∧ 0 < i ∧ call_segId c = i - 1 ∧
        m_junctions roadInfo !! (i - 1) = Some (call_junction c))).
Proof.
  split.
  - unfold ForEachEdge, expected_calls.
    set (junctions := m_junctions roadInfo).
    assert (∀ n i t, i + n ≤ length junctions →
      for_loop n i (λ i s,
        ji ← at_index junctions i;
        if negb (my_AlmostEqualAbs (GetPoint m_cross) (GetPoint ji) kPointsEqualEpsilon)
        then Ok s
        else
          s ← (if bool_decide (i + 1 < length junctions)
               then jn ← at_index junctions (i + 1); Ok (fn i jn true s)
               else Ok s);
          if bool_decide (0 < i)
          then jp ← at_index junctions (i - 1); Ok (fn (i - 1) jp false s)
          else Ok s) t
      = Ok (fold_left (apply_call fn)
              (flat_map (calls_at_vertex m_cross junctions) (seq i n)) t)) as Hloop.
    { induction n as [|n IH]; intros i t Hle; simpl; [done|].
      rewrite ForEachEdge_vertex by lia. simpl.
      rewrite IH by lia. by rewrite fold_left_app. }
    by apply Hloop.
  - intros c. unfold expected_calls. rewrite list_elem_of_In, in_flat_map. split.
    + intros (i & _ & Hc). exists i.
      by apply list_elem_of_In, elem_of_calls_at_vertex in Hc.
    + intros (i & ji & Hi & Hrest). exists i. split.
      * apply in_seq. apply lookup_lt_Some in Hi. lia.
      * apply list_elem_of_In, elem_of_calls_at_vertex. by exists ji.
Qed.

End RoadGraphFacts.

(** Scenario S2: at the middle vertex of P = [(0,0), (1,0), (2,0)] the
    helper calls back twice, forward on segment 1 and backward on
    segment 0. *)
Example ForEachEdge_S2 :
  let j (px : double) := MkJunction (MkPointD px 0%float) 0%Z in
  ForEachEdge (H := Demo.geometry) (j 1%float)
    (MkRoadInfo [j 0%float; j 1%float; j 2%float] 50%float true)
    (λ segId junction forward calls, calls ++ [MkEdgeCall segId junction forward]) []
  = Ok [MkEdgeCall 1 (j 2%float) true; MkEdgeCall 0 (j 0%float) false].
Proof. vm_compute. reflexivity. Qed.

(** ** The generator's monad *)

Section MonadFacts.
Context `{!Routing}.

Lemma M_bind_Ok {A B} (m : M A) (k : A → M B) (w w' : World) (b : B) :
  (m ≫= k) w = (w', Ok b) ↔ ∃ a w1, m w = (w1, Ok a) ∧ k a w1 = (w', Ok b).
Proof.
  unfold mbind, M_bind. destruct (m w) as [w1 [a|f]]; split.
  - intros Hk. by exists a, w1.
  - by intros (a' & w2 & [= <- <-] & Hk).
  - intros [=].
  - by intros (a' & w2 & [=] & _).
Qed.

Lemma M_bind_run {A B} (m : M A) (k : A → M B) (w w1 : World) (a : A) :
  m w = (w1, Ok a) → (m ≫= k) w = k a w1.
Proof. unfold mbind, M_bind. by intros ->. Qed.

Lemma lift_Ok {A} (o : Outcome A) (w w' : World) (a : A) :
  lift o w = (w', Ok a) ↔ o = Ok a ∧ w' = w.
Proof. unfold lift. naive_solver. Qed.

End MonadFacts.

(** ** The border-crossing scan *)

Section TransitionFacts.
Context `{!Geometry, !Features, !Masks, !VehicleModels, !Routing, !Platform}.

Lemma ForEachFromDat_Ok {State} (file : string)
    (toDo : FeatureType → N → State → Outcome State) (s s' : State) (w w' : World) :
  ForEachFromDat file toDo s w = (w', Ok s') →
  for_each_feature (DatFeatures file).1 toDo s = Ok s' ∧ (DatFeatures file).2 = None.
Proof.
  unfold ForEachFromDat.
  intros ([] & w1 & _ & (t & w2 & [Ht _]%lift_Ok & Hend)%M_bind_Ok)%M_bind_Ok.
  destruct (DatFeatures file).2 as [e|]; [done|].
  by injection Hend as _ ->.
Qed.

Lemma elem_of_transition_at (segmentIdx : nat → N) (borders : list RegionD)
    (maskMaker : VehicleMaskBuilder) (f : FeatureType) (featureId : N)
    (i : nat) (t : Transition) :
  t ∈ transition_at segmentIdx borders maskMaker f featureId i ↔
  ∃ back front,
    BestGeometry f !! (i - 1) = Some back ∧ BestGeometry f !! i = Some front ∧
    RegionsContain borders front ≠ RegionsContain borders back ∧
    t = MkTransition featureId (segmentIdx (i - 1))
                     (CalcRoadMask maskMaker f) (CalcOneWayMask maskMaker f)
                     (RegionsContain borders front) back front.
Proof.
  unfold transition_at.
  destruct (BestGeometry f !! (i - 1)) as [back|];
    [|split; [by intros ?%elem_of_nil|naive_solver]].
  destruct (BestGeometry f !! i) as [front|];
    [|split; [by intros ?%elem_of_nil|naive_solver]].
  case_bool_decide as Hsame.
  - split; [by intros ?%elem_of_nil|]. by intros (? & ? & [= <-] & [= <-] & ? & _).
  - rewrite list_elem_of_singleton. naive_solver.
Qed.

Lemma elem_of_transitions_of (segmentIdx : nat → N) (borders : list RegionD)
    (maskMaker : VehicleMaskBuilder) (f : FeatureType) (featureId : N) (t : Transition) :
  t ∈ transitions_of segmentIdx borders maskMaker f featureId ↔
  CalcRoadMask maskMaker f ≠ 0%N ∧
  ∃ i back front,
    1 ≤ i < GetPointsCount f ∧
    BestGeometry f !! (i - 1) = Some back ∧ BestGeometry f !! i = Some front ∧
    RegionsContain borders front ≠ RegionsContain borders back ∧
    t = MkTransition featureId (segmentIdx (i - 1))
                     (CalcRoadMask maskMaker f) (CalcOneWayMask maskMaker f)
                     (RegionsContain borders front) back front.
Proof.
  unfold transitions_of. case_bool_decide as Hmask.
  - split; [by intros ?%elem_of_nil|]. by intros [? _].
  - rewrite list_elem_of_In, in_flat_map. split.
    + intros (i & Hi%in_seq & Ht). split; [done|].
      apply list_elem_of_In, elem_of_transition_at in Ht as (back & front & ? & ? & ? & ?).
      exists i, back, front. repeat split; try done; lia.
    + intros (_ & i & back & front & Hi & Hback & Hfront & Hne & ->). exists i. split.
      * apply in_seq. lia.
      * apply list_elem_of_In, elem_of_transition_at. by exists back, front.
Qed.

(** With at most [2 ^ 32] points, no segment index is cut by the cast. *)
Lemma transitions_of_asserted_cast (borders : list RegionD) (maskMaker : VehicleMaskBuilder)
    (f : FeatureType) (featureId : N) :
  (N.of_nat (GetPointsCount f) ≤ 2 ^ 32)%N →
  transitions_of asserted_cast_uint32 borders maskMaker f featureId
  = expected_transitions borders maskMaker f featureId.
Proof.
  intros Hcount. unfold expected_transitions, transitions_of.
  case_bool_decide; [done|].
  rewrite !flat_map_concat_map. f_equal.
  apply map_ext_in. intros i Hi%in_seq. unfold transition_at.
  destruct (BestGeometry f !! (i - 1)) as [back|]; [|done].
  destruct (BestGeometry f !! i) as [front|]; [|done].
  case_bool_decide; [done|]. do 2 f_equal.
  unfold asserted_cast_uint32. apply N.mod_small. lia.
Qed.

Lemma vertex_inside_Some (borders : list RegionD) (f : FeatureType) (i : nat) (p : PointD) :
  BestGeometry f !! i = Some p → vertex_inside borders f i = RegionsContain borders p.
Proof. unfold vertex_inside. by intros ->. Qed.

(** One round of the loop over the vertices. *)
Lemma scan_vertex_step (borders : list RegionD) (maskMaker : VehicleMaskBuilder)
    (f : FeatureType) (featureId : N) (i : nat) (st : ScanState) :
  1 ≤ i < GetPointsCount f →
  prevPointIn st = vertex_inside borders f (i - 1) →
  scan_vertex borders maskMaker f featureId (CalcRoadMask maskMaker f) i st
  = Ok (MkScanState (vertex_inside borders f i)
          (scan_transitions st
             ++ transition_at asserted_cast_uint32 borders maskMaker f featureId i)
          (AddTransitions
             (transition_at asserted_cast_uint32 borders maskMaker f featureId i)
             (scan_connectors st))).
Proof.
  intros Hi Hprev. unfold scan_vertex, GetPointAt, GetPointsCount in *.
  destruct (at_index_lt (BestGeometry f) i ltac:(lia)) as (front & Hfront & ->).
  destruct (at_index_lt (BestGeometry f) (i - 1) ltac:(lia)) as (back & Hback & ->).
  rewrite Outcome_bind_ret_l. cbv beta.
  unfold transition_at. rewrite Hback, Hfront.
  rewrite (vertex_inside_Some _ _ _ _ Hfront).
  rewrite (vertex_inside_Some _ _ _ _ Hback) in Hprev. rewrite Hprev.
  case_bool_decide as Hsame.
  - rewrite app_nil_r. unfold AddTransitions. simpl.
    destruct st as [prev ts cs]. simpl in *. by rewrite Hprev, Hsame.
  - by rewrite Outcome_bind_ret_l.
Qed.

Lemma scan_loop (borders : list RegionD) (maskMaker : VehicleMaskBuilder)
    (f : FeatureType) (featureId : N) (n i : nat) (st : ScanState) :
  1 ≤ i → i + n ≤ GetPointsCount f →
  prevPointIn st = vertex_inside borders f (i - 1) →
  for_loop n i (scan_vertex borders maskMaker f featureId (CalcRoadMask maskMaker f)) st
  = Ok (MkScanState (vertex_inside borders f (i + n - 1))
          (scan_transitions st
             ++ flat_map (transition_at asserted_cast_uint32 borders maskMaker f featureId)
                         (seq i n))
          (AddTransitions
             (flat_map (transition_at asserted_cast_uint32 borders maskMaker f featureId)
                       (seq i n))
             (scan_connectors st))).
Proof.
  revert i st. induction n as [|n IH]; intros i st Hi Hle Hprev.
  - simpl. rewrite app_nil_r, Nat.add_0_r, <- Hprev. by destruct st.
  - cbn [for_loop]. rewrite scan_vertex_step by (done || lia).
    rewrite Outcome_bind_ret_l, IH; [|lia|lia|simpl; f_equal; lia].
    cbn [seq flat_map scan_transitions scan_connectors].
    unfold AddTransitions. rewrite fold_left_app, <- app_assoc.
    do 3 f_equal. lia.
Qed.

(** What the lambda does to the transitions and the connectors it
    captures, for any feature. *)
Lemma CalcCrossMwmTransitions_feature_scan (borders : list RegionD)
    (maskMaker : VehicleMaskBuilder) (f : FeatureType) (featureId : N)
    (transitions : list Transition) (connectors : CrossMwmConnectorPerVehicleType) :
  CalcCrossMwmTransitions_feature borders maskMaker f featureId (transitions, connectors)
  = Ok (transitions ++ transitions_of asserted_cast_uint32 borders maskMaker f featureId,
        AddTransitions (transitions_of asserted_cast_uint32 borders maskMaker f featureId)
                       connectors).
Proof.
  unfold CalcCrossMwmTransitions_feature, transitions_of.
  case_bool_decide as Hmask; [by rewrite app_nil_r|].
  case_bool_decide as Hcount.
  { rewrite Hcount. simpl. by rewrite app_nil_r. }
  unfold GetPointAt.
  destruct (at_index_lt (BestGeometry f) 0) as (p0 & Hp0 & ->);
    [unfold GetPointsCount in Hcount; lia|].
  rewrite Outcome_bind_ret_l. cbv beta.
  rewrite scan_loop; [done|lia|lia|].
  simpl. by rewrite (vertex_inside_Some _ _ _ _ Hp0).
Qed.

(** C1.  For a feature of at most [2 ^ 32] points, the lambda of the scan
    appends exactly [expected_transitions] to the transitions (and adds
    them to the connectors): when the road mask is not zero, one transition
    for every vertex index [i] with [1 ≤ i < pointsCount] at which the
    containment of [p[i]] differs from that of [p[i-1]], and none for any
    other index; the transition carries segment index [i - 1], the
    containment of [p[i]] as its enter side and the points [p[i-1]] and
    [p[i]].  With a zero road mask or with no points nothing is appended,
    and the lambda returns normally in every case. *)
Theorem CalcCrossMwmTransitions_feature_emits (borders : list RegionD)
    (maskMaker : VehicleMaskBuilder) (f : FeatureType) (featureId : N)
    (transitions : list Transition) (connectors : CrossMwmConnectorPerVehicleType) :
  (N.of_nat (GetPointsCount f) ≤ 2 ^ 32)%N →
  CalcCrossMwmTransitions_feature borders maskMaker f featureId (transitions, connectors)
  = Ok (transitions ++ expected_transitions borders maskMaker f featureId,
        AddTransitions (expected_transitions borders maskMaker f featureId) connectors) ∧
  (∀ t : Transition,
     t ∈ expected_transitions borders maskMaker f featureId ↔
     CalcRoadMask maskMaker f ≠ 0%N ∧
     ∃ i back front,
       1 ≤ i < GetPointsCount f ∧
       BestGeometry f !! (i - 1) = Some back ∧ BestGeometry f !! i = Some front ∧
       RegionsContain borders front ≠ RegionsContain borders back ∧
       t = MkTransition featureId (N.of_nat (i - 1))
                        (CalcRoadMask maskMaker f) (CalcOneWayMask maskMaker f)
                        (RegionsContain borders front) back front) ∧
  (CalcRoadMask maskMaker f = 0%N ∨ GetPointsCount f = 0 →
   CalcCrossMwmTransitions_feature borders maskMaker f featureId (transitions, connectors)
   = Ok (transitions, connectors)).
Proof.
  intros Hcount. rewrite CalcCrossMwmTransitions_feature_scan.
  rewrite transitions_of_asserted_cast by done.
  split; [done|]. split; [apply elem_of_transitions_of|].
  intros Hnone.
  assert (expected_transitions borders maskMaker f featureId = []) as ->.
  { unfold expected_transitions, transitions_of.
    destruct Hnone as [->| ->]; [done|]. by case_bool_decide. }
  by rewrite app_nil_r.
Qed.

(** C10.  The transitions the scan emits for one feature all carry the road
    mask and the one-way mask computed for the feature as a whole (and its
    id), whichever segment crosses the border. *)
Theorem transitions_carry_feature_masks (borders : list RegionD)
    (maskMaker : VehicleMaskBuilder) (f : FeatureType) (featureId : N)
    (transitions : list Transition) (connectors : CrossMwmConnectorPerVehicleType) :
  ∃ emitted connectors',
    CalcCrossMwmTransitions_feature borders maskMaker f featureId (transitions, connectors)
    = Ok (transitions ++ emitted, connectors') ∧
    ∀ t : Transition, t ∈ emitted →
      t_roadMask t = CalcRoadMask maskMaker f ∧
      t_oneWayMask t = CalcOneWayMask maskMaker f ∧
      t_featureId t = featureId.
Proof.
  eexists _, _. split; [apply CalcCrossMwmTransitions_feature_scan|].
  by intros t (_ & i & back & front & _ & _ & _ & _ & ->)%elem_of_transitions_of.
Qed.

(** C7.  When the scan of a tile ends well, the two points of every
    transition it has collected lie on different sides of the borders: the
    containment predicate is true on one of them and false on the other. *)
Theorem transitions_cross_the_borders (path mwmFile country : string)
    (borders : list RegionD) (w w' : World)
    (transitions : list Transition) (connectors : CrossMwmConnectorPerVehicleType) :
  LoadBorders (JoinPath path BORDERS_DIR (country +:+ BORDERS_EXTENSION)) = Ok borders →
  CalcCrossMwmTransitions path mwmFile country [] connectors_new w
    = (w', Ok (transitions, connectors)) →
  ∀ t : Transition, t ∈ transitions →
    RegionsContain borders (t_backPoint t) ≠ RegionsContain borders (t_frontPoint t) ∧
    (RegionsContain borders (t_backPoint t) = true
     ∨ RegionsContain borders (t_frontPoint t) = true).
Proof.
  intros Hborders. unfold CalcCrossMwmTransitions. rewrite Hborders.
  intros ([] & w1 & _ & (borders' & w2 & [[= <-] _]%lift_Ok
            & (maskMaker & w3 & _ & Hscan)%M_bind_Ok)%M_bind_Ok)%M_bind_Ok.
  apply ForEachFromDat_Ok in Hscan as [Hscan _].
  revert Hscan.
  apply (for_each_feature_invariant
    (λ st, ∀ t, t ∈ st.1 →
       RegionsContain borders (t_backPoint t) ≠ RegionsContain borders (t_frontPoint t) ∧
       (RegionsContain borders (t_backPoint t) = true
        ∨ RegionsContain borders (t_frontPoint t) = true))).
  - by intros t ?%elem_of_nil.
  - intros f id [ts cs] [ts' cs'] _ Hts.
    rewrite CalcCrossMwmTransitions_feature_scan. intros [= <- _] t.
    simpl. intros [Hold|Hnew]%elem_of_app; [by apply Hts|].
    apply elem_of_transitions_of in Hnew as (_ & i & back & front & _ & _ & _ & Hne & ->).
    simpl. split; [done|].
    destruct (RegionsContain borders back), (RegionsContain borders front); auto.
Qed.

End TransitionFacts.

(** ** The index graph builder *)

Section BuilderFacts.
Context `{!Geometry, !Features, !Masks, !VehicleModels, !Routing, !Platform}.

Lemma BuildGraph_joints_filter (this : Processor) :
  BuildGraph_joints this
  = filter (λ joint, 2 ≤ GetSize joint) (map_to_list (m_posToJoint this)).*2.
Proof.
  unfold BuildGraph_joints.
  enough (∀ (l : list (N * Joint)) acc,
    for_each l (λ it joints,
      if bool_decide (2 ≤ GetSize it.2) then joints ++ [it.2] else joints) acc
    = acc ++ filter (λ joint, 2 ≤ GetSize joint) l.*2) as Hloop by apply Hloop.
  induction l as [|[key joint] l IH]; intros acc; simpl.
  - by rewrite app_nil_r.
  - rewrite IH, filter_cons. simpl. case_bool_decide.
    + rewrite decide_True by done. by rewrite <- app_assoc.
    + by rewrite decide_False by done.
Qed.

(** C3.  [BuildGraph] hands to [IndexGraph::Import] exactly the joints of
    the builder that have at least two members: every joint of size 2 or
    more that the processing has accumulated under some location key is in
    the imported table, once per key, and no joint of size below 2 is. *)
Theorem BuildGraph_imports_connected_joints (this : Processor) (graph : IndexGraph) :
  BuildGraph this graph = Import graph (BuildGraph_joints this) ∧
  (∀ joint : Joint,
     joint ∈ BuildGraph_joints this ↔
     2 ≤ GetSize joint ∧ ∃ locationKey, m_posToJoint this !! locationKey = Some joint) ∧
  BuildGraph_joints this
  = filter (λ joint, 2 ≤ GetSize joint) (map_to_list (m_posToJoint this)).*2.
Proof.
  split; [done|]. split; [|apply BuildGraph_joints_filter].
  intros joint. rewrite BuildGraph_joints_filter, list_elem_of_filter, list_elem_of_fmap.
  split.
  - intros [Hsize ([key joint'] & -> & Hin%elem_of_map_to_list)]. eauto.
  - intros [Hsize [key Hkey]]. split; [done|].
    exists (key, joint). split; [done|]. by apply elem_of_map_to_list.
Qed.

Lemma in_joint_at_AddPointAt (posToJoint : gmap N Joint) (locationKey key : N)
    (roadPoint rp : RoadPoint) :
  in_joint_at (AddPointAt locationKey roadPoint posToJoint) key rp ↔
  in_joint_at posToJoint key rp ∨ (key = locationKey ∧ rp = roadPoint).
Proof.
  unfold in_joint_at, AddPointAt, AddPoint, Joint_empty.
  destruct (decide (key = locationKey)) as [->|Hne].
  - rewrite lookup_insert_eq. split.
    + intros (joint & [= <-] & [Hold| ->%list_elem_of_singleton]%elem_of_app); [|by right].
      left. destruct (posToJoint !! locationKey) as [old|]; [by exists old|].
      by apply elem_of_nil in Hold.
    + intros [(joint & Hjoint & Hin)|[_ ->]]; eexists; (split; [done|]);
        apply elem_of_app; [left|right].
      * by rewrite Hjoint.
      * by apply list_elem_of_singleton.
  - rewrite lookup_insert_ne by done. split; [by left|].
    by intros [?|[? _]].
Qed.

(** What one feature adds to the joints. *)
Lemma ProcessFeature_joints (f : FeatureType) (id : N) (this this' : Processor) :
  ProcessFeature f id this = Ok this' →
  m_maskBuilder this' = m_maskBuilder this ∧
  ∀ key rp,
    in_joint_at (m_posToJoint this') key rp ↔
    in_joint_at (m_posToJoint this) key rp ∨
    (CalcRoadMask (m_maskBuilder this) f ≠ 0%N ∧
     ∃ i, rp = MkRoadPoint id (N.of_nat i) ∧ location_key f i = Some key).
Proof.
  unfold ProcessFeature. case_bool_decide as Hmask.
  - intros [= <-]. split; [done|]. intros key rp. split; [by left|].
    by intros [?|[? _]].
  - intros Hloop.
    pose (Inv := λ (k : nat) (p : Processor),
      m_maskBuilder p = m_maskBuilder this ∧
      ∀ key rp,
        in_joint_at (m_posToJoint p) key rp ↔
        in_joint_at (m_posToJoint this) key rp ∨
        ∃ i, i < k ∧ rp = MkRoadPoint id (N.of_nat i) ∧ location_key f i = Some key).
    apply (for_loop_invariant Inv) in Hloop as [Hmb Hjoints].
    + split; [done|]. intros key rp. rewrite Hjoints. split.
      * intros [?|(i & _ & ? & ?)]; [by left|right]. split; [done|]. by exists i.
      * intros [?|[_ (i & -> & Hkey)]]; [by left|right]. exists i.
        split; [|done]. unfold location_key in Hkey.
        destruct (BestGeometry f !! i) eqn:Hi; [|done].
        apply lookup_lt_Some in Hi. unfold GetPointsCount. lia.
    + split; [done|]. intros key rp. split; [by left|].
      intros [?|(i & ? & _)]; [done|lia].
    + intros k p p' _ [Hmb Hjoints].
      intros (point & Hpoint%at_index_Ok
              & (pointId & (_ & _ & [= <-])%Outcome_bind_Ok & [= <-])%Outcome_bind_Ok
             )%Outcome_bind_Ok.
      split; [done|]. intros key rp. simpl.
      rewrite in_joint_at_AddPointAt, Hjoints. unfold location_key. split.
      * intros [[?|(i & ? & ? & ?)]|[-> ->]]; [by left|right; exists i|right; exists k].
        -- split; [lia|done].
        -- split; [lia|]. by rewrite Hpoint.
      * intros [?|(i & Hi & -> & Hkey)]; [by left; left|].
        destruct (decide (i = k)) as [->|Hne].
        -- right. rewrite Hpoint in Hkey. by injection Hkey as <-.
        -- left. right. exists i. split; [lia|done].
Qed.

(** What a run over the features of a tile adds to the joints. *)
Lemma for_each_feature_joints (features : list (FeatureType * N)) (this this' : Processor) :
  for_each_feature features ProcessFeature this = Ok this' →
  m_maskBuilder this' = m_maskBuilder this ∧
  ∀ key rp,
    in_joint_at (m_posToJoint this') key rp ↔
    in_joint_at (m_posToJoint this) key rp ∨
    ∃ f id i, (f, id) ∈ features ∧ CalcRoadMask (m_maskBuilder this) f ≠ 0%N ∧
              rp = MkRoadPoint id (N.of_nat i) ∧ location_key f i = Some key.
Proof.
  revert this. induction features as [|[f id] rest IH]; intros this; simpl.
  - intros [= <-]. split; [done|]. intros key rp. split; [by left|].
    by intros [?|(? & ? & ? & ?%elem_of_nil & _)].
  - intros (mid & [Hmb1 Hmid]%ProcessFeature_joints & [Hmb2 Hrest]%IH)%Outcome_bind_Ok.
    split; [congruence|]. intros key rp. rewrite Hrest, Hmid, Hmb1. split.
    + intros [[?|[Hmask (i & -> & Hkey)]]|(g & gid & i & Hin & Hmask & -> & Hkey)].
      * by left.
      * right. exists f, id, i. split; [by left|done].
      * right. exists g, gid, i. split; [by right|done].
    + intros [?|(g & gid & i & Hin & Hmask & -> & Hkey)]; [by left; left|].
      apply elem_of_cons in Hin as [[= -> ->]|Hin].
      * left. right. split; [done|]. by exists i.
      * right. by exists g, gid, i.
Qed.

Lemma NoDup_ids_feature (features : list (FeatureType * N)) (f g : FeatureType) (id : N) :
  NoDup features.*2 → (f, id) ∈ features → (g, id) ∈ features → f = g.
Proof.
  induction features as [|[h hid] rest IH]; simpl.
  - by intros _ ?%elem_of_nil.
  - intros [Hnotin Hrest]%NoDup_cons.
    intros [[= -> ->]|Hf]%elem_of_cons [[= ->]|Hg]%elem_of_cons; try done.
    + exfalso. apply Hnotin. apply list_elem_of_fmap. by exists (g, hid).
    + subst. exfalso. apply Hnotin. apply list_elem_of_fmap. by exists (f, hid).
    + by apply IH.
Qed.

(** C6.  After the builder has processed a tile whose feature ids are
    distinct, two vertices of road features are in the same joint exactly
    when their quantised location keys ([PointToInt64] at
    [POINT_COORD_BITS]) are equal.  Nothing else decides it: the statement
    holds whatever the points are, and mentions no epsilon. *)
Theorem joints_coalesce_by_location_key (country filename : string)
    (this0 this : Processor) (w w' : World) :
  Processor_new country = Ok this0 →
  NoDup (DatFeatures filename).1.*2 →
  ProcessAllFeatures filename this0 w = (w', Ok this) →
  ∀ (f1 : FeatureType) (id1 : N) (i1 : nat) (key1 : N)
    (f2 : FeatureType) (id2 : N) (i2 : nat) (key2 : N),
    (f1, id1) ∈ (DatFeatures filename).1 →
    CalcRoadMask (m_maskBuilder this0) f1 ≠ 0%N →
    location_key f1 i1 = Some key1 →
    (f2, id2) ∈ (DatFeatures filename).1 →
    CalcRoadMask (m_maskBuilder this0) f2 ≠ 0%N →
    location_key f2 i2 = Some key2 →
    same_joint this (MkRoadPoint id1 (N.of_nat i1)) (MkRoadPoint id2 (N.of_nat i2))
    ↔ key1 = key2.
Proof.
  intros Hnew Hids [Hrun _]%ForEachFromDat_Ok.
  apply for_each_feature_joints in Hrun as [_ Hjoints].
  assert (m_posToJoint this0 = ∅) as Hempty.
  { unfold Processor_new in Hnew.
    by apply Outcome_bind_Ok in Hnew as (mb & _ & [= <-]). }
  assert (∀ key rp, ¬ in_joint_at (m_posToJoint this0) key rp) as Hnone.
  { intros key rp (joint & Hjoint & _). by rewrite Hempty, lookup_empty in Hjoint. }
  intros f1 id1 i1 key1 f2 id2 i2 key2 Hin1 Hmask1 Hkey1 Hin2 Hmask2 Hkey2.
  assert (∀ f id i key k,
    (f, id) ∈ (DatFeatures filename).1 → location_key f i = Some key →
    in_joint_at (m_posToJoint this) k (MkRoadPoint id (N.of_nat i)) → k = key) as Hunique.
  { intros f id i key k Hin Hkey [Hold|(g & gid & j & Hg & _ & [= -> Hj] & Hgkey)]%Hjoints.
    - by apply Hnone in Hold.
    - apply Nat2N.inj in Hj as ->.
      rewrite (NoDup_ids_feature _ _ _ _ Hids Hin Hg) in Hkey. congruence. }
  split.
  - intros (key & joint & Hjoint & Hrp1 & Hrp2).
    rewrite <- (Hunique f1 id1 i1 key1 key Hin1 Hkey1) by by exists joint.
    by apply (Hunique f2 id2 i2 key2 key Hin2 Hkey2); exists joint.
  - intros <-.
    assert (in_joint_at (m_posToJoint this) key1 (MkRoadPoint id1 (N.of_nat i1)))
      as (joint & Hjoint & Hrp1).
    { apply Hjoints. right. by exists f1, id1, i1. }
    assert (in_joint_at (m_posToJoint this) key1 (MkRoadPoint id2 (N.of_nat i2)))
      as (joint' & Hjoint' & Hrp2).
    { apply Hjoints. right. by exists f2, id2, i2. }
    exists key1, joint. split; [done|]. split; [done|]. congruence.
Qed.

(** The builder goes through every feature of at most [2 ^ 32] points. *)
Lemma ProcessFeature_total (f : FeatureType) (id : N) (this : Processor) :
  (N.of_nat (GetPointsCount f) ≤ 2 ^ 32)%N →
  ∃ this', ProcessFeature f id this = Ok this'.
Proof.
  intros Hcount. unfold ProcessFeature. case_bool_decide; [by eexists|].
  edestruct (for_loop_total (State := Processor) (λ _ _, True)) as (this' & -> & _);
    [done| |by eexists].
  intros k p Hk _. unfold GetPointAt, GetPointsCount in *.
  destruct (at_index_lt (BestGeometry f) k ltac:(lia)) as (point & _ & ->).
  unfold checked_cast_uint32, CHECK. rewrite bool_decide_eq_true_2 by lia.
  by eexists.
Qed.

End BuilderFacts.

(** ** Leap weights *)

Section WeightFacts.
Context `{!Geometry, !Features, !Masks, !VehicleModels, !Routing, !Platform}.

Lemma weight_of_SetWeight (weights : gmap Segment (gmap Segment double))
    (enter exit e x : Segment) (weight : double) :
  weight_of (SetWeight enter exit weight weights) e x
  = if decide (e = enter ∧ x = exit) then Some weight else weight_of weights e x.
Proof.
  unfold weight_of, SetWeight.
  destruct (decide (e = enter)) as [->|He].
  - rewrite lookup_insert_eq. simpl.
    destruct (decide (x = exit)) as [->|Hx].
    + rewrite lookup_insert_eq. by rewrite decide_True.
    + rewrite lookup_insert_ne by done. rewrite decide_False by naive_solver.
      by destruct (weights !! enter).
  - rewrite lookup_insert_ne by done. by rewrite decide_False by naive_solver.
Qed.

Lemma weight_of_RecordExits (enter : Segment) (exits : list Segment)
    (distanceMap : gmap Segment double) (weights : gmap Segment (gmap Segment double))
    (e x : Segment) :
  weight_of (RecordExits enter exits distanceMap weights) e x
  = if decide (e = enter ∧ x ∈ exits ∧ is_Some (distanceMap !! x))
    then distanceMap !! x
    else weight_of weights e x.
Proof.
  unfold RecordExits. revert weights.
  induction exits as [|exit exits IH]; intros weights; simpl.
  - rewrite decide_False; [done|]. by intros (_ & ?%elem_of_nil & _).
  - rewrite IH. clear IH.
    destruct (decide (e = enter ∧ x ∈ exits ∧ is_Some (distanceMap !! x)))
      as [(-> & Hin & Hsome)|Hrest].
    + rewrite decide_True; [done|]. split; [done|]. split; [by right|done].
    + destruct (distanceMap !! exit) as [weight|] eqn:Hexit.
      * rewrite weight_of_SetWeight.
        destruct (decide (e = enter ∧ x = exit)) as [[-> ->]|Hhere].
        -- rewrite decide_True; [done|]. split; [done|]. split; [by left|by rewrite Hexit].
        -- rewrite decide_False; [done|].
           intros (-> & [->|Hin]%elem_of_cons & Hsome); naive_solver.
      * rewrite decide_False; [done|].
        intros (-> & [->|Hin]%elem_of_cons & Hsome); [|naive_solver].
        rewrite Hexit in Hsome. by destruct Hsome.
Qed.

(** The table after the waves from all enters, for a wave that writes its
    distances into the map without regard to what the map held. *)
Lemma FillWeights_waves_table (graph : IndexGraph) (connector : CrossMwmConnector) :
  (∀ start distanceMap,
     wave graph start distanceMap = wave_distances graph start) →
  ∃ st, FillWeights_waves graph connector = Ok st ∧
    ∀ enter exit,
      weight_of (ws_weights st) enter exit
      = if decide (enter ∈ GetEnters connector ∧ exit ∈ GetExits connector)
        then wave_distances graph enter !! exit
        else None.
Proof.
  intros Hwave. unfold FillWeights_waves.
  set (enters := GetEnters connector).
  pose (Inv := λ (k : nat) (st : WaveState),
    ∀ enter exit,
      weight_of (ws_weights st) enter exit
      = if decide (enter ∈ take k enters ∧ exit ∈ GetExits connector)
        then wave_distances graph enter !! exit
        else None).
  destruct (for_loop_total Inv (wave_from_enter graph connector (length enters))
              (length enters) 0 (MkWaveState ∅ ∅ [])) as (st & Hst & Hinv).
  - intros enter exit. cbn [ws_weights take]. unfold weight_of. rewrite lookup_empty.
    case_decide as Hin; [|done]. by destruct Hin as [?%elem_of_nil _].
  - intros k st [_ Hk] Hst. unfold wave_from_enter, GetEnter. fold enters.
    destruct (at_index_lt enters k Hk) as (enter & Henter & ->).
    eexists. split; [done|].
    intros e x. cbn [ws_weights]. rewrite weight_of_RecordExits, Hst, Hwave.
    rewrite (take_S_r _ _ _ Henter).
    destruct (decide (e = enter ∧ x ∈ GetExits connector
                      ∧ is_Some (wave_distances graph enter !! x)))
      as [(-> & Hx & Hsome)|Hnot].
    + rewrite decide_True; [done|]. split; [|done].
      apply elem_of_app. right. by apply list_elem_of_singleton.
    + destruct (decide (e ∈ take k enters ∧ x ∈ GetExits connector)) as [[He Hx]|Hold].
      * rewrite decide_True; [done|]. split; [|done]. apply elem_of_app. by left.
      * destruct (decide (e ∈ take k enters ++ [enter] ∧ x ∈ GetExits connector))
          as [[[He| ->%list_elem_of_singleton]%elem_of_app Hx]|]; [naive_solver| |done].
        symmetry. apply eq_None_not_Some. intros Hsome. by apply Hnot.
  - exists st. split; [done|]. intros enter exit. rewrite Hinv.
    simpl. by rewrite firstn_all.
Qed.

Lemma FillWeights_lookup_weight_of (weights : gmap Segment (gmap Segment double))
    (enter exit : Segment) :
  FillWeights_lookup weights enter exit = default kNoRoute (weight_of weights enter exit).
Proof.
  unfold FillWeights_lookup, weight_of.
  destruct (weights !! enter) as [row|]; [|done]. simpl. by destruct (row !! exit).
Qed.

Lemma LOG_run (level : LogLevel) (items : list LogItem) (w : World) :
  LOG level items w = (MkWorld _ (w_log w ++ [(level, items)]) (w_io w), Ok ()).
Proof. done. Qed.

Lemma io_run (e : IoEvent) (w : World) :
  io e w = (MkWorld _ (w_log w) (w_io w ++ [e]), Ok ()).
Proof. done. Qed.

Lemma FillWeights_Ok (path mwmFile country : string) (connector connector' : CrossMwmConnector)
    (w w' : World) :
  FillWeights path mwmFile country connector w = (w', Ok connector') →
  ∃ vehicleModel graph st,
    CarModelFactory country = Some vehicleModel ∧
    DeserializedIndexGraph path mwmFile country vehicleModel = Ok graph ∧
    FillWeights_waves graph connector = Ok st ∧
    connector' = Connector_FillWeights (FillWeights_lookup (ws_weights st)) connector.
Proof.
  unfold FillWeights.
  intros (vehicleModel & w1 & [Hmodel _]%lift_Ok
          & ([] & w2 & _
             & (graph & w3 & [Hgraph _]%lift_Ok
                & (st & w4 & [Hst _]%lift_Ok
                   & ([] & w5 & _ & Hret)%M_bind_Ok)%M_bind_Ok)%M_bind_Ok
            )%M_bind_Ok)%M_bind_Ok.
  exists vehicleModel, graph, st.
  destruct (CarModelFactory country) as [model|]; [|done].
  injection Hmodel as ->. injection Hret as _ <-. done.
Qed.

(** The wave of [FillWeights] is the wave of the specification, and so is
    the map the waves share. *)
Lemma wave_expected (graph : IndexGraph) (enter : Segment)
    (distanceMap : gmap Segment double) :
  wave graph enter distanceMap = expected_wave graph enter distanceMap.
Proof. reflexivity. Qed.

Lemma distance_after_expected (graph : IndexGraph) (enters : list Segment) (k : nat) :
  distance_after graph enters k = expected_distance_map graph enters k.
Proof.
  induction k as [|k IH]; [done|]. simpl.
  destruct (enters !! k); [|done]. by rewrite IH, wave_expected.
Qed.

(** The table after the waves from all enters, whatever the wave does with
    the map it is given: the weight of a pair is what the last wave from
    that enter that left a distance for that exit has left for it. *)
Lemma FillWeights_waves_last_wave (graph : IndexGraph) (connector : CrossMwmConnector) :
  ∃ st, FillWeights_waves graph connector = Ok st ∧
    ∀ enter exit weight,
      weight_of (ws_weights st) enter exit = Some weight ↔
      exit ∈ GetExits connector ∧
      ∃ i, GetEnters connector !! i = Some enter ∧
           distance_after graph (GetEnters connector) (S i) !! exit = Some weight ∧
           ∀ j, i < j → GetEnters connector !! j = Some enter →
                distance_after graph (GetEnters connector) (S j) !! exit = None.
Proof.
  unfold FillWeights_waves.
  set (enters := GetEnters connector). set (exits := GetExits connector).
  pose (Inv := λ (k : nat) (st : WaveState),
    ws_distanceMap st = distance_after graph enters k ∧
    ∀ enter exit weight,
      weight_of (ws_weights st) enter exit = Some weight ↔
      exit ∈ exits ∧
      ∃ i, i < k ∧ enters !! i = Some enter ∧
           distance_after graph enters (S i) !! exit = Some weight ∧
           ∀ j, i < j < k → enters !! j = Some enter →
                distance_after graph enters (S j) !! exit = None).
  destruct (for_loop_total Inv (wave_from_enter graph connector (length enters))
              (length enters) 0 (MkWaveState ∅ ∅ [])) as (st & Hst & Hmap & Hinv).
  - split; [done|]. intros enter exit weight. cbn [ws_weights]. unfold weight_of.
    rewrite lookup_empty. split; [done|]. intros (_ & i & Hi & _). lia.
  - intros k st [_ Hk] [Hmap Hst]. unfold wave_from_enter, GetEnter. fold enters exits.
    destruct (at_index_lt enters k Hk) as (enter & Henter & ->).
    eexists. split; [done|]. split.
    { cbn [ws_distanceMap]. rewrite Hmap. simpl. by rewrite Henter. }
    assert (wave graph enter (ws_distanceMap st) = distance_after graph enters (S k))
      as Hwave by (rewrite Hmap; simpl; by rewrite Henter).
    intros e x weight. cbn [ws_weights]. rewrite weight_of_RecordExits, Hwave.
    case_decide as Hhere.
    + destruct Hhere as (-> & Hx & Hsome). split.
      * intros Hweight. split; [done|]. exists k.
        split; [lia|]. split; [done|]. split; [done|]. intros j Hj. lia.
      * intros (_ & i & Hi & Hei & Hweight & Hlater).
        destruct (decide (i = k)) as [->|Hne]; [done|].
        rewrite (Hlater k) in Hsome; [by destruct Hsome|lia|done].
    + rewrite Hst. split.
      * intros (Hx & i & Hi & Hei & Hweight & Hlater). split; [done|]. exists i.
        split; [lia|]. split; [done|]. split; [done|]. intros j Hj Hej.
        destruct (decide (j = k)) as [->|Hne]; [|apply Hlater; [lia|done]].
        apply eq_None_not_Some. intros Hsome. apply Hhere.
        split; [congruence|done].
      * intros (Hx & i & Hi & Hei & Hweight & Hlater). split; [done|].
        destruct (decide (i = k)) as [->|Hne].
        { exfalso. apply Hhere. split; [congruence|]. split; [done|by eexists]. }
        exists i. split; [lia|]. split; [done|]. split; [done|].
        intros j Hj. apply Hlater. lia.
  - exists st. split; [done|]. intros enter exit weight. rewrite Hinv. simpl. split.
    + intros (Hx & i & Hi & Hei & Hweight & Hlater). split; [done|]. exists i.
      split; [done|]. split; [done|]. intros j Hj Hej. apply Hlater; [|done].
      apply lookup_lt_Some in Hej. lia.
    + intros (Hx & i & Hei & Hweight & Hlater). split; [done|]. exists i.
      split; [by apply lookup_lt_Some in Hei|]. split; [done|]. split; [done|].
      intros j Hj. apply Hlater. lia.
Qed.

(** C2.  When the cross-mwm section of a tile is built, the connectors that
    are serialised are those of the transition scan, the pedestrian and the
    bicycle one untouched and the car one with [FillWeights] applied to it.
    For the car connector a wave is run from every enter, in the order of
    the enters: the wave of the specification, from that enter, over the
    outgoing edges of the graph, with no early stop and every edge at its
    own weight, on the distance map the waves before it have left.  The
    weight table holds a weight for an enter [e] and a segment [x] exactly
    when [x] is an exit and a wave from [e] has handed back a map with a
    distance for [x]; the weight is that distance (of the last such wave,
    should [e] be an enter twice).  When the wave leaves in the map nothing
    but its own distances, this is: for every enter [e] and exit [x] the
    table holds the distance of the wave from [e] at [x] exactly when the
    wave reached [x], and nothing for any other pair.  The lookup given to
    [connector.FillWeights] returns the recorded weight of a pair that has
    one and [kNoRoute] for every other pair. *)
Theorem leap_weights_of_car_connector (path mwmFile country : string) (w w' : World) :
  BuildCrossMwmSection path mwmFile country w = (w', Ok ()) →
  ∃ transitions connectors graph weights,
    (∃ w1, CalcCrossMwmTransitions path mwmFile country [] connectors_new
             (LOG LINFO [LogText "Building cross mwm section for"; LogText country] w).1
           = (w1, Ok (transitions, connectors))) ∧
    (∃ vehicleModel, CarModelFactory country = Some vehicleModel ∧
       DeserializedIndexGraph path mwmFile country vehicleModel = Ok graph) ∧
    last (w_io w') =
      Some (IoSerializeCrossMwm transitions
              (MkConnectors _ (forPedestrian connectors) (forBicycle connectors)
                 (Connector_FillWeights (FillWeights_lookup weights) (forCar connectors)))) ∧
    (∃ st, FillWeights_waves graph (forCar connectors) = Ok st ∧ weights = ws_weights st) ∧
    (∀ enter exit weight,
       weight_of weights enter exit = Some weight ↔
       exit ∈ GetExits (forCar connectors) ∧
       ∃ i, GetEnters (forCar connectors) !! i = Some enter ∧
            expected_wave graph enter
              (expected_distance_map graph (GetEnters (forCar connectors)) i) !! exit
            = Some weight ∧
            ∀ j, i < j → GetEnters (forCar connectors) !! j = Some enter →
                 expected_wave graph enter
                   (expected_distance_map graph (GetEnters (forCar connectors)) j) !! exit
                 = None) ∧
    ((∀ e distance_map, expected_wave graph e distance_map = expected_wave graph e ∅) →
     ∀ enter exit,
       weight_of weights enter exit
       = if decide (enter ∈ GetEnters (forCar connectors)
                    ∧ exit ∈ GetExits (forCar connectors))
         then expected_wave graph enter ∅ !! exit
         else None) ∧
    (∀ enter exit,
       FillWeights_lookup weights enter exit
       = default kNoRoute (weight_of weights enter exit)).
Proof.
  unfold BuildCrossMwmSection.
  intros ([] & w0 & Hlog0
          & ([transitions connectors] & w1 & Hscan
             & ([] & w2 & _ & ([] & w5 & _
                & (car & w6 & Hfill
                   & ([] & w7 & _
                      & (codingParams & w8 & _
                         & ([] & w9 & _
                            & (writer & w10 & [_ ->]%lift_Ok
                               & ([] & w11 & Hio
                                  & (writer' & w12 & [_ ->]%lift_Ok & Hlog)%M_bind_Ok
                                 )%M_bind_Ok)%M_bind_Ok)%M_bind_Ok)%M_bind_Ok
                     )%M_bind_Ok)%M_bind_Ok)%M_bind_Ok)%M_bind_Ok
            )%M_bind_Ok)%M_bind_Ok.
  apply FillWeights_Ok in Hfill as (vehicleModel & graph & st & Hmodel & Hgraph & Hst & ->).
  change (connector_of connectors Car) with (forCar connectors) in *.
  exists transitions, connectors, graph, (ws_weights st).
  split; [exists w1; by rewrite Hlog0|]. split; [by exists vehicleModel|].
  split; [|split; [by exists st|split; [|split; [|apply FillWeights_lookup_weight_of]]]].
  - rewrite io_run in Hio. injection Hio as <-.
    rewrite LOG_run in Hlog. injection Hlog as <-. simpl.
    by rewrite last_snoc.
  - destruct (FillWeights_waves_last_wave graph (forCar connectors))
      as (st' & Hst' & Htable).
    assert (st' = st) as -> by congruence.
    intros enter exit weight. rewrite Htable.
    assert (∀ i, GetEnters (forCar connectors) !! i = Some enter →
      distance_after graph (GetEnters (forCar connectors)) (S i)
      = expected_wave graph enter
          (expected_distance_map graph (GetEnters (forCar connectors)) i)) as Hstep.
    { intros i Hi. rewrite distance_after_expected. simpl. by rewrite Hi. }
    split.
    + intros (Hx & i & Hi & Hweight & Hlater). split; [done|]. exists i.
      split; [done|]. rewrite <- (Hstep i Hi). split; [done|].
      intros j Hj Hej. rewrite <- (Hstep j Hej). by apply Hlater.
    + intros (Hx & i & Hi & Hweight & Hlater). split; [done|]. exists i.
      split; [done|]. rewrite (Hstep i Hi). split; [done|].
      intros j Hj Hej. rewrite (Hstep j Hej). by apply Hlater.
  - intros Hclears.
    destruct (FillWeights_waves_table graph (forCar connectors)) as (st' & Hst' & Htable).
    { intros start distanceMap. unfold wave_distances.
      rewrite !wave_expected. apply Hclears. }
    assert (st' = st) as -> by congruence.
    intros enter exit. rewrite Htable. unfold wave_distances.
    by rewrite wave_expected.
Qed.

End WeightFacts.

(** ** The entry points *)

Section EntryFacts.
Context `{!Geometry, !Features, !Masks, !VehicleModels, !Routing, !Platform}.

Lemma BuildRoutingIndex_body_true (filename country : string) (w w' : World) (b : bool) :
  BuildRoutingIndex_body filename country w = (w', Ok b) → b = true.
Proof.
  unfold BuildRoutingIndex_body.
  intros (p0 & w1 & _ & (p & w2 & _ & (graph & w2' & _ & ([] & w3 & _
          & (writer & w4 & _ & ([] & w5 & _ & (writer' & w6 & _ & ([] & w7 & _ & Hret
            )%M_bind_Ok)%M_bind_Ok)%M_bind_Ok)%M_bind_Ok)%M_bind_Ok)%M_bind_Ok
         )%M_bind_Ok)%M_bind_Ok.
  by injection Hret.
Qed.

(** Where the body of [BuildRoutingIndex] can fail once the builder is
    constructed and the features are processed: the reader of the features,
    the import of the joints, the writer of the section, the serialiser.
    The failure of the stage is the failure of the body. *)
Lemma BuildRoutingIndex_body_stages (filename country : string)
    (this0 this : Processor) (w : World) :
  Processor_new country = Ok this0 →
  for_each_feature (DatFeatures filename).1 ProcessFeature this0 = Ok this →
  (∀ e, (DatFeatures filename).2 = Some e →
        (BuildRoutingIndex_body filename country w).2 = Fail (Thrown e)) ∧
  (∀ f, (DatFeatures filename).2 = None →
        BuildGraph this IndexGraph_new = Fail f →
        (BuildRoutingIndex_body filename country w).2 = Fail f) ∧
  (∀ graph f, (DatFeatures filename).2 = None →
        BuildGraph this IndexGraph_new = Ok graph →
        OpenWriter filename ROUTING_FILE_TAG = Fail f →
        (BuildRoutingIndex_body filename country w).2 = Fail f) ∧
  (∀ graph writer f, (DatFeatures filename).2 = None →
        BuildGraph this IndexGraph_new = Ok graph →
        OpenWriter filename ROUTING_FILE_TAG = Ok writer →
        SerializeIndexGraph graph (GetMasks this) writer = Fail f →
        (BuildRoutingIndex_body filename country w).2 = Fail f).
Proof.
  intros Hnew Hrun.
  unfold BuildRoutingIndex_body, ProcessAllFeatures, ForEachFromDat.
  unfold mbind, M_bind, mret, M_ret, lift, io, throw, lift. rewrite Hnew, Hrun.
  repeat split.
  - by intros e ->.
  - intros f -> Hgraph. cbv beta iota. by rewrite Hgraph.
  - intros graph f -> Hgraph Hopen. cbv beta iota. rewrite Hgraph.
    cbv beta iota. by rewrite Hopen.
  - intros graph writer f -> Hgraph Hopen Hwrite. cbv beta iota. rewrite Hgraph.
    cbv beta iota. rewrite Hopen. cbv beta iota. by rewrite Hwrite.
Qed.

(** C8, as the code has it.  [BuildRoutingIndex] logs its first line and
    runs the rest of its body under one [catch (RootException const &)].
    If the body ends without an exception, the function returns [true]; if
    a [RootException] (or an exception of a class derived from it) is
    raised anywhere in the body, the function logs an error line with the
    exception's message and returns [false]; an exception of any other
    class is not caught: it leaves the function as it left the body, with
    no error line and no return value. *)
Theorem BuildRoutingIndex_catches_RootException (filename country : string)
    (w w1 : World) :
  (∀ b : bool,
     BuildRoutingIndex_body filename country
       (LOG LINFO [LogText "Building routing index for"; LogText filename] w).1
     = (w1, Ok b) →
     BuildRoutingIndex filename country w = (w1, Ok true)) ∧
  (∀ what : string,
     BuildRoutingIndex_body filename country
       (LOG LINFO [LogText "Building routing index for"; LogText filename] w).1
     = (w1, Fail (Thrown (RootException what))) →
     BuildRoutingIndex filename country w
     = (MkWorld _ (w_log w1 ++ [(LERROR, [LogText "An exception happened while creating";
                                          LogText ROUTING_FILE_TAG; LogText "section:";
                                          LogText what])])
                  (w_io w1),
        Ok false)) ∧
  (∀ what : string,
     BuildRoutingIndex_body filename country
       (LOG LINFO [LogText "Building routing index for"; LogText filename] w).1
     = (w1, Fail (Thrown (OtherException what))) →
     BuildRoutingIndex filename country w = (w1, Fail (Thrown (OtherException what)))).
Proof.
  unfold BuildRoutingIndex.
  rewrite (M_bind_run _ _ _ _ _ (LOG_run _ _ _)). rewrite LOG_run. cbn [fst].
  unfold try_catch_RootException. repeat split.
  - intros b Hbody. rewrite Hbody. by rewrite (BuildRoutingIndex_body_true _ _ _ _ _ Hbody).
  - intros what Hbody. by rewrite Hbody.
  - intros what Hbody. by rewrite Hbody.
Qed.

Lemma VehicleMaskBuilder_new_missing (country : string) :
  PedestrianModelFactory country = None ∨ BicycleModelFactory country = None
  ∨ CarModelFactory country = None →
  VehicleMaskBuilder_new country = Fail CheckFailed.
Proof.
  unfold VehicleMaskBuilder_new.
  destruct (PedestrianModelFactory country), (BicycleModelFactory country),
    (CarModelFactory country); naive_solver.
Qed.

(** C9, as the code has it.  If one of the three vehicle models is missing
    for the country, the construction of the mask builder fails.  In
    [BuildRoutingIndex] the failure comes before any file operation: only
    the first log line has been written.  In [CalcCrossMwmTransitions] the
    border file is loaded first, and the builder is constructed after it:
    the failure comes when the border file has been read (and only if that
    went well), before the features of the tile are read. *)
Theorem missing_model_fails_construction (country : string) :
  PedestrianModelFactory country = None ∨ BicycleModelFactory country = None
  ∨ CarModelFactory country = None →
  VehicleMaskBuilder_new country = Fail CheckFailed ∧
  (∀ (filename : string) (w : World),
     BuildRoutingIndex filename country w
     = (MkWorld _ (w_log w ++ [(LINFO, [LogText "Building routing index for";
                                        LogText filename])])
                  (w_io w),
        Fail CheckFailed)) ∧
  (∀ (path mwmFile : string) (transitions : list Transition)
     (connectors : CrossMwmConnectorPerVehicleType) (w : World),
     CalcCrossMwmTransitions path mwmFile country transitions connectors w
     = (MkWorld _ (w_log w)
                  (w_io w ++ [IoLoadBorders
                                (JoinPath path BORDERS_DIR (country +:+ BORDERS_EXTENSION))]),
        match LoadBorders (JoinPath path BORDERS_DIR (country +:+ BORDERS_EXTENSION)) with
        | Ok _ => Fail CheckFailed
        | Fail f => Fail f
        end)).
Proof.
  intros Hmissing%VehicleMaskBuilder_new_missing. split; [done|]. split.
  - intros filename w. unfold BuildRoutingIndex.
    rewrite (M_bind_run _ _ _ _ _ (LOG_run _ _ _)).
    unfold try_catch_RootException, BuildRoutingIndex_body, Processor_new.
    rewrite Hmissing. done.
  - intros path mwmFile transitions connectors w. unfold CalcCrossMwmTransitions.
    rewrite (M_bind_run _ _ _ _ _ (io_run _ _)).
    destruct (LoadBorders _) as [borders|f]; [|done].
    unfold mbind, M_bind, lift. by rewrite Hmissing.
Qed.

End EntryFacts.

(** ** Further properties of the road graph *)

(** A loop that writes [g] of every element of [src] into a vector of the
    same length leaves the image of [src]. *)
Lemma copy_loop {A B} (g : A → B) (src : list A) (dst : list B) :
  length dst = length src →
  for_loop (length src) 0 (λ i dst,
    a ← at_index src i;
    if bool_decide (i < length dst) then Ok (<[i := g a]> dst) else Fail OutOfRange) dst
  = Ok (g <$> src).
Proof.
  intros Hlen.
  destruct (for_loop_total
    (λ k st, st = (g <$> take k src) ++ drop k dst)
    (λ i dst, a ← at_index src i;
       if bool_decide (i < length dst) then Ok (<[i := g a]> dst) else Fail OutOfRange)
    (length src) 0 dst) as (st & -> & Hst).
  - by rewrite take_0, drop_0.
  - intros k st [_ Hk] ->. simpl in Hk.
    destruct (at_index_lt src k Hk) as (a & Ha & ->).
    rewrite Outcome_bind_ret_l.
    assert (length (g <$> take k src) = k) as Hpre
      by (rewrite length_fmap, length_take; lia).
    rewrite bool_decide_eq_true_2
      by (rewrite length_app, Hpre, length_drop; lia).
    eexists. split; [done|].
    destruct (lookup_lt_is_Some_2 dst k ltac:(lia)) as [b Hb].
    rewrite (drop_S _ _ _ Hb), (take_S_r _ _ _ Ha), fmap_app, <- app_assoc.
    replace k with (length (g <$> take k src) + 0) at 1 by lia.
    by rewrite insert_app_r.
  - simpl in Hst. subst st.
    rewrite firstn_all, drop_ge by lia. by rewrite app_nil_r.
Qed.

(** X1.  [JunctionsToPoints] and [JunctionsToAltitudes] return the points
    and the altitudes of the junctions, in the order of the junctions,
    whatever the output vector held before and however long it was, and no
    index leaves a vector; the two results together give the junctions
    back. *)
Theorem JunctionsTo_points_and_altitudes (filler : PointD) (junctions : list Junction)
    (points : list PointD) (altitudes : list TAltitude) :
  JunctionsToPoints filler junctions points = Ok (GetPoint <$> junctions) ∧
  JunctionsToAltitudes junctions altitudes = Ok (GetAltitude <$> junctions) ∧
  zip_with MkJunction (GetPoint <$> junctions) (GetAltitude <$> junctions) = junctions.
Proof.
  split; [|split].
  - unfold JunctionsToPoints. apply copy_loop, length_resize.
  - unfold JunctionsToAltitudes. apply copy_loop, length_resize.
  - induction junctions as [|[p a] junctions IH]; [done|]. simpl. f_equal. exact IH.
Qed.

Lemma for_each_nested {A B State} (v : list (A * list B)) (fn : B → State → State)
    (s : State) :
  for_each v (λ m s, for_each m.2 fn s) s
  = fold_left (λ s e, fn e s) (concat v.*2) s.
Proof.
  revert s. induction v as [|[a edges] v IH]; intros s; simpl; [done|].
  rewrite IH, fold_left_app. f_equal.
  clear. revert s. induction edges as [|e edges IH]; intros s; simpl; [done|apply IH].
Qed.

(** X2.  [ForEachFakeEdge] calls its callback once for every edge of the
    two overlays and for nothing else: first the ingoing edges, junction by
    junction in the order of the map, then the outgoing edges. *)
Theorem ForEachFakeEdge_visits {Edge State}
    (m_fakeIngoingEdges m_fakeOutgoingEdges : list (Junction * list Edge))
    (fn : Edge → State → State) (s : State) :
  ForEachFakeEdge m_fakeIngoingEdges m_fakeOutgoingEdges fn s
  = fold_left (λ s e, fn e s)
      (concat m_fakeIngoingEdges.*2 ++ concat m_fakeOutgoingEdges.*2) s.
Proof.
  unfold ForEachFakeEdge. by rewrite !for_each_nested, fold_left_app.
Qed.

Section RoadGraphMore.
Context `{!Geometry}.

Lemma ForEachEdge_expected (m_cross : Junction) (roadInfo : RoadInfo)
    {State} (fn : nat → Junction → bool → State → State) (s : State) :
  ForEachEdge m_cross roadInfo fn s
  = Ok (fold_left (apply_call fn) (expected_calls m_cross roadInfo) s).
Proof.
  unfold ForEachEdge, expected_calls.
  generalize (m_junctions roadInfo). intros junctions.
  enough (∀ n i t, i + n ≤ length junctions →
    for_loop n i (λ i s,
      ji ← at_index junctions i;
      if negb (my_AlmostEqualAbs (GetPoint m_cross) (GetPoint ji) kPointsEqualEpsilon)
      then Ok s
      else
        s ← (if bool_decide (i + 1 < length junctions)
             then jn ← at_index junctions (i + 1); Ok (fn i jn true s)
             else Ok s);
        if bool_decide (0 < i)
        then jp ← at_index junctions (i - 1); Ok (fn (i - 1) jp false s)
        else Ok s) t
    = Ok (fold_left (apply_call fn)
            (flat_map (calls_at_vertex m_cross junctions) (seq i n)) t)) as Hloop
    by by apply Hloop.
  induction n as [|n IH]; intros i t Hle; simpl; [done|].
  rewrite ForEachEdge_vertex by lia. simpl.
  rewrite IH by lia. by rewrite fold_left_app.
Qed.

Lemma elem_of_expected_calls (m_cross : Junction) (roadInfo : RoadInfo) (c : EdgeCall) :
  c ∈ expected_calls m_cross roadInfo ↔
  ∃ i, c ∈ calls_at_vertex m_cross (m_junctions roadInfo) i.
Proof.
  unfold expected_calls. rewrite list_elem_of_In, in_flat_map. split.
  - intros (i & _ & Hc). exists i. by apply list_elem_of_In.
  - intros (i & Hc). exists i. split; [|by apply list_elem_of_In].
    apply in_seq. apply elem_of_calls_at_vertex in Hc as (ji & Hi%lookup_lt_Some & _).
    lia.
Qed.

(** X3.  Every call [fn(segId, junction, forward)] of [ForEachEdge] names a
    segment of the polyline ([segId + 1] is an index) that touches the
    cross, and hands over the other end of that segment: for a forward
    call the segment starts at a vertex epsilon-equal to the cross and
    [junction] is its end; for a backward call the segment ends at such a
    vertex and [junction] is its start. *)
Theorem ForEachEdge_calls_name_incident_segments (m_cross : Junction)
    (roadInfo : RoadInfo) {State} (fn : nat → Junction → bool → State → State)
    (s : State) :
  ForEachEdge m_cross roadInfo fn s
    = Ok (fold_left (apply_call fn) (expected_calls m_cross roadInfo) s) ∧
  ∀ c : EdgeCall, c ∈ expected_calls m_cross roadInfo →
    call_segId c + 1 < length (m_junctions roadInfo) ∧
    ∃ tail head,
      m_junctions roadInfo !! call_segId c = Some tail ∧
      m_junctions roadInfo !! (call_segId c + 1) = Some head ∧
      if call_forward c
      then call_junction c = head ∧
           my_AlmostEqualAbs (GetPoint m_cross) (GetPoint tail) kPointsEqualEpsilon = true
      else call_junction c = tail ∧
           my_AlmostEqualAbs (GetPoint m_cross) (GetPoint head) kPointsEqualEpsilon = true.
Proof.
  split; [apply ForEachEdge_expected|].
  intros c (i & Hc)%elem_of_expected_calls.
  apply elem_of_calls_at_vertex in Hc
    as (ji & Hi & Heq & [(Hf & -> & Hj)|(Hf & Hpos & -> & Hj)]); rewrite Hf.
  - split; [by apply lookup_lt_Some in Hj|]. by exists ji, (call_junction c).
  - replace (i - 1 + 1) with i by lia.
    split; [by apply lookup_lt_Some in Hi|]. by exists (call_junction c), ji.
Qed.

(** X4.  When no vertex of the polyline is epsilon-equal to the cross, or
    the polyline has fewer than two vertices, [ForEachEdge] never calls its
    callback: what the callback would change is left as it was. *)
Theorem ForEachEdge_without_calls (m_cross : Junction) (roadInfo : RoadInfo)
    {State} (fn : nat → Junction → bool → State → State) (s : State) :
  (∀ j, j ∈ m_junctions roadInfo →
        my_AlmostEqualAbs (GetPoint m_cross) (GetPoint j) kPointsEqualEpsilon = false)
  ∨ length (m_junctions roadInfo) ≤ 1 →
  expected_calls m_cross roadInfo = [] ∧ ForEachEdge m_cross roadInfo fn s = Ok s.
Proof.
  intros Hnone.
  assert (expected_calls m_cross roadInfo = []) as Hcalls.
  { apply elem_of_nil_inv. intros c (i & Hc)%elem_of_expected_calls.
    apply elem_of_calls_at_vertex in Hc as (ji & Hi & Heq & Hrest).
    destruct Hnone as [Hnone|Hshort].
    - rewrite (Hnone ji) in Heq; [done|]. by eapply list_elem_of_lookup_2.
    - apply lookup_lt_Some in Hi.
      destruct Hrest as [(_ & _ & Hj%lookup_lt_Some)|(_ & Hpos & _)]; lia. }
  split; [done|]. by rewrite ForEachEdge_expected, Hcalls.
Qed.

End RoadGraphMore.

(** ** Further properties of the border-crossing scan *)

Section TransitionMore.
Context `{!Geometry, !Features, !Masks, !VehicleModels, !Routing, !Platform}.

(** X5.  [RegionsContain] is true exactly when one of the regions contains
    the point: never for an empty list of regions, and for two lists put
    together when it is true for one of them. *)
Theorem RegionsContain_some_region (regions more : list RegionD) (point : PointD) :
  (RegionsContain regions point = true ↔
   ∃ region, region ∈ regions ∧ Contains region point = true) ∧
  RegionsContain [] point = false ∧
  RegionsContain (regions ++ more) point
  = RegionsContain regions point || RegionsContain more point.
Proof.
  split; [|split; [done|]].
  - induction regions as [|region regions IH]; simpl.
    + split; [done|]. by intros (? & ?%elem_of_nil & _).
    + destruct (Contains region point) eqn:Hhere.
      * split; [|done]. intros _. exists region. split; [by left|done].
      * rewrite IH. split.
        -- intros (r & Hin & Hr). exists r. split; [by right|done].
        -- intros (r & [->|Hin]%elem_of_cons & Hr); [congruence|by exists r].
  - induction regions as [|region regions IH]; simpl; [done|].
    by destruct (Contains region point).
Qed.

Lemma alternating_app (side : bool) (l1 l2 : list Transition) :
  alternating side (l1 ++ l2) ↔ alternating side l1 ∧ alternating (side_after side l1) l2.
Proof.
  revert side. induction l1 as [|t l1 IH]; intros side; simpl.
  - unfold side_after. simpl. naive_solver.
  - unfold side_after. simpl. rewrite IH. unfold side_after. naive_solver.
Qed.

Lemma side_after_app (side : bool) (l1 l2 : list Transition) :
  side_after side (l1 ++ l2) = side_after (side_after side l1) l2.
Proof. unfold side_after. by rewrite fold_left_app. Qed.

Lemma transition_at_sides (segmentIdx : nat → N) (borders : list RegionD)
    (maskMaker : VehicleMaskBuilder) (f : FeatureType) (featureId : N) (i : nat) :
  1 ≤ i < GetPointsCount f →
  alternating (vertex_inside borders f (i - 1))
              (transition_at segmentIdx borders maskMaker f featureId i) ∧
  side_after (vertex_inside borders f (i - 1))
             (transition_at segmentIdx borders maskMaker f featureId i)
  = vertex_inside borders f i.
Proof.
  intros Hi. unfold transition_at, GetPointsCount in *.
  destruct (lookup_lt_is_Some_2 (BestGeometry f) (i - 1) ltac:(lia)) as [back Hback].
  destruct (lookup_lt_is_Some_2 (BestGeometry f) i ltac:(lia)) as [front Hfront].
  rewrite Hback, Hfront.
  rewrite (vertex_inside_Some _ _ _ _ Hback), (vertex_inside_Some _ _ _ _ Hfront).
  case_bool_decide as Hsame; [by rewrite Hsame|].
  unfold side_after. simpl. split; [|done]. split; [|done].
  by destruct (RegionsContain borders front), (RegionsContain borders back).
Qed.

Lemma transitions_from_sides (segmentIdx : nat → N) (borders : list RegionD)
    (maskMaker : VehicleMaskBuilder) (f : FeatureType) (featureId : N) (n i : nat) :
  1 ≤ i → i + n ≤ GetPointsCount f →
  alternating (vertex_inside borders f (i - 1))
    (flat_map (transition_at segmentIdx borders maskMaker f featureId) (seq i n)) ∧
  side_after (vertex_inside borders f (i - 1))
    (flat_map (transition_at segmentIdx borders maskMaker f featureId) (seq i n))
  = vertex_inside borders f (i + n - 1).
Proof.
  revert i. induction n as [|n IH]; intros i Hi Hle.
  - simpl. split; [done|]. unfold side_after. simpl. f_equal. lia.
  - cbn [seq flat_map].
    destruct (transition_at_sides segmentIdx borders maskMaker f featureId i)
      as [Halt Hside]; [lia|].
    destruct (IH (S i)) as [Halt' Hside']; [lia|lia|].
    replace (S i - 1) with i in * by lia.
    rewrite alternating_app, side_after_app, Hside. split; [done|].
    rewrite Hside'. f_equal. lia.
Qed.

(** X6.  Along one feature the transitions the scan emits alternate: the
    first leads away from the side of the first point, each further one
    away from the side the one before it led to.  So a road feature ends
    on the side its last transition leads to, or, without a transition, on
    the side it started. *)
Theorem transitions_alternate (borders : list RegionD)
    (maskMaker : VehicleMaskBuilder) (f : FeatureType) (featureId : N)
    (transitions : list Transition) (connectors : CrossMwmConnectorPerVehicleType) :
  ∃ emitted connectors',
    CalcCrossMwmTransitions_feature borders maskMaker f featureId (transitions, connectors)
    = Ok (transitions ++ emitted, connectors') ∧
    alternating (vertex_inside borders f 0) emitted ∧
    (CalcRoadMask maskMaker f ≠ 0%N → GetPointsCount f ≠ 0 →
     side_after (vertex_inside borders f 0) emitted
     = vertex_inside borders f (GetPointsCount f - 1)).
Proof.
  eexists _, _. split; [apply CalcCrossMwmTransitions_feature_scan|].
  unfold transitions_of. case_bool_decide as Hmask; [done|].
  destruct (decide (GetPointsCount f = 0)) as [Hzero|Hcount].
  { rewrite Hzero. simpl. done. }
  destruct (transitions_from_sides asserted_cast_uint32 borders maskMaker f featureId
              (GetPointsCount f - 1) 1) as [Halt Hside]; [lia|lia|].
  change (1 - 1) with 0 in Halt, Hside.
  split; [done|]. intros _ _. rewrite Hside. f_equal. lia.
Qed.

Lemma transitions_from_sorted (borders : list RegionD)
    (maskMaker : VehicleMaskBuilder) (f : FeatureType) (featureId : N) (n i : nat) :
  1 ≤ i →
  StronglySorted (λ a b, (t_segmentIdx a < t_segmentIdx b)%N)
    (flat_map (transition_at N.of_nat borders maskMaker f featureId) (seq i n)).
Proof.
  revert i. induction n as [|n IH]; intros i Hi; cbn [seq flat_map]; [constructor|].
  apply StronglySorted_app_2; [| |apply IH; lia].
  - intros t1 t2 (b1 & f1 & _ & _ & _ & ->)%elem_of_transition_at.
    rewrite list_elem_of_In, in_flat_map.
    intros (j & Hj%in_seq & Ht2).
    apply list_elem_of_In, elem_of_transition_at in Ht2 as (b2 & f2 & _ & _ & _ & ->).
    simpl. lia.
  - unfold transition_at.
    destruct (BestGeometry f !! (i - 1)); [|constructor].
    destruct (BestGeometry f !! i); [|constructor].
    case_bool_decide; [constructor|]. repeat constructor.
Qed.

(** X7.  For a feature of at most [2 ^ 32] points, the transitions the scan
    emits have strictly increasing segment indices, each the index of a
    segment of the feature: no segment brings two transitions, and there
    are fewer transitions than points. *)
Theorem transitions_in_segment_order (borders : list RegionD)
    (maskMaker : VehicleMaskBuilder) (f : FeatureType) (featureId : N)
    (transitions : list Transition) (connectors : CrossMwmConnectorPerVehicleType) :
  (N.of_nat (GetPointsCount f) ≤ 2 ^ 32)%N →
  ∃ emitted connectors',
    CalcCrossMwmTransitions_feature borders maskMaker f featureId (transitions, connectors)
    = Ok (transitions ++ emitted, connectors') ∧
    StronglySorted (λ a b, (t_segmentIdx a < t_segmentIdx b)%N) emitted ∧
    ∀ t : Transition, t ∈ emitted →
      (t_segmentIdx t + 1 < N.of_nat (GetPointsCount f))%N.
Proof.
  intros Hcount. eexists _, _.
  split; [apply CalcCrossMwmTransitions_feature_scan|].
  rewrite transitions_of_asserted_cast by done. split.
  - unfold expected_transitions, transitions_of. case_bool_decide; [constructor|].
    by apply transitions_from_sorted.
  - intros t (_ & i & back & front & Hi & _ & _ & _ & ->)%elem_of_transitions_of.
    simpl. lia.
Qed.

Lemma connector_of_set (connectors : CrossMwmConnectorPerVehicleType)
    (v v' : VehicleType) (c : CrossMwmConnector) :
  connector_of (connector_set connectors v c) v'
  = if decide (v' = v) then c else connector_of connectors v'.
Proof. by destruct v, v', connectors. Qed.

(** X8.  Every transition goes to the connector of every vehicle type,
    with the mask of that type and in the order of emission; what one
    connector receives does not depend on the other connectors. *)
Theorem connectors_receive_every_transition (transitions : list Transition)
    (connectors : CrossMwmConnectorPerVehicleType) (vehicleType : VehicleType) :
  connector_of (AddTransitions transitions connectors) vehicleType
  = fold_left (λ connector transition,
                 AddTransition transition (GetVehicleMask vehicleType) connector)
              transitions (connector_of connectors vehicleType).
Proof.
  unfold AddTransitions. revert connectors.
  induction transitions as [|t transitions IH]; intros connectors; [done|].
  cbn [fold_left]. rewrite IH. f_equal.
  unfold AddTransitionToAll, all_vehicle_types. cbn [for_each].
  rewrite !connector_of_set. by destruct vehicleType.
Qed.

Lemma for_each_feature_scan (borders : list RegionD) (maskMaker : VehicleMaskBuilder)
    (features : list (FeatureType * N))
    (transitions : list Transition) (connectors : CrossMwmConnectorPerVehicleType) :
  for_each_feature features (CalcCrossMwmTransitions_feature borders maskMaker)
                   (transitions, connectors)
  = Ok (transitions ++ transitions_of_features borders maskMaker features,
        AddTransitions (transitions_of_features borders maskMaker features) connectors).
Proof.
  unfold transitions_of_features.
  revert transitions connectors.
  induction features as [|[f id] rest IH]; intros transitions connectors.
  - simpl. by rewrite app_nil_r.
  - cbn [for_each_feature flat_map fst snd].
    rewrite CalcCrossMwmTransitions_feature_scan, Outcome_bind_ret_l, IH.
    unfold AddTransitions. by rewrite fold_left_app, app_assoc.
Qed.

(** X9.  When the borders load, the three models exist and the reader of
    the tile ends without an exception, [CalcCrossMwmTransitions] returns
    the transitions it was given followed by those of all features, in the
    order of the features, and the connectors with all of them added; it
    has loaded the border file and then read the tile, and logged
    nothing. *)
Theorem CalcCrossMwmTransitions_result (path mwmFile country : string)
    (borders : list RegionD) (maskMaker : VehicleMaskBuilder)
    (transitions : list Transition) (connectors : CrossMwmConnectorPerVehicleType)
    (w : World) :
  LoadBorders (JoinPath path BORDERS_DIR (country +:+ BORDERS_EXTENSION)) = Ok borders →
  VehicleMaskBuilder_new country = Ok maskMaker →
  (DatFeatures mwmFile).2 = None →
  CalcCrossMwmTransitions path mwmFile country transitions connectors w
  = (MkWorld _ (w_log w)
       (w_io w ++ [IoLoadBorders (JoinPath path BORDERS_DIR (country +:+ BORDERS_EXTENSION));
                   IoForEachFromDat mwmFile]),
     Ok (transitions ++ transitions_of_features borders maskMaker (DatFeatures mwmFile).1,
         AddTransitions (transitions_of_features borders maskMaker (DatFeatures mwmFile).1)
                        connectors)).
Proof.
  intros Hborders HmaskMaker Hreader.
  unfold CalcCrossMwmTransitions, ForEachFromDat.
  unfold mbind, M_bind, mret, M_ret, lift, io.
  rewrite Hborders, HmaskMaker, for_each_feature_scan, Hreader. cbn.
  by rewrite <- app_assoc.
Qed.

(** X10.  A feature whose points all lie on the same side of the borders
    brings no transition: the scan leaves the transitions and the
    connectors as they were. *)
Theorem feature_on_one_side_emits_nothing (borders : list RegionD)
    (maskMaker : VehicleMaskBuilder) (f : FeatureType) (featureId : N)
    (transitions : list Transition) (connectors : CrossMwmConnectorPerVehicleType) :
  (∀ p q, p ∈ BestGeometry f → q ∈ BestGeometry f →
          RegionsContain borders p = RegionsContain borders q) →
  CalcCrossMwmTransitions_feature borders maskMaker f featureId (transitions, connectors)
  = Ok (transitions, connectors).
Proof.
  intros Hside. rewrite CalcCrossMwmTransitions_feature_scan.
  assert (transitions_of asserted_cast_uint32 borders maskMaker f featureId = []) as ->.
  { apply elem_of_nil_inv.
    intros t (_ & i & back & front & _ & Hback & Hfront & Hne & _)%elem_of_transitions_of.
    apply Hne, Hside; by eapply list_elem_of_lookup_2. }
  by rewrite app_nil_r.
Qed.

End TransitionMore.
(** ** More on the vehicle masks and the index graph builder *)

Section BuilderMore.
Context `{!Geometry, !Features, !Masks, !VehicleModels, !Routing, !Platform}.

(** X11.  When the three mask constants are non-zero and pairwise disjoint
    bit sets, the mask [CalcMask] returns has the bits of a vehicle exactly
    when the predicate holds for that vehicle's model, and is zero exactly
    when it holds for none of the three. *)
Theorem CalcMask_bits (this : VehicleMaskBuilder) (f : FeatureType)
    (fn : IVehicleModel → FeatureType → bool) :
  kPedestrianMask ≠ 0%N → kBicycleMask ≠ 0%N → kCarMask ≠ 0%N →
  N.land kPedestrianMask kBicycleMask = 0%N →
  N.land kPedestrianMask kCarMask = 0%N →
  N.land kBicycleMask kCarMask = 0%N →
  (N.land (CalcMask this f fn) kPedestrianMask ≠ 0%N ↔ fn (m_pedestrianModel this) f = true) ∧
  (N.land (CalcMask this f fn) kBicycleMask ≠ 0%N ↔ fn (m_bicycleModel this) f = true) ∧
  (N.land (CalcMask this f fn) kCarMask ≠ 0%N ↔ fn (m_carModel this) f = true) ∧
  (CalcMask this f fn = 0%N ↔
   fn (m_pedestrianModel this) f = false ∧ fn (m_bicycleModel this) f = false ∧
   fn (m_carModel this) f = false).
Proof.
  intros Hp Hb Hc Hpb Hpc Hbc.
  assert (N.land kBicycleMask kPedestrianMask = 0%N) as Hbp by by rewrite N.land_comm.
  assert (N.land kCarMask kPedestrianMask = 0%N) as Hcp by by rewrite N.land_comm.
  assert (N.land kCarMask kBicycleMask = 0%N) as Hcb by by rewrite N.land_comm.
  unfold CalcMask.
  destruct (fn (m_pedestrianModel this) f), (fn (m_bicycleModel this) f),
    (fn (m_carModel this) f);
    rewrite ?N.lor_0_l, ?N.land_lor_distr_l, ?N.land_diag, ?N.land_0_l,
      ?Hpb, ?Hpc, ?Hbc, ?Hbp, ?Hcp, ?Hcb, ?N.lor_0_l, ?N.lor_0_r, ?N.lor_eq_0_iff;
    intuition congruence.
Qed.

(** X12.  The constructor of [VehicleMaskBuilder] succeeds exactly when the
    three factories all give a model for the country, the builder then
    holds those three models, and its only failure is a failed [CHECK]. *)
Theorem VehicleMaskBuilder_new_models (country : string) :
  (∀ this, VehicleMaskBuilder_new country = Ok this ↔
     PedestrianModelFactory country = Some (m_pedestrianModel this) ∧
     BicycleModelFactory country = Some (m_bicycleModel this) ∧
     CarModelFactory country = Some (m_carModel this)) ∧
  (∀ failure, VehicleMaskBuilder_new country = Fail failure →
     failure = CheckFailed ∧
     (PedestrianModelFactory country = None ∨ BicycleModelFactory country = None ∨
      CarModelFactory country = None)).
Proof.
  unfold VehicleMaskBuilder_new.
  destruct (PedestrianModelFactory country) as [p|], (BicycleModelFactory country) as [b|],
    (CarModelFactory country) as [c|]; simpl; (split; [intros [p' b' c']; simpl|]);
    try (split; [intros [=]|intros ([=] & [=] & [=])]; by subst);
    try (intros failure [= <-]; split; [done|]; by eauto);
    try (split; [intros [=]|intros ([=] & [=] & [=])]).
  intros failure [=].
Qed.

(** What one feature does to the table of masks. *)
Lemma ProcessFeature_masks (f : FeatureType) (id : N) (this this' : Processor) :
  ProcessFeature f id this = Ok this' →
  m_masks this'
  = if bool_decide (CalcRoadMask (m_maskBuilder this) f = 0%N) then m_masks this
    else <[id := CalcRoadMask (m_maskBuilder this) f]> (m_masks this).
Proof.
  unfold ProcessFeature. case_bool_decide as Hmask; [by intros [= <-]|].
  intros Hloop.
  apply (for_loop_invariant (λ _ p,
    m_masks p = <[id := CalcRoadMask (m_maskBuilder this) f]> (m_masks this))) in Hloop;
    [done|done|].
  intros k p p' _ Hp
    (point & _ & (pointId & _ & [= <-])%Outcome_bind_Ok)%Outcome_bind_Ok.
  done.
Qed.

Lemma for_each_feature_masks (features : list (FeatureType * N)) (this this' : Processor) :
  NoDup features.*2 →
  for_each_feature features ProcessFeature this = Ok this' →
  ∀ id mask,
    m_masks this' !! id = Some mask ↔
    ((id ∉ features.*2) ∧ m_masks this !! id = Some mask) ∨
    ∃ f, (f, id) ∈ features ∧
         (if bool_decide (CalcRoadMask (m_maskBuilder this) f = 0%N)
          then m_masks this !! id = Some mask
          else mask = CalcRoadMask (m_maskBuilder this) f).
Proof.
  revert this. induction features as [|[f fid] rest IH]; intros this; simpl.
  - intros _ [= <-] id mask. split.
    + intros ?. left. split; [apply not_elem_of_nil|done].
    + by intros [[_ ?]|(? & ?%elem_of_nil & _)].
  - intros [Hfid Hrest]%NoDup_cons (mid & Hstep & Hrun)%Outcome_bind_Ok id mask.
    pose proof (ProcessFeature_masks _ _ _ _ Hstep) as Hmasks.
    apply ProcessFeature_joints in Hstep as [Hmb _].
    rewrite (IH mid Hrest Hrun id mask), Hmb, Hmasks.
    destruct (decide (id = fid)) as [->|Hne].
    + split.
      * intros [[_ Hmid]|(g & Hg & _)].
        -- right. exists f. split; [by left|].
           case_bool_decide; [done|]. rewrite lookup_insert_eq in Hmid. congruence.
        -- exfalso. apply Hfid, list_elem_of_fmap. by exists (g, fid).
      * intros [[Hnotin _]|(g & [[= ->]|Hg]%elem_of_cons & Hmask)].
        -- exfalso. apply Hnotin. by left.
        -- left. split; [done|]. case_bool_decide; [done|].
           rewrite lookup_insert_eq. congruence.
        -- exfalso. apply Hfid, list_elem_of_fmap. by exists (g, fid).
    + assert ((if bool_decide (CalcRoadMask (m_maskBuilder this) f = 0%N)
               then m_masks this
               else <[fid := CalcRoadMask (m_maskBuilder this) f]> (m_masks this)) !! id
              = m_masks this !! id) as ->.
      { case_bool_decide; [done|]. by rewrite lookup_insert_ne. }
      split.
      * intros [[Hnotin Hid]|(g & Hg & Hmask)].
        -- left. split; [|done]. by intros [?|?]%elem_of_cons.
        -- right. exists g. split; [by right|done].
      * intros [[Hnotin Hid]|(g & [[= _ ?]|Hg]%elem_of_cons & Hmask)]; [|done|].
        -- left. split; [|done]. intros ?. apply Hnotin. by right.
        -- right. by exists g.
Qed.

(** X13.  After a fresh builder has processed a tile whose feature ids are
    distinct, the table of masks has an entry for a feature id exactly when
    the tile has a feature of that id whose road mask is not zero, and the
    entry is that road mask: a zero mask is never stored, and a feature
    that is no road for any vehicle leaves no entry. *)
Theorem masks_of_processed_roads (country filename : string)
    (this0 this : Processor) (w w' : World) :
  Processor_new country = Ok this0 →
  NoDup (DatFeatures filename).1.*2 →
  ProcessAllFeatures filename this0 w = (w', Ok this) →
  ∀ id mask,
    GetMasks this !! id = Some mask ↔
    ∃ f, (f, id) ∈ (DatFeatures filename).1 ∧
         mask = CalcRoadMask (m_maskBuilder this0) f ∧ mask ≠ 0%N.
Proof.
  intros Hnew Hids [Hrun _]%ForEachFromDat_Ok id mask.
  assert (m_masks this0 = ∅) as Hempty.
  { unfold Processor_new in Hnew.
    by apply Outcome_bind_Ok in Hnew as (mb & _ & [= <-]). }
  unfold GetMasks. rewrite (for_each_feature_masks _ _ _ Hids Hrun id mask), Hempty.
  split.
  - intros [[_ Hid]|(f & Hf & Hmask)]; [by rewrite lookup_empty in Hid|].
    exists f. split; [done|]. case_bool_decide as Hzero; [by rewrite lookup_empty in Hmask|].
    split; congruence.
  - intros (f & Hf & -> & Hmask). right. exists f. split; [done|].
    by rewrite bool_decide_eq_false_2.
Qed.

Lemma joints_wf_AddPointAt (posToJoint : gmap N Joint) (locationKey : N)
    (roadPoint : RoadPoint) :
  joints_wf posToJoint →
  ¬ in_joint_at posToJoint locationKey roadPoint →
  joints_wf (AddPointAt locationKey roadPoint posToJoint).
Proof.
  intros Hwf Hfresh key joint. unfold AddPointAt, AddPoint, Joint_empty.
  destruct (decide (key = locationKey)) as [->|Hne].
  - rewrite lookup_insert_eq. intros [= <-]. split; [by intros [_ ?]%app_eq_nil|].
    apply NoDup_app. destruct (posToJoint !! locationKey) as [old|] eqn:Hold; simpl.
    + split; [by apply (Hwf locationKey)|]. split; [|apply NoDup_singleton].
      intros rp Hrp ->%list_elem_of_singleton. apply Hfresh. by exists old.
    + split; [apply NoDup_nil_2|]. split; [|apply NoDup_singleton].
      by intros rp ?%elem_of_nil.
  - rewrite lookup_insert_ne by done. apply Hwf.
Qed.

Lemma ProcessFeature_wf (f : FeatureType) (id : N) (this this' : Processor) :
  ProcessFeature f id this = Ok this' →
  (∀ key pointId, ¬ in_joint_at (m_posToJoint this) key (MkRoadPoint id pointId)) →
  joints_wf (m_posToJoint this) → joints_wf (m_posToJoint this').
Proof.
  unfold ProcessFeature. case_bool_decide as Hmask; [by intros [= <-]|].
  intros Hloop Hfresh Hwf.
  pose (Inv := λ (k : nat) (p : Processor),
    joints_wf (m_posToJoint p) ∧
    ∀ key pointId, in_joint_at (m_posToJoint p) key (MkRoadPoint id pointId) →
                   (pointId < N.of_nat k)%N).
  apply (for_loop_invariant Inv) in Hloop as [? _]; [done| |].
  - split; [done|]. intros key pointId Hin. by apply Hfresh in Hin.
  - intros k p p' _ [Hp Hbelow]
      (point & _ & (pointId & (_ & _ & [= <-])%Outcome_bind_Ok & [= <-])%Outcome_bind_Ok
      )%Outcome_bind_Ok.
    simpl. split.
    + apply joints_wf_AddPointAt; [done|]. intros Hin%Hbelow. lia.
    + intros key pointId [Hin|[_ [= ->]]]%in_joint_at_AddPointAt; [|lia].
      apply Hbelow in Hin. lia.
Qed.

Lemma for_each_feature_wf (features : list (FeatureType * N)) (this this' : Processor) :
  NoDup features.*2 →
  for_each_feature features ProcessFeature this = Ok this' →
  (∀ key id pointId, id ∈ features.*2 →
     ¬ in_joint_at (m_posToJoint this) key (MkRoadPoint id pointId)) →
  joints_wf (m_posToJoint this) → joints_wf (m_posToJoint this').
Proof.
  revert this. induction features as [|[f fid] rest IH]; intros this; simpl.
  - by intros _ [= <-].
  - intros [Hfid Hrest]%NoDup_cons (mid & Hstep & Hrun)%Outcome_bind_Ok Hfresh Hwf.
    apply (IH mid Hrest Hrun).
    + intros key id pointId Hid.
      apply ProcessFeature_joints in Hstep as [_ Hmid]. rewrite Hmid.
      intros [Hold|[_ (i & [= -> _] & _)]]; [|done].
      revert Hold. apply Hfresh. by right.
    + apply (ProcessFeature_wf _ _ _ _ Hstep); [|done].
      intros key pointId. apply Hfresh. by left.
Qed.

(** X14.  After a fresh builder has processed a tile whose feature ids are
    distinct, every joint it keeps is non-empty and holds no road point
    twice, and no road point is in the joints of two location keys. *)
Theorem joints_partition_road_points (country filename : string)
    (this0 this : Processor) (w w' : World) :
  Processor_new country = Ok this0 →
  NoDup (DatFeatures filename).1.*2 →
  ProcessAllFeatures filename this0 w = (w', Ok this) →
  (∀ key joint, m_posToJoint this !! key = Some joint → joint ≠ [] ∧ NoDup joint) ∧
  (∀ key key' roadPoint,
     in_joint_at (m_posToJoint this) key roadPoint →
     in_joint_at (m_posToJoint this) key' roadPoint → key = key').
Proof.
  intros Hnew Hids [Hrun _]%ForEachFromDat_Ok.
  assert (m_posToJoint this0 = ∅) as Hempty.
  { unfold Processor_new in Hnew.
    by apply Outcome_bind_Ok in Hnew as (mb & _ & [= <-]). }
  assert (∀ key rp, ¬ in_joint_at (m_posToJoint this0) key rp) as Hnone.
  { intros key rp (joint & Hjoint & _). by rewrite Hempty, lookup_empty in Hjoint. }
  split.
  - apply (for_each_feature_wf _ _ _ Hids Hrun).
    + intros key id pointId _. apply Hnone.
    + intros key joint. by rewrite Hempty, lookup_empty.
  - apply for_each_feature_joints in Hrun as [_ Hjoints].
    intros key key' rp [Hold|(f & id & i & Hf & _ & -> & Hkey)]%Hjoints;
      [by apply Hnone in Hold|].
    intros [Hold|(g & gid & j & Hg & _ & [= -> Hj] & Hkey')]%Hjoints;
      [by apply Hnone in Hold|].
    apply Nat2N.inj in Hj as ->.
    rewrite (NoDup_ids_feature _ _ _ _ Hids Hf Hg) in Hkey. congruence.
Qed.

Lemma joints_total_AddPointAt (posToJoint : gmap N Joint) (locationKey : N)
    (roadPoint : RoadPoint) :
  joints_total (AddPointAt locationKey roadPoint posToJoint) = S (joints_total posToJoint).
Proof.
  unfold joints_total, AddPointAt, AddPoint, Joint_empty, GetSize.
  destruct (posToJoint !! locationKey) as [old|] eqn:Hold; simpl.
  - rewrite <- (insert_delete_eq posToJoint).
    rewrite map_to_list_insert by apply lookup_delete_eq.
    rewrite <- (map_to_list_delete posToJoint locationKey old Hold).
    simpl. rewrite length_app. simpl. lia.
  - rewrite map_to_list_insert by done. done.
Qed.

Lemma ProcessFeature_total_size (f : FeatureType) (id : N) (this this' : Processor) :
  ProcessFeature f id this = Ok this' →
  joints_total (m_posToJoint this')
  = joints_total (m_posToJoint this)
    + (if bool_decide (CalcRoadMask (m_maskBuilder this) f = 0%N) then 0
       else GetPointsCount f).
Proof.
  unfold ProcessFeature. case_bool_decide as Hmask; [intros [= <-]; lia|].
  intros Hloop.
  apply (for_loop_invariant (λ k p,
    joints_total (m_posToJoint p) = joints_total (m_posToJoint this) + k)) in Hloop;
    [done|simpl; lia|].
  intros k p p' _ Hp
    (point & _ & (pointId & _ & [= <-])%Outcome_bind_Ok)%Outcome_bind_Ok.
  simpl. rewrite joints_total_AddPointAt. lia.
Qed.

Lemma joint_entries_AddPointAt (posToJoint : gmap N Joint) (locationKey : N)
    (roadPoint : RoadPoint) :
  joint_entries (AddPointAt locationKey roadPoint posToJoint)
  ≡ₚ joint_entries posToJoint ++ [(locationKey, roadPoint)].
Proof.
  unfold joint_entries, AddPointAt, AddPoint, Joint_empty.
  destruct (posToJoint !! locationKey) as [old|] eqn:Hold; simpl.
  - rewrite <- (insert_delete_eq posToJoint).
    rewrite map_to_list_insert by apply lookup_delete_eq.
    rewrite <- (map_to_list_delete posToJoint locationKey old Hold).
    rewrite !bind_cons. simpl. rewrite fmap_app. simpl.
    rewrite <- !app_assoc. apply Permutation_app_head, Permutation_app_comm.
  - rewrite map_to_list_insert by done. rewrite bind_cons. simpl.
    apply Permutation_cons_append.
Qed.

Lemma ProcessFeature_entries (f : FeatureType) (id : N) (this this' : Processor) :
  ProcessFeature f id this = Ok this' →
  joint_entries (m_posToJoint this')
  ≡ₚ joint_entries (m_posToJoint this)
     ++ (if bool_decide (CalcRoadMask (m_maskBuilder this) f = 0%N) then []
         else feature_entries f id).
Proof.
  unfold ProcessFeature. case_bool_decide as Hmask.
  { intros [= <-]. by rewrite app_nil_r. }
  intros Hloop.
  apply (for_loop_invariant (λ k p,
    joint_entries (m_posToJoint p)
    ≡ₚ joint_entries (m_posToJoint this)
       ++ imap (λ i point, (PointToInt64 point POINT_COORD_BITS,
                            MkRoadPoint id (N.of_nat i)))
               (take k (BestGeometry f)))) in Hloop.
  - unfold GetPointsCount in Hloop. simpl in Hloop. by rewrite firstn_all in Hloop.
  - simpl. by rewrite app_nil_r.
  - intros k p p' _ Hp
      (point & Hpoint%at_index_Ok
       & (pointId & (_ & _ & [= <-])%Outcome_bind_Ok & [= <-])%Outcome_bind_Ok
      )%Outcome_bind_Ok.
    simpl. rewrite joint_entries_AddPointAt, Hp, (take_S_r _ _ _ Hpoint), imap_app.
    rewrite <- app_assoc. simpl.
    rewrite length_take_le by (apply lookup_lt_Some in Hpoint; lia).
    by rewrite Nat.add_0_r.
Qed.

Lemma for_each_feature_entries (features : list (FeatureType * N))
    (this this' : Processor) :
  for_each_feature features ProcessFeature this = Ok this' →
  joint_entries (m_posToJoint this')
  ≡ₚ joint_entries (m_posToJoint this) ++ road_entries (m_maskBuilder this) features.
Proof.
  revert this. induction features as [|[f id] rest IH]; intros this;
    cbn [for_each_feature].
  - intros [= <-]. unfold road_entries. cbn [mbind list_bind]. by rewrite app_nil_r.
  - intros (mid & Hstep & Hrun)%Outcome_bind_Ok.
    rewrite (IH _ Hrun), (ProcessFeature_entries _ _ _ _ Hstep).
    apply ProcessFeature_joints in Hstep as [-> _].
    unfold road_entries. rewrite bind_cons. cbn [fst snd]. by rewrite <- app_assoc.
Qed.

(** X15.  The joints of a fresh builder that has processed a tile hold
    exactly the vertices of the features whose road mask is not zero: each
    vertex [i] of such a feature of id [id] is there once, as the road
    point [(id, i)], in the joint of the location key of its point; no
    vertex of a road is skipped, none is entered twice, and the other
    features add nothing.  In all the joints hold as many road points as
    the roads have vertices. *)
Theorem joints_hold_every_road_vertex (country filename : string)
    (this0 this : Processor) (w w' : World) :
  Processor_new country = Ok this0 →
  ProcessAllFeatures filename this0 w = (w', Ok this) →
  joint_entries (m_posToJoint this)
  ≡ₚ road_entries (m_maskBuilder this0) (DatFeatures filename).1 ∧
  joints_total (m_posToJoint this)
  = road_vertices (m_maskBuilder this0) (DatFeatures filename).1.
Proof.
  intros Hnew [Hrun _]%ForEachFromDat_Ok.
  assert (m_posToJoint this0 = ∅) as Hempty.
  { unfold Processor_new in Hnew.
    by apply Outcome_bind_Ok in Hnew as (mb & _ & [= <-]). }
  split.
  { rewrite (for_each_feature_entries _ _ _ Hrun), Hempty.
    unfold joint_entries. by rewrite map_to_list_empty. }
  assert (joints_total (m_posToJoint this0) = 0) as Hzero by by rewrite Hempty.
  enough (∀ features p p',
    for_each_feature features ProcessFeature p = Ok p' →
    joints_total (m_posToJoint p')
    = joints_total (m_posToJoint p) + road_vertices (m_maskBuilder p) features) as Hsum.
  { by rewrite (Hsum _ _ _ Hrun), Hzero. }
  clear. induction features as [|[f id] rest IH]; intros p p'; simpl.
  - intros [= <-]. unfold road_vertices. simpl. lia.
  - intros (mid & Hstep & Hrun)%Outcome_bind_Ok.
    rewrite (IH _ _ Hrun), (ProcessFeature_total_size _ _ _ _ Hstep).
    apply ProcessFeature_joints in Hstep as [-> _].
    unfold road_vertices. simpl. lia.
Qed.

End BuilderMore.
(** ** More on the leap weights *)

Section WeightMore.
Context `{!Geometry, !Features, !Masks, !VehicleModels, !Routing, !Platform}.

Lemma distance_after_S (graph : IndexGraph) (enters : list Segment) (k : nat)
    (enter : Segment) :
  enters !! k = Some enter →
  distance_after graph enters (S k) = wave graph enter (distance_after graph enters k).
Proof. intros Hk. simpl. by rewrite Hk. Qed.

(** The state of the loop of [FillWeights] after [k] waves, whatever the
    wave does with the map it is given. *)
Lemma FillWeights_waves_prefix (graph : IndexGraph) (connector : CrossMwmConnector) :
  ∃ st, FillWeights_waves graph connector = Ok st ∧
    ws_distanceMap st
    = distance_after graph (GetEnters connector) (length (GetEnters connector)) ∧
    ws_log st
    = leaps_line (length (GetEnters connector))
        <$> filter (λ i, i mod 10 = 0 ∧ i ≠ 0) (seq 0 (length (GetEnters connector))) ∧
    (∀ enter exit weight,
       weight_of (ws_weights st) enter exit = Some weight →
       exit ∈ GetExits connector ∧
       ∃ i, GetEnters connector !! i = Some enter ∧
            distance_after graph (GetEnters connector) (S i) !! exit = Some weight) ∧
    (NoDup (GetEnters connector) →
     ∀ i enter exit,
       GetEnters connector !! i = Some enter → exit ∈ GetExits connector →
       weight_of (ws_weights st) enter exit
       = distance_after graph (GetEnters connector) (S i) !! exit).
Proof.
  unfold FillWeights_waves.
  set (enters := GetEnters connector). set (exits := GetExits connector).
  pose (Inv := λ (k : nat) (st : WaveState),
    ws_distanceMap st = distance_after graph enters k ∧
    ws_log st
    = leaps_line (length enters) <$> filter (λ i, i mod 10 = 0 ∧ i ≠ 0) (seq 0 k) ∧
    (∀ enter exit weight,
       weight_of (ws_weights st) enter exit = Some weight →
       exit ∈ exits ∧
       ∃ i, i < k ∧ enters !! i = Some enter ∧
            distance_after graph enters (S i) !! exit = Some weight) ∧
    (NoDup enters →
     ∀ i enter exit,
       i < k → enters !! i = Some enter → exit ∈ exits →
       weight_of (ws_weights st) enter exit = distance_after graph enters (S i) !! exit)).
  destruct (for_loop_total Inv (wave_from_enter graph connector (length enters))
              (length enters) 0 (MkWaveState ∅ ∅ [])) as (st & Hst & Hinv).
  - split; [done|]. split; [done|]. split.
    + intros enter exit weight. cbn [ws_weights]. unfold weight_of.
      by rewrite lookup_empty.
    + intros _ i enter exit Hi. lia.
  - intros k st [_ Hk] (Hmap & Hlog & Hsound & Hexact).
    unfold wave_from_enter, GetEnter. fold enters exits.
    destruct (at_index_lt enters k Hk) as (enter & Henter & ->).
    eexists. split; [done|]. cbn [ws_weights ws_distanceMap ws_log].
    rewrite Hmap, <- (distance_after_S graph enters k enter Henter).
    split; [done|]. split; [|split].
    + rewrite seq_S, filter_app, fmap_app, filter_cons, filter_nil. simpl.
      rewrite Hlog. case_bool_decide as Hten; case_bool_decide as Hpos; simpl.
      * by rewrite decide_True.
      * rewrite decide_False by naive_solver. by rewrite app_nil_r.
      * rewrite decide_False by naive_solver. by rewrite app_nil_r.
      * rewrite decide_False by naive_solver. by rewrite app_nil_r.
    + intros e x weight. cbn [ws_weights]. rewrite weight_of_RecordExits.
      case_decide as Hhere.
      * destruct Hhere as (-> & Hx & _). intros Hweight. split; [done|].
        exists k. split; [lia|done].
      * intros (Hx & i & Hi & Hei & Hweight)%Hsound. split; [done|].
        exists i. split; [lia|done].
    + intros Hnodup i e x Hi Hei Hx. cbn [ws_weights]. rewrite weight_of_RecordExits.
      destruct (decide (i = k)) as [->|Hne].
      * assert (e = enter) as -> by congruence.
        case_decide as Hhere; [done|].
        destruct (distance_after graph enters (S k) !! x) as [weight|] eqn:Hdist.
        { exfalso. apply Hhere. split; [done|]. split; [done|]. by eexists. }
        apply eq_None_not_Some. intros [weight (_ & j & Hj & Hej & _)%Hsound].
        pose proof (NoDup_lookup _ _ _ _ Hnodup Hej Henter). lia.
      * rewrite decide_False.
        { apply (Hexact Hnodup); [lia|done|done]. }
        intros (-> & _). apply Hne. by apply (NoDup_lookup _ _ _ _ Hnodup Hei Henter).
  - destruct Hinv as (Hmap & Hlog & Hsound & Hexact).
    exists st. split; [done|]. split; [done|]. split; [done|]. split.
    + intros enter exit weight (Hx & i & _ & Hi & Hweight)%Hsound. split; [done|].
      by exists i.
    + intros Hnodup i enter exit Hi Hx. apply (Hexact Hnodup); [|done|done].
      apply lookup_lt_Some in Hi. simpl. lia.
Qed.

(** X16.  The loop of [FillWeights] over the enters of a connector never
    fails, and it hands one and the same distance map to every wave: when
    it ends, the map is what the waves from all enters, one after the
    other, have made of an empty map, and the log holds one progress line
    for each positive multiple of ten below the number of enters. *)
Theorem FillWeights_waves_share_the_map (graph : IndexGraph)
    (connector : CrossMwmConnector) :
  ∃ st, FillWeights_waves graph connector = Ok st ∧
    ws_distanceMap st
    = fold_left (λ distanceMap enter, wave graph enter distanceMap)
        (GetEnters connector) ∅ ∧
    ws_log st
    = leaps_line (length (GetEnters connector))
        <$> filter (λ i, i mod 10 = 0 ∧ i ≠ 0) (seq 0 (length (GetEnters connector))).
Proof.
  destruct (FillWeights_waves_prefix graph connector) as (st & Hst & Hmap & Hlog & _).
  exists st. split; [done|]. split; [|done]. rewrite Hmap.
  generalize (GetEnters connector). intros enters.
  induction enters as [|enter enters IH] using rev_ind; [done|].
  rewrite fold_left_app, length_app, Nat.add_1_r. simpl.
  rewrite lookup_app_r, Nat.sub_diag by done. simpl. f_equal.
  rewrite <- IH. clear IH.
  assert (∀ k, k ≤ length enters →
    distance_after graph (enters ++ [enter]) k = distance_after graph enters k) as Hsame.
  { induction k as [|k IHk]; [done|]. intros Hk. simpl.
    rewrite lookup_app_l by lia. rewrite IHk by lia. done. }
  by apply Hsame.
Qed.

(** X17.  Whatever the wave does, every weight in the table that
    [FillWeights] builds stands at an enter and an exit of the connector
    and is the distance the shared map held for that exit right after a
    wave from that enter; so the lookup given to [connector.FillWeights]
    returns [kNoRoute] for every pair whose first segment is no enter or
    whose second is no exit. *)
Theorem weights_stand_at_enters_and_exits (graph : IndexGraph)
    (connector : CrossMwmConnector) :
  ∃ st, FillWeights_waves graph connector = Ok st ∧
    (∀ enter exit weight,
       weight_of (ws_weights st) enter exit = Some weight →
       exit ∈ GetExits connector ∧
       ∃ i, GetEnters connector !! i = Some enter ∧
            distance_after graph (GetEnters connector) (S i) !! exit = Some weight) ∧
    (∀ enter exit,
       enter ∉ GetEnters connector ∨ exit ∉ GetExits connector →
       FillWeights_lookup (ws_weights st) enter exit = kNoRoute).
Proof.
  destruct (FillWeights_waves_prefix graph connector) as (st & Hst & _ & _ & Hsound & _).
  exists st. split; [done|]. split; [done|].
  intros enter exit Hout. rewrite FillWeights_lookup_weight_of.
  destruct (weight_of (ws_weights st) enter exit) as [weight|] eqn:Hweight; [|done].
  apply Hsound in Hweight as (Hx & i & Hi%list_elem_of_lookup_2 & _).
  by destruct Hout.
Qed.

(** X18.  When the enters of the connector are distinct, the weight the
    table holds for the [i]-th enter and an exit is what the shared
    distance map held for that exit after the waves from the enters
    [0 .. i]: a distance an earlier wave left in the map and the wave from
    the [i]-th enter did not remove is recorded for the [i]-th enter. *)
Theorem weights_of_distinct_enters (graph : IndexGraph) (connector : CrossMwmConnector) :
  NoDup (GetEnters connector) →
  ∃ st, FillWeights_waves graph connector = Ok st ∧
    ∀ i enter exit,
      GetEnters connector !! i = Some enter → exit ∈ GetExits connector →
      weight_of (ws_weights st) enter exit
      = distance_after graph (GetEnters connector) (S i) !! exit ∧
      FillWeights_lookup (ws_weights st) enter exit
      = default kNoRoute (distance_after graph (GetEnters connector) (S i) !! exit).
Proof.
  intros Hnodup.
  destruct (FillWeights_waves_prefix graph connector) as (st & Hst & _ & _ & _ & Hexact).
  exists st. split; [done|]. intros i enter exit Hi Hx.
  rewrite FillWeights_lookup_weight_of, (Hexact Hnodup i enter exit Hi Hx). done.
Qed.

End WeightMore.
(** ** More on the two entry points *)

Section EntryMore.
Context `{!Geometry, !Features, !Masks, !VehicleModels, !Routing, !Platform}.

(** X19.  [BuildRoutingIndex] returns [true] exactly when the builder is
    constructed, every feature is processed, the reader ends without an
    exception, the joints are imported, the writer of the section opens and
    the serialiser ends; it has then read the tile, opened the writer and
    serialised, in this order and once each, the graph imported from the
    joints of two or more road points together with the masks of the
    builder, and logged its first line and the line of the sizes. *)
Theorem BuildRoutingIndex_true (filename country : string) (w w' : World) :
  BuildRoutingIndex filename country w = (w', Ok true) ↔
  ∃ this0 this graph writer writer',
    Processor_new country = Ok this0 ∧
    for_each_feature (DatFeatures filename).1 ProcessFeature this0 = Ok this ∧
    (DatFeatures filename).2 = None ∧
    Import IndexGraph_new (BuildGraph_joints this) = Ok graph ∧
    OpenWriter filename ROUTING_FILE_TAG = Ok writer ∧
    SerializeIndexGraph graph (m_masks this) writer = Ok writer' ∧
    w_io w' = w_io w ++ [IoForEachFromDat filename;
                         IoOpenWriter filename ROUTING_FILE_TAG;
                         IoSerializeIndexGraph graph (m_masks this)] ∧
    w_log w' = w_log w ++
      [(LINFO, [LogText "Building routing index for"; LogText filename]);
       (LINFO, [LogText "Routing section created:";
                LogNumber (uint64_sub (Pos writer') (Pos writer));
                LogText "bytes,"; LogNumber (GetNumRoads graph); LogText "roads,";
                LogNumber (GetNumJoints graph); LogText "joints,";
                LogNumber (GetNumPoints graph); LogText "points"])].
Proof.
  unfold BuildRoutingIndex, try_catch_RootException, BuildRoutingIndex_body,
    ProcessAllFeatures, ForEachFromDat, BuildGraph, GetMasks.
  unfold mbind, M_bind, mret, M_ret, throw, lift, io, LOG.
  destruct (Processor_new country) as [this0|f] eqn:Hnew; cbv beta iota;
    [|split; [by destruct f as [[|]| | |]|by intros (? & ? & ? & ? & ? & [=] & _)]].
  destruct (for_each_feature (DatFeatures filename).1 ProcessFeature this0)
    as [this|f] eqn:Hrun; cbv beta iota;
    [|split; [by destruct f as [[|]| | |]|
              intros (? & ? & ? & ? & ? & [= <-] & ? & _); congruence]].
  destruct (DatFeatures filename).2 as [e|] eqn:Hreader; cbv beta iota;
    [split; [by destruct e|by intros (? & ? & ? & ? & ? & _ & _ & [=] & _)]|].
  destruct (Import IndexGraph_new (BuildGraph_joints this)) as [graph|f] eqn:Hgraph;
    cbv beta iota;
    [|split; [by destruct f as [[|]| | |]|
              intros (? & ? & ? & ? & ? & [= <-] & ? & _ & ? & _); congruence]].
  destruct (OpenWriter filename ROUTING_FILE_TAG) as [writer|f] eqn:Hopen; cbv beta iota;
    [|split; [by destruct f as [[|]| | |]|
              by intros (? & ? & ? & ? & ? & _ & _ & _ & _ & [=] & _)]].
  destruct (SerializeIndexGraph graph (m_masks this) writer) as [writer'|f] eqn:Hwrite;
    cbv beta iota;
    [|split; [by destruct f as [[|]| | |]|
              intros (? & p & g & wr & ? & [= <-] & ? & _ & ? & [= <-] & ? & _);
              assert (p = this) as -> by congruence; congruence]].
  split.
  - intros [= <-]. exists this0, this, graph, writer, writer'. simpl.
    by rewrite <- !app_assoc.
  - intros (? & p & g & wr & wr' & [= <-] & ? & _ & ? & [= <-] & ? & Hio & Hlog).
    assert (p = this) as -> by congruence.
    assert (g = graph) as -> by congruence.
    assert (wr' = writer') as -> by congruence.
    destruct w'. simpl in Hio, Hlog. subst. simpl. by rewrite <- !app_assoc.
Qed.

(** Closes one case of the stages of [BuildRoutingIndex]. *)
Ltac BuildRoutingIndex_case :=
  cbn [w_log w_io fst snd];
  split; [done|];
  split; [eexists; rewrite <- ?app_assoc; reflexivity|];
  split; [first [by exists []; rewrite app_nil_r
                |eexists; rewrite <- ?app_assoc; reflexivity]|];
  first [by intros [=] | intros _; eexists; by rewrite last_snoc].

(** X20.  No [RootException] ever leaves [BuildRoutingIndex], whatever the
    files hold and wherever the body fails; the function never removes or
    changes what was logged or done before it, its first log line is
    written in every run, and when it returns [false] the last line of the
    log is the error line with the message of an exception. *)
Theorem BuildRoutingIndex_never_throws_RootException (filename country : string)
    (w : World) :
  (∀ what, (BuildRoutingIndex filename country w).2 ≠ Fail (Thrown (RootException what))) ∧
  (∃ lines,
     w_log (BuildRoutingIndex filename country w).1
     = w_log w ++ (LINFO, [LogText "Building routing index for"; LogText filename])
                  :: lines) ∧
  (∃ events, w_io (BuildRoutingIndex filename country w).1 = w_io w ++ events) ∧
  ((BuildRoutingIndex filename country w).2 = Ok false →
   ∃ what,
     last (w_log (BuildRoutingIndex filename country w).1)
     = Some (LERROR, [LogText "An exception happened while creating";
                      LogText ROUTING_FILE_TAG; LogText "section:"; LogText what])).
Proof.
  unfold BuildRoutingIndex, try_catch_RootException, BuildRoutingIndex_body,
    ProcessAllFeatures, ForEachFromDat, BuildGraph, GetMasks.
  unfold mbind, M_bind, mret, M_ret, throw, lift, io, LOG.
  destruct (Processor_new country) as [this0|[[what|what]| | |]];
    [|BuildRoutingIndex_case..].
  cbv beta iota.
  destruct (for_each_feature (DatFeatures filename).1 ProcessFeature this0)
    as [this|[[what|what]| | |]]; [|BuildRoutingIndex_case..].
  cbv beta iota.
  destruct (DatFeatures filename).2 as [[what|what]|]; [BuildRoutingIndex_case..|].
  cbv beta iota.
  destruct (Import IndexGraph_new (BuildGraph_joints this)) as [graph|[[what|what]| | |]];
    [|BuildRoutingIndex_case..].
  cbv beta iota.
  destruct (OpenWriter filename ROUTING_FILE_TAG) as [writer|[[what|what]| | |]];
    [|BuildRoutingIndex_case..].
  cbv beta iota.
  destruct (SerializeIndexGraph graph (m_masks this) writer)
    as [writer'|[[what|what]| | |]]; BuildRoutingIndex_case.
Qed.

(** X21.  When the reader of the tile ends with an exception after the
    builder has processed the features it yielded, [BuildRoutingIndex] has
    read the tile and done nothing else to the files: no writer is opened
    and nothing is serialised.  A [RootException] is logged and turned
    into [false]; any other exception leaves the function. *)
Theorem reader_exception_writes_no_section (filename country : string)
    (this0 this : Processor) (e : Exception) (w : World) :
  Processor_new country = Ok this0 →
  for_each_feature (DatFeatures filename).1 ProcessFeature this0 = Ok this →
  (DatFeatures filename).2 = Some e →
  w_io (BuildRoutingIndex filename country w).1 = w_io w ++ [IoForEachFromDat filename] ∧
  BuildRoutingIndex filename country w
  = match e with
    | RootException what =>
        (MkWorld _
           (w_log w ++ [(LINFO, [LogText "Building routing index for"; LogText filename]);
                        (LERROR, [LogText "An exception happened while creating";
                                  LogText ROUTING_FILE_TAG; LogText "section:";
                                  LogText what])])
           (w_io w ++ [IoForEachFromDat filename]),
         Ok false)
    | OtherException _ =>
        (MkWorld _
           (w_log w ++ [(LINFO, [LogText "Building routing index for"; LogText filename])])
           (w_io w ++ [IoForEachFromDat filename]),
         Fail (Thrown e))
    end.
Proof.
  intros Hnew Hrun Hreader.
  unfold BuildRoutingIndex, try_catch_RootException, BuildRoutingIndex_body,
    ProcessAllFeatures, ForEachFromDat.
  unfold mbind, M_bind, mret, M_ret, throw, lift, io, LOG.
  rewrite Hnew. cbv beta iota. rewrite Hrun, Hreader.
  destruct e as [what|what]; cbv beta iota; simpl; (split; [done|]);
    by rewrite <- ?app_assoc.
Qed.

(** X22.  A run of [BuildCrossMwmSection] that ends without a failure has
    loaded the borders, read the tile, loaded the index graph, loaded the
    coding parameters, opened the writer of the section and serialised, in
    this order and once each.  What it serialised are the transitions of
    all features of the tile, in the order of the features, and the
    connectors that received them, the car connector with its weights
    filled from the table of the waves; the log holds the opening line,
    the line of the transitions, one line for each vehicle type, the
    progress lines of the waves, and the two closing lines. *)
Theorem BuildCrossMwmSection_trace (path mwmFile country : string) (w w' : World) :
  BuildCrossMwmSection path mwmFile country w = (w', Ok ()) →
  ∃ borders maskMaker vehicleModel graph st codingParams writer writer'
    transitions connectors,
    LoadBorders (JoinPath path BORDERS_DIR (country +:+ BORDERS_EXTENSION)) = Ok borders ∧
    VehicleMaskBuilder_new country = Ok maskMaker ∧
    (DatFeatures mwmFile).2 = None ∧
    transitions = transitions_of_features borders maskMaker (DatFeatures mwmFile).1 ∧
    connectors = AddTransitions transitions connectors_new ∧
    CarModelFactory country = Some vehicleModel ∧
    DeserializedIndexGraph path mwmFile country vehicleModel = Ok graph ∧
    FillWeights_waves graph (connector_of connectors Car) = Ok st ∧
    DefCodingParams mwmFile = Ok codingParams ∧
    OpenWriter mwmFile CROSS_MWM_FILE_TAG = Ok writer ∧
    SerializeCrossMwm transitions
      (connector_set connectors Car
         (Connector_FillWeights (FillWeights_lookup (ws_weights st))
                                (connector_of connectors Car)))
      codingParams writer = Ok writer' ∧
    w_io w'
    = w_io w ++
      [IoLoadBorders (JoinPath path BORDERS_DIR (country +:+ BORDERS_EXTENSION));
       IoForEachFromDat mwmFile;
       IoLoadIndexGraph path mwmFile country;
       IoLoadCodingParams mwmFile;
       IoOpenWriter mwmFile CROSS_MWM_FILE_TAG;
       IoSerializeCrossMwm transitions
         (connector_set connectors Car
            (Connector_FillWeights (FillWeights_lookup (ws_weights st))
                                   (connector_of connectors Car)))] ∧
    w_log w'
    = w_log w ++
      [(LINFO, [LogText "Building cross mwm section for"; LogText country]);
       (LINFO, [LogText "Transitions finished, transitions:";
                LogNumber (N.of_nat (length transitions)); LogText ", elapsed:";
                LogElapsedSeconds; LogText "seconds"])] ++
      ((λ vehicleType,
          (LINFO, [LogVehicleType vehicleType; LogText "model: enters:";
                   LogNumber (N.of_nat (length (GetEnters
                                (connector_of connectors vehicleType))));
                   LogText ", exits:";
                   LogNumber (N.of_nat (length (GetExits
                                (connector_of connectors vehicleType))))]))
         <$> all_vehicle_types) ++
      ws_log st ++
      [(LINFO, [LogText "Leaps finished, elapsed:"; LogElapsedSeconds; LogText "seconds"]);
       (LINFO, [LogText "Cross mwm section generated, size:";
                LogNumber (uint64_sub (Pos writer') (Pos writer)); LogText "bytes"])].
Proof.
  unfold BuildCrossMwmSection, CalcCrossMwmTransitions, ForEachFromDat, FillWeights,
    LoadCodingParams, LogConnector, LOG_lines, all_vehicle_types.
  cbn [for_each_M].
  unfold mbind, M_bind, mret, M_ret, throw, lift, io, LOG.
  cbn [w_log w_io].
  generalize (JoinPath path BORDERS_DIR (country +:+ BORDERS_EXTENSION)). intros polyFile.
  destruct (LoadBorders polyFile) as [borders|f]; cbn [w_log w_io]; [|by intros].
  destruct (VehicleMaskBuilder_new country) as [maskMaker|f]; cbn [w_log w_io];
    [|by intros].
  rewrite for_each_feature_scan. cbn [w_log w_io].
  destruct (DatFeatures mwmFile).2 as [e|]; cbn [w_log w_io]; [by intros|].
  rewrite app_nil_l.
  set (transitions := transitions_of_features borders maskMaker (DatFeatures mwmFile).1).
  set (connectors := AddTransitions transitions connectors_new).
  destruct (CarModelFactory country) as [vehicleModel|]; cbn [w_log w_io]; [|by intros].
  destruct (DeserializedIndexGraph path mwmFile country vehicleModel) as [graph|f]
    eqn:Hgraph;
    cbn [w_log w_io]; [|by intros].
  destruct (FillWeights_waves graph (connector_of connectors Car)) as [st|f] eqn:Hst;
    cbn [w_log w_io]; [|by intros].
  destruct (DefCodingParams mwmFile) as [codingParams|f]; cbn [w_log w_io]; [|by intros].
  destruct (OpenWriter mwmFile CROSS_MWM_FILE_TAG) as [writer|f]; cbn [w_log w_io];
    [|by intros].
  destruct (SerializeCrossMwm _ _ codingParams writer) as [writer'|f] eqn:Hwrite;
    cbn [w_log w_io]; [|by intros].
  intros [= <-].
  exists borders, maskMaker, vehicleModel, graph, st, codingParams, writer, writer',
    transitions, connectors.
  split_and!; try done; cbn [w_io w_log fmap list_fmap]; rewrite <- ?app_assoc;
    reflexivity.
Qed.

End EntryMore.

(** ** The statements on the small tile *)

Import Demo.

(** Junctions at points closer than the epsilon are equal whatever their
    altitudes; junctions further apart are not. *)
#[warnings="-inexact-float"] Example Junction_eq_on_the_grid :
  Junction_eq (MkJunction (pt 1%float 0%float) 10%Z)
              (MkJunction (pt 1.0000001%float 0%float) (-3)%Z) = true ∧
  Junction_eq (MkJunction (pt 1%float 0%float) 10%Z)
              (MkJunction (pt 1.00001%float 0%float) 10%Z) = false.
Proof. split; reflexivity. Qed.

(** Scenario S4: the feature that leaves the unit square has one
    transition, on segment 0, out of the tile. *)
Lemma CalcCrossMwmTransitions_feature_emits_S4 :
  (N.of_nat (GetPointsCount leaving) ≤ 2 ^ 32)%N ∧
  CalcCrossMwmTransitions_feature borders maskMaker leaving 0%N ([], connectors_new)
  = Ok ([leaving_transition], AddTransitions [leaving_transition] connectors_new).
Proof.
  assert ((N.of_nat (GetPointsCount leaving) ≤ 2 ^ 32)%N) as Hcount
    by (vm_compute; discriminate).
  split; [exact Hcount|].
  exact (proj1 (CalcCrossMwmTransitions_feature_emits
                  borders maskMaker leaving 0%N [] connectors_new Hcount)).
Defined.

Lemma transitions_cross_the_borders_S4 :
  RegionsContain borders (t_backPoint leaving_transition)
  ≠ RegionsContain borders (t_frontPoint leaving_transition) ∧
  (RegionsContain borders (t_backPoint leaving_transition) = true
   ∨ RegionsContain borders (t_frontPoint leaving_transition) = true).
Proof.
  refine (transitions_cross_the_borders "data" "S4.mwm" "Testland" borders world0
            (CalcCrossMwmTransitions "data" "S4.mwm" "Testland" [] connectors_new world0).1
            [leaving_transition] (AddTransitions [leaving_transition] connectors_new)
            _ _ leaving_transition _).
  - reflexivity.
  - reflexivity.
  - apply list_elem_of_here.
Defined.

(** Scenario S1: vertex 1 of A and vertex 0 of B share a joint, the other
    vertices do not. *)
Lemma joints_coalesce_S1 :
  (ProcessAllFeatures "S1.mwm" (MkProcessor maskMaker ∅ ∅) world0).2 = Ok S1_processor ∧
  same_joint S1_processor (MkRoadPoint 0 1) (MkRoadPoint 1 0) ∧
  ¬ same_joint S1_processor (MkRoadPoint 0 0) (MkRoadPoint 1 1).
Proof.
  assert (ProcessAllFeatures "S1.mwm" (MkProcessor maskMaker ∅ ∅) world0
          = ((ProcessAllFeatures "S1.mwm" (MkProcessor maskMaker ∅ ∅) world0).1,
             Ok S1_processor)) as Hrun by reflexivity.
  assert (NoDup (DatFeatures "S1.mwm").1.*2) as Hids.
  { change (NoDup [0%N; 1%N]). apply NoDup_cons. split; [|apply NoDup_singleton].
    intros Hin%list_elem_of_singleton. discriminate. }
  assert (∀ f id, (f, id) ∈ [(feature_A, 0%N); (feature_B, 1%N)] →
                  (f, id) ∈ (DatFeatures "S1.mwm").1) as Hin by (intros f id H; exact H).
  split; [reflexivity|]. split.
  - refine (proj2 (joints_coalesce_by_location_key "Testland" "S1.mwm"
              (MkProcessor maskMaker ∅ ∅) S1_processor world0 _ eq_refl Hids Hrun
              feature_A 0%N 1 (2 ^ 30)%N feature_B 1%N 0 (2 ^ 30)%N
              _ _ _ _ _ _) eq_refl).
    + apply Hin, list_elem_of_here.
    + vm_compute. discriminate.
    + reflexivity.
    + apply Hin, list_elem_of_further, list_elem_of_here.
    + vm_compute. discriminate.
    + reflexivity.
  - intros Hsame.
    refine (_ (proj1 (joints_coalesce_by_location_key "Testland" "S1.mwm"
              (MkProcessor maskMaker ∅ ∅) S1_processor world0 _ eq_refl Hids Hrun
              feature_A 0%N 0 0%N feature_B 1%N 1 (2 ^ 30 + 1)%N
              _ _ _ _ _ _) Hsame)).
    + discriminate.
    + apply Hin, list_elem_of_here.
    + vm_compute. discriminate.
    + reflexivity.
    + apply Hin, list_elem_of_further, list_elem_of_here.
    + vm_compute. discriminate.
    + reflexivity.
Defined.

(** The location keys, not an epsilon, decide: two points closer than
    [kPointsEqualEpsilon] fall into different joints when the grid
    separates them. *)
#[warnings="-inexact-float"] Example epsilon_equal_points_with_different_keys :
  let a := pt 0.9999999%float 0%float in
  let b := pt 1%float 0%float in
  my_AlmostEqualAbs a b kPointsEqualEpsilon = true ∧
  PointToInt64 a POINT_COORD_BITS ≠ PointToInt64 b POINT_COORD_BITS.
Proof. vm_compute. split; [reflexivity|discriminate]. Qed.

(** Scenario S5, with a second road that enters the square and ends in it:
    two enters and one exit.  The bridge serialises the car connector with
    the weight 2 + 1.5 of the wave from the first enter to the exit, and
    [kNoRoute] from the second enter, whose wave does not reach the exit;
    the pedestrian and the bicycle connector have no weights. *)
Lemma leap_weights_two_enters :
  (BuildCrossMwmSection "data" "two_enters.mwm" "Testland" world0).2 = Ok () ∧
  last (w_io (BuildCrossMwmSection "data" "two_enters.mwm" "Testland" world0).1)
  = Some (IoSerializeCrossMwm two_enters_transitions
            (MkConnectors _ two_enters_connector two_enters_connector
               (MkConnector [through_enter; second_enter] [through_exit]
                            [[3.5%float]; [kNoRoute]]))).
Proof.
  assert (BuildCrossMwmSection "data" "two_enters.mwm" "Testland" world0
          = ((BuildCrossMwmSection "data" "two_enters.mwm" "Testland" world0).1, Ok ()))
    as Hrun by reflexivity.
  split; [reflexivity|].
  destruct (leap_weights_of_car_connector "data" "two_enters.mwm" "Testland" world0
              (BuildCrossMwmSection "data" "two_enters.mwm" "Testland" world0).1 Hrun)
    as (transitions & connectors & graph & weights
        & (w1 & Hscan) & (vehicleModel & _ & Hgraph) & Hlast & _ & Htable & _ & Hlookup).
  assert (∃ w1', CalcCrossMwmTransitions "data" "two_enters.mwm" "Testland" []
                   connectors_new
                   (LOG LINFO [LogText "Building cross mwm section for";
                               LogText "Testland"] world0).1
                 = (w1', Ok (two_enters_transitions,
                             MkConnectors _ two_enters_connector two_enters_connector
                                          two_enters_connector)))
    as [w1' Hscan'] by (eexists; reflexivity).
  rewrite Hscan' in Hscan. injection Hscan as _ <- <-.
  injection Hgraph as <-.
  rewrite Hlast.
  cbn [forPedestrian forBicycle forCar Connector_FillWeights routing c_enters c_exits
       two_enters_connector fmap list_fmap].
  rewrite !Hlookup.
  assert (weight_of weights through_enter through_exit = Some 3.5%float) as ->.
  { apply Htable. split; [apply list_elem_of_here|]. exists 0.
    split; [reflexivity|]. split; [reflexivity|].
    intros [|[|j]] Hj Hej; [lia|discriminate Hej|discriminate Hej]. }
  assert (weight_of weights second_enter through_exit = None) as ->.
  { apply eq_None_not_Some. intros [weight Hweight].
    apply Htable in Hweight as (_ & [|[|i]] & Hi & Hdistance & _);
      [discriminate Hi| |discriminate Hi].
    change (@None double = Some weight) in Hdistance. discriminate Hdistance. }
  reflexivity.
Defined.

(** Without a car model the bridge cannot be built; the index build stops
    at its first line, with no file touched. *)
Lemma missing_model_Nocarland :
  VehicleMaskBuilder_new "Nocarland" = Fail CheckFailed ∧
  BuildRoutingIndex "S1.mwm" "Nocarland" world0
  = (MkWorld _ [(LINFO, [LogText "Building routing index for"; LogText "S1.mwm"])] [],
     Fail CheckFailed).
Proof.
  destruct (missing_model_fails_construction "Nocarland") as (Hnew & Hindex & _).
  - right. right. reflexivity.
  - split; [exact Hnew|exact (Hindex "S1.mwm" world0)].
Defined.

(** Against C9 as the specification has it: in the cross-mwm build the
    bridge fails for want of a car model when the border file has already
    been loaded. *)
Lemma bridge_fails_after_borders_are_loaded :
  CarModelFactory "Nocarland" = None ∧
  (BuildCrossMwmSection "data" "S4.mwm" "Nocarland" world0).2 = Fail CheckFailed ∧
  w_io (BuildCrossMwmSection "data" "S4.mwm" "Nocarland" world0).1
  = [IoLoadBorders "data/borders/Nocarland.poly"] ∧
  w_io (BuildCrossMwmSection "data" "S4.mwm" "Nocarland" world0).1 ≠ w_io world0.
Proof.
  assert (w_io (BuildCrossMwmSection "data" "S4.mwm" "Nocarland" world0).1
          = [IoLoadBorders "data/borders/Nocarland.poly"]) as Hio by reflexivity.
  split; [reflexivity|]. split; [reflexivity|]. split; [exact Hio|].
  rewrite Hio. discriminate.
Qed.

(** Against C8 as the specification has it: an exception that is no
    [RootException], raised while the features are processed, is not
    caught; nothing is logged and nothing is returned. *)
Lemma BuildRoutingIndex_lets_bad_alloc_through :
  (BuildRoutingIndex_body "oom.mwm" "Testland"
     (LOG LINFO [LogText "Building routing index for"; LogText "oom.mwm"] world0).1).2
  = Fail (Thrown (OtherException "std::bad_alloc")) ∧
  (BuildRoutingIndex "oom.mwm" "Testland" world0).2
  = Fail (Thrown (OtherException "std::bad_alloc")) ∧
  (BuildRoutingIndex "oom.mwm" "Testland" world0).2 ≠ Ok false ∧
  w_log (BuildRoutingIndex "oom.mwm" "Testland" world0).1
  = [(LINFO, [LogText "Building routing index for"; LogText "oom.mwm"])].
Proof. vm_compute. repeat split. discriminate. Qed.

(** A [RootException] of the reader is caught, logged and turned into
    [false]; a tile that reads well gives [true]. *)
Example BuildRoutingIndex_corrupt_and_good :
  (BuildRoutingIndex "corrupt.mwm" "Testland" world0).2 = Ok false ∧
  w_log (BuildRoutingIndex "corrupt.mwm" "Testland" world0).1
  = [(LINFO, [LogText "Building routing index for"; LogText "corrupt.mwm"]);
     (LERROR, [LogText "An exception happened while creating"; LogText "routing";
               LogText "section:"; LogText "Reader::OpenException"])] ∧
  (BuildRoutingIndex "S1.mwm" "Testland" world0).2 = Ok true.
Proof. vm_compute. repeat split. Qed.

(** ** More statements on the small tile *)

(** A cross away from the polyline P = [(0,0), (1,0), (2,0)]: the callback
    is never called. *)
Lemma ForEachEdge_without_calls_far_cross :
  let j (px : double) := MkJunction (MkPointD px 0%float) 0%Z in
  let cross := MkJunction (MkPointD 5%float 5%float) 0%Z in
  let road := MkRoadInfo [j 0%float; j 1%float; j 2%float] 50%float true in
  expected_calls cross road = [] ∧
  ForEachEdge cross road
    (λ segId junction forward calls, calls ++ [MkEdgeCall segId junction forward]) []
  = Ok [].
Proof.
  apply ForEachEdge_without_calls. left.
  intros j [->|[->|[->|Hj%elem_of_nil]%elem_of_cons]%elem_of_cons]%elem_of_cons;
    [reflexivity..|destruct Hj].
Defined.

(** The road through the square: its two transitions come in the order of
    their segments. *)
Lemma transitions_in_segment_order_through :
  (N.of_nat (GetPointsCount through) ≤ 2 ^ 32)%N ∧
  ∃ emitted connectors',
    CalcCrossMwmTransitions_feature borders maskMaker through 0%N ([], connectors_new)
    = Ok ([] ++ emitted, connectors') ∧
    StronglySorted (λ a b, (t_segmentIdx a < t_segmentIdx b)%N) emitted ∧
    ∀ t : Transition, t ∈ emitted →
      (t_segmentIdx t + 1 < N.of_nat (GetPointsCount through))%N.
Proof.
  assert ((N.of_nat (GetPointsCount through) ≤ 2 ^ 32)%N) as Hcount
    by (vm_compute; discriminate).
  split; [exact Hcount|].
  exact (transitions_in_segment_order borders maskMaker through 0%N [] connectors_new
           Hcount).
Defined.

(** The scan of the tile with the road through the square. *)
Lemma CalcCrossMwmTransitions_result_through :
  LoadBorders (JoinPath "data" BORDERS_DIR ("Testland" +:+ BORDERS_EXTENSION)) = Ok borders ∧
  VehicleMaskBuilder_new "Testland" = Ok maskMaker ∧
  (DatFeatures "through.mwm").2 = None ∧
  CalcCrossMwmTransitions "data" "through.mwm" "Testland" [] connectors_new world0
  = (MkWorld _ (w_log world0)
       (w_io world0 ++
        [IoLoadBorders (JoinPath "data" BORDERS_DIR ("Testland" +:+ BORDERS_EXTENSION));
         IoForEachFromDat "through.mwm"]),
     Ok ([] ++ transitions_of_features borders maskMaker (DatFeatures "through.mwm").1,
         AddTransitions (transitions_of_features borders maskMaker
                           (DatFeatures "through.mwm").1)
                        connectors_new)).
Proof.
  split; [reflexivity|]. split; [reflexivity|]. split; [reflexivity|].
  apply CalcCrossMwmTransitions_result; reflexivity.
Defined.

(** Feature A of scenario S1 lies in the unit square, borders included: it
    brings no transition. *)
Lemma feature_on_one_side_emits_nothing_A :
  (∀ p q, p ∈ BestGeometry feature_A → q ∈ BestGeometry feature_A →
          RegionsContain borders p = RegionsContain borders q) ∧
  CalcCrossMwmTransitions_feature borders maskMaker feature_A 0%N ([], connectors_new)
  = Ok ([], connectors_new).
Proof.
  assert (∀ p q, p ∈ BestGeometry feature_A → q ∈ BestGeometry feature_A →
                 RegionsContain borders p = RegionsContain borders q) as Hside.
  { intros p q [->|[->|Hp%elem_of_nil]%elem_of_cons]%elem_of_cons
               [->|[->|Hq%elem_of_nil]%elem_of_cons]%elem_of_cons;
      try reflexivity; by exfalso. }
  split; [exact Hside|].
  exact (feature_on_one_side_emits_nothing borders maskMaker feature_A 0%N []
           connectors_new Hside).
Defined.

(** The masks 1, 2 and 4 are disjoint bits: the road mask of a road for
    all three vehicles has each of them, and its one-way mask is zero. *)
Lemma CalcMask_bits_leaving :
  N.land (CalcMask maskMaker leaving (λ model f, IsRoad model f)) kPedestrianMask ≠ 0%N ∧
  N.land (CalcMask maskMaker leaving (λ model f, IsRoad model f)) kBicycleMask ≠ 0%N ∧
  N.land (CalcMask maskMaker leaving (λ model f, IsRoad model f)) kCarMask ≠ 0%N ∧
  CalcMask maskMaker leaving (λ model f, IsOneWay model f) = 0%N.
Proof.
  assert (kPedestrianMask ≠ 0%N ∧ kBicycleMask ≠ 0%N ∧ kCarMask ≠ 0%N)
    as (Hp & Hb & Hc) by (repeat split; discriminate).
  destruct (CalcMask_bits maskMaker leaving (λ model f, IsRoad model f)
              Hp Hb Hc eq_refl eq_refl eq_refl) as (Hped & Hbic & Hcar & _).
  destruct (CalcMask_bits maskMaker leaving (λ model f, IsOneWay model f)
              Hp Hb Hc eq_refl eq_refl eq_refl) as (_ & _ & _ & Hzero).
  split; [apply Hped; reflexivity|]. split; [apply Hbic; reflexivity|].
  split; [apply Hcar; reflexivity|]. apply Hzero. repeat split; reflexivity.
Defined.

(** Scenario S1: both features are roads for the three vehicles, so each
    has its entry 7 in the table of masks, and no other id has one. *)
Lemma masks_of_processed_roads_S1 :
  (ProcessAllFeatures "S1.mwm" (MkProcessor maskMaker ∅ ∅) world0).2 = Ok S1_processor ∧
  GetMasks S1_processor !! 0%N = Some 7%N ∧
  GetMasks S1_processor !! 1%N = Some 7%N ∧
  GetMasks S1_processor !! 2%N = None.
Proof.
  assert (ProcessAllFeatures "S1.mwm" (MkProcessor maskMaker ∅ ∅) world0
          = ((ProcessAllFeatures "S1.mwm" (MkProcessor maskMaker ∅ ∅) world0).1,
             Ok S1_processor)) as Hrun by reflexivity.
  assert (NoDup (DatFeatures "S1.mwm").1.*2) as Hids.
  { change (NoDup [0%N; 1%N]). apply NoDup_cons. split; [|apply NoDup_singleton].
    intros Hin%list_elem_of_singleton. discriminate. }
  pose proof (masks_of_processed_roads "Testland" "S1.mwm" (MkProcessor maskMaker ∅ ∅)
                S1_processor world0 _ eq_refl Hids Hrun) as Hmasks.
  split; [reflexivity|]. split; [|split].
  - apply Hmasks. exists feature_A. split; [apply list_elem_of_here|].
    split; [reflexivity|discriminate].
  - apply Hmasks. exists feature_B.
    split; [apply list_elem_of_further, list_elem_of_here|].
    split; [reflexivity|discriminate].
  - apply eq_None_not_Some. intros [mask Hmask].
    apply Hmasks in Hmask as (f & Hf & _).
    change ((f, 2%N) ∈ [(feature_A, 0%N); (feature_B, 1%N)]) in Hf.
    apply elem_of_cons in Hf as [[=]|Hf].
    apply elem_of_cons in Hf as [[=]|Hf%elem_of_nil]. exact Hf.
Defined.

(** Scenario S1: the three joints are non-empty, without repetition, and
    no road point is in the joints of two location keys. *)
Lemma joints_partition_road_points_S1 :
  (ProcessAllFeatures "S1.mwm" (MkProcessor maskMaker ∅ ∅) world0).2 = Ok S1_processor ∧
  (∀ key joint, m_posToJoint S1_processor !! key = Some joint → joint ≠ [] ∧ NoDup joint) ∧
  (∀ key key' roadPoint,
     in_joint_at (m_posToJoint S1_processor) key roadPoint →
     in_joint_at (m_posToJoint S1_processor) key' roadPoint → key = key').
Proof.
  assert (ProcessAllFeatures "S1.mwm" (MkProcessor maskMaker ∅ ∅) world0
          = ((ProcessAllFeatures "S1.mwm" (MkProcessor maskMaker ∅ ∅) world0).1,
             Ok S1_processor)) as Hrun by reflexivity.
  assert (NoDup (DatFeatures "S1.mwm").1.*2) as Hids.
  { change (NoDup [0%N; 1%N]). apply NoDup_cons. split; [|apply NoDup_singleton].
    intros Hin%list_elem_of_singleton. discriminate. }
  split; [reflexivity|].
  exact (joints_partition_road_points "Testland" "S1.mwm" (MkProcessor maskMaker ∅ ∅)
           S1_processor world0 _ eq_refl Hids Hrun).
Defined.

(** Scenario S1: the joints hold the four vertices of the two roads, the
    shared one under one key as a road point of A and as a road point of
    B. *)
Lemma joints_hold_every_road_vertex_S1 :
  (ProcessAllFeatures "S1.mwm" (MkProcessor maskMaker ∅ ∅) world0).2 = Ok S1_processor ∧
  joint_entries (m_posToJoint S1_processor)
  ≡ₚ [(0%N, MkRoadPoint 0 0); ((2 ^ 30)%N, MkRoadPoint 0 1);
      ((2 ^ 30)%N, MkRoadPoint 1 0); ((2 ^ 30 + 1)%N, MkRoadPoint 1 1)] ∧
  joints_total (m_posToJoint S1_processor) = 4.
Proof.
  assert (ProcessAllFeatures "S1.mwm" (MkProcessor maskMaker ∅ ∅) world0
          = ((ProcessAllFeatures "S1.mwm" (MkProcessor maskMaker ∅ ∅) world0).1,
             Ok S1_processor)) as Hrun by reflexivity.
  assert (Processor_new "Testland" = Ok (MkProcessor maskMaker ∅ ∅)) as Hnew
    by reflexivity.
  split; [reflexivity|].
  exact (joints_hold_every_road_vertex "Testland" "S1.mwm" (MkProcessor maskMaker ∅ ∅)
           S1_processor world0 _ Hnew Hrun).
Defined.

(** Two distinct enters and a wave that keeps the map it is given: a wave
    from the second enter alone reaches no exit, and yet the table holds
    for the second enter the distance 2 that the wave from the first enter
    has left in the map. *)
Lemma weights_of_distinct_enters_shared_map :
  NoDup (@GetEnters SharedMap.routing SharedMap.connector) ∧
  @wave SharedMap.routing SharedMap.graph SharedMap.second_enter ∅
    !! SharedMap.only_exit = None ∧
  ∃ st, @FillWeights_waves SharedMap.routing SharedMap.graph SharedMap.connector = Ok st ∧
    weight_of (ws_weights st) SharedMap.first_enter SharedMap.only_exit = Some 2%float ∧
    weight_of (ws_weights st) SharedMap.second_enter SharedMap.only_exit = Some 2%float ∧
    @FillWeights_lookup SharedMap.routing (ws_weights st)
      SharedMap.second_enter SharedMap.only_exit = 2%float.
Proof.
  assert (NoDup (@GetEnters SharedMap.routing SharedMap.connector)) as Hnodup.
  { change (NoDup [SharedMap.first_enter; SharedMap.second_enter]).
    apply NoDup_cons. split; [|apply NoDup_singleton].
    intros Hin%list_elem_of_singleton. discriminate. }
  split; [exact Hnodup|]. split; [reflexivity|].
  destruct (@weights_of_distinct_enters SharedMap.routing SharedMap.graph
              SharedMap.connector Hnodup) as (st & Hst & Hweights).
  exists st. split; [exact Hst|].
  destruct (Hweights 0 SharedMap.first_enter SharedMap.only_exit eq_refl
              (list_elem_of_here _ _)) as [-> _].
  destruct (Hweights 1 SharedMap.second_enter SharedMap.only_exit eq_refl
              (list_elem_of_here _ _)) as [-> ->].
  repeat split; reflexivity.
Defined.

(** The tile whose reader throws: the tile is read, the exception is
    logged, and no writer is opened. *)
Lemma reader_exception_writes_no_section_corrupt :
  Processor_new "Testland" = Ok (MkProcessor maskMaker ∅ ∅) ∧
  (DatFeatures "corrupt.mwm").2 = Some (RootException "Reader::OpenException") ∧
  w_io (BuildRoutingIndex "corrupt.mwm" "Testland" world0).1
  = w_io world0 ++ [IoForEachFromDat "corrupt.mwm"] ∧
  (BuildRoutingIndex "corrupt.mwm" "Testland" world0).2 = Ok false.
Proof.
  assert (∃ this, for_each_feature (DatFeatures "corrupt.mwm").1 ProcessFeature
                    (MkProcessor maskMaker ∅ ∅) = Ok this) as [this Hrun]
    by (eexists; reflexivity).
  assert (Processor_new "Testland" = Ok (MkProcessor maskMaker ∅ ∅)) as Hnew
    by reflexivity.
  assert ((DatFeatures "corrupt.mwm").2 = Some (RootException "Reader::OpenException"))
    as Hreader by reflexivity.
  destruct (reader_exception_writes_no_section "corrupt.mwm" "Testland"
              (MkProcessor maskMaker ∅ ∅) this (RootException "Reader::OpenException")
              world0 Hnew Hrun Hreader) as [Hio Hrun'].
  split; [reflexivity|]. split; [reflexivity|]. split; [exact Hio|].
  rewrite Hrun'. reflexivity.
Defined.

(** Scenario S5 from end to end: the six file operations of the bridge for
    the tile with the road through the square, and its two transitions. *)
Lemma BuildCrossMwmSection_trace_through :
  (BuildCrossMwmSection "data" "through.mwm" "Testland" world0).2 = Ok () ∧
  ∃ connectors,
    w_io (BuildCrossMwmSection "data" "through.mwm" "Testland" world0).1
    = [IoLoadBorders "data/borders/Testland.poly";
       IoForEachFromDat "through.mwm";
       IoLoadIndexGraph "data" "through.mwm" "Testland";
       IoLoadCodingParams "through.mwm";
       IoOpenWriter "through.mwm" "cross_mwm";
       IoSerializeCrossMwm through_transitions connectors].
Proof.
  split; [reflexivity|].
  assert (BuildCrossMwmSection "data" "through.mwm" "Testland" world0
          = ((BuildCrossMwmSection "data" "through.mwm" "Testland" world0).1, Ok ()))
    as Hrun by reflexivity.
  destruct (BuildCrossMwmSection_trace "data" "through.mwm" "Testland" world0
              (BuildCrossMwmSection "data" "through.mwm" "Testland" world0).1 Hrun)
    as (borders' & maskMaker' & vehicleModel & graph & st & codingParams & writer & writer'
        & transitions & connectors & Hborders & HmaskMaker & _ & -> & -> & _ & _
        & _ & _ & _ & _ & Hio & _).
  injection Hborders as <-. injection HmaskMaker as <-.
  eexists. rewrite Hio. reflexivity.
Defined.
